(** * og-pilot-js: the signing and request pipeline of the OG Pilot client

    A shallow embedding of [src/client.ts] (class [Client], [normalizeIat]),
    [src/jwt.ts] ([signJwt] and its helpers), [src/errors.ts] and
    [src/config.ts] ([Configuration]), together with the properties of the
    request pipeline.

    Conventions of the embedding.
    - A JavaScript string is a [string]: the sequence of its code units, taken
      in the range U+0000..U+00FF.
    - A [Uint8Array] is a [list Z] whose elements lie in [0, 256).
    - A JavaScript number is a [number]: NaN, an infinity, or a finite value
      given by the rational it equals; a quotient is rounded to binary64, a
      sum is kept as it is.
    - Objects that the client reads or writes live in a store indexed by
      references; [createImage] receives a reference to the caller's params.
    - Exceptions, the store and the log of host calls (timers, transport) are
      threaded by the monad [M]. *)

From Stdlib Require Import ZArith QArith Qround Qabs Ascii String List Lia Bool.
From Stdlib Require Import DecimalString.
From stdpp Require Import base list gmap strings.
Import ListNotations.

Local Open Scope Z_scope.

(* ================================================================== *)
(** ** Strings and bytes *)
(* ================================================================== *)

Module Str.

(** [s.length] *)
Definition length (s : string) : Z := Z.of_nat (String.length s).

(** [s.slice(0, n)] for a non-negative [n]. *)
Fixpoint slice0 (n : nat) (s : string) : string :=
  match n, s with
  | O, _ => ""
  | S _, EmptyString => ""
  | S k, String c r => String c (slice0 k r)
  end.

(** [s.replace(/c/g, d)] for a single literal character [c]. *)
Fixpoint replace_all (c d : ascii) (s : string) : string :=
  match s with
  | EmptyString => ""
  | String x r =>
      String (if Ascii.eqb x c then d else x) (replace_all c d r)
  end.

(** [s.replace(/c+$/g, empty)]: the only match of [c+$] is the maximal run
    of [c] that ends the string. *)
Fixpoint strip_trailing (c : ascii) (s : string) : string :=
  match s with
  | EmptyString => ""
  | String x r =>
      match strip_trailing c r with
      | EmptyString => if Ascii.eqb x c then "" else String x ""
      | r' => String x r'
      end
  end.

Definition of_list (l : list ascii) : string := string_of_list_ascii l.
Definition to_list (s : string) : list ascii := list_ascii_of_string s.

(** Code unit of a character. *)
Definition code (c : ascii) : Z := Z.of_N (N_of_ascii c).

Definition chr (z : Z) : ascii := ascii_of_N (Z.to_N z).

(** Decimal digits of an integer, as [String(n)] prints an integer-valued
    number of moderate size. *)
Definition of_Z (z : Z) : string := NilZero.string_of_int (Z.to_int z).

(** [l.join(sep)] *)
Fixpoint join (sep : string) (l : list string) : string :=
  match l with
  | [] => ""
  | [x] => x
  | x :: r => x +:+ sep +:+ join sep r
  end.

Fixpoint all (p : ascii -> bool) (s : string) : bool :=
  match s with
  | EmptyString => true
  | String c r => p c && all p r
  end.

End Str.

(** [new TextEncoder().encode(s)]: UTF-8.  Code units below U+0080 are one
    byte, the others (below U+0100 here) two bytes. *)
Module TextEncoder.

Definition encode_unit (c : ascii) : list Z :=
  let u := Str.code c in
  if u <? 128 then [u]
  else [Z.lor 192 (Z.shiftr u 6); Z.lor 128 (Z.land u 63)].

Fixpoint encode (s : string) : list Z :=
  match s with
  | EmptyString => []
  | String c r => encode_unit c ++ encode r
  end.

End TextEncoder.

(* ================================================================== *)
(** ** Base64 (RFC 4648) *)
(* ================================================================== *)

Module Base64.

Definition alphabet : string :=
  "ABCDEFGHIJKLMNOPQRSTUVWXYZabcdefghijklmnopqrstuvwxyz0123456789+/".

Definition alphabet_url : string :=
  "ABCDEFGHIJKLMNOPQRSTUVWXYZabcdefghijklmnopqrstuvwxyz0123456789-_".

Definition digit (abc : string) (i : Z) : ascii :=
  nth (Z.to_nat i) (Str.to_list abc) "A"%char.

(** The four 6-bit groups of a 24-bit group of three bytes. *)
Definition sextet0 (a : Z) : Z := Z.land (Z.shiftr a 2) 63.
Definition sextet1 (a b : Z) : Z :=
  Z.land (Z.lor (Z.shiftl (Z.land a 3) 4) (Z.shiftr b 4)) 63.
Definition sextet2 (b c : Z) : Z :=
  Z.land (Z.lor (Z.shiftl (Z.land b 15) 2) (Z.shiftr c 6)) 63.
Definition sextet3 (c : Z) : Z := Z.land c 63.

(** Standard base64 with padding: what [Buffer.from(bytes).toString("base64")]
    and [btoa(binary)] both compute. *)
Fixpoint encode (bytes : list Z) : string :=
  let d := digit alphabet in
  match bytes with
  | [] => ""
  | [a] =>
      String (d (sextet0 a)) (String (d (sextet1 a 0)) "==")
  | [a; b] =>
      String (d (sextet0 a)) (String (d (sextet1 a b))
        (String (d (sextet2 b 0)) "="))
  | a :: b :: c :: rest =>
      String (d (sextet0 a)) (String (d (sextet1 a b))
        (String (d (sextet2 b c)) (String (d (sextet3 c)) (encode rest))))
  end.

(** The "URL and filename safe" alphabet of RFC 4648 section 5, with the
    padding omitted: a final group of one byte gives two characters, a
    final group of two bytes gives three. *)
Fixpoint encode_url_nopad (bytes : list Z) : string :=
  let d := digit alphabet_url in
  match bytes with
  | [] => ""
  | [a] =>
      String (d (sextet0 a)) (String (d (sextet1 a 0)) "")
  | [a; b] =>
      String (d (sextet0 a)) (String (d (sextet1 a b))
        (String (d (sextet2 b 0)) ""))
  | a :: b :: c :: rest =>
      String (d (sextet0 a)) (String (d (sextet1 a b))
        (String (d (sextet2 b c))
          (String (d (sextet3 c)) (encode_url_nopad rest))))
  end.

End Base64.

(* ================================================================== *)
(** ** SHA-256 (FIPS 180-4) and HMAC (RFC 2104)

    The host's [crypto.subtle] with [{ name: "HMAC", hash: "SHA-256" }]. *)
(* ================================================================== *)

Module SHA256.

Definition mask32 : Z := 4294967295.
Definition add32 (x y : Z) : Z := Z.land (x + y) mask32.
Definition rotr (n x : Z) : Z :=
  Z.lor (Z.shiftr x n) (Z.land (Z.shiftl x (32 - n)) mask32).
Definition shr (n x : Z) : Z := Z.shiftr x n.
Definition not32 (x : Z) : Z := Z.lxor x mask32.

Definition Ch (x y z : Z) : Z := Z.lxor (Z.land x y) (Z.land (not32 x) z).
Definition Maj (x y z : Z) : Z :=
  Z.lxor (Z.lxor (Z.land x y) (Z.land x z)) (Z.land y z).
Definition bsig0 (x : Z) : Z := Z.lxor (Z.lxor (rotr 2 x) (rotr 13 x)) (rotr 22 x).
Definition bsig1 (x : Z) : Z := Z.lxor (Z.lxor (rotr 6 x) (rotr 11 x)) (rotr 25 x).
Definition ssig0 (x : Z) : Z := Z.lxor (Z.lxor (rotr 7 x) (rotr 18 x)) (shr 3 x).
Definition ssig1 (x : Z) : Z := Z.lxor (Z.lxor (rotr 17 x) (rotr 19 x)) (shr 10 x).

(** The primes, by trial division. *)
Definition is_prime (n : Z) : bool :=
  (2 <=? n)
  && forallb (fun d => negb (n mod d =? 0) || (n <=? d))
             (map Z.of_nat (seq 2 (Z.to_nat (Z.sqrt n)))).

Definition first_primes (count : nat) : list Z :=
  firstn count (filter is_prime (map Z.of_nat (seq 2 400))).

(** Integer cube root below [2 ^ bits], one bit at a time. *)
Fixpoint cbrt_bits (bits : nat) (x r : Z) : Z :=
  match bits with
  | O => r
  | S k =>
      let r' := r + 2 ^ Z.of_nat k in
      cbrt_bits k x (if r' * r' * r' <=? x then r' else r)
  end.

Definition frac32_cbrt (p : Z) : Z := Z.land (cbrt_bits 36 (p * 2 ^ 96) 0) mask32.
Definition frac32_sqrt (p : Z) : Z := Z.land (Z.sqrt (p * 2 ^ 64)) mask32.

(** Section 4.2.2: the first 32 bits of the fractional parts of the cube
    roots of the first 64 primes. *)
Definition K : list Z := Eval vm_compute in map frac32_cbrt (first_primes 64).

(** Section 5.3.3: the first 32 bits of the fractional parts of the square
    roots of the first 8 primes. *)
Definition H0 : list Z := Eval vm_compute in map frac32_sqrt (first_primes 8).

(** Big-endian bytes of a word of [n] bytes. *)
Fixpoint be_bytes (n : nat) (x : Z) : list Z :=
  match n with
  | O => []
  | S k => Z.land (Z.shiftr x (8 * Z.of_nat k)) 255 :: be_bytes k x
  end.

Fixpoint be_words (bytes : list Z) : list Z :=
  match bytes with
  | a :: b :: c :: d :: rest =>
      Z.lor (Z.shiftl a 24) (Z.lor (Z.shiftl b 16) (Z.lor (Z.shiftl c 8) d))
        :: be_words rest
  | _ => []
  end.

(** Section 5.1.1: a 1 bit, zero bits up to 56 modulo 64 bytes, then the
    bit length on 8 bytes. *)
Definition pad (msg : list Z) : list Z :=
  let len := Z.of_nat (List.length msg) in
  let zeros := Z.to_nat ((55 - len) mod 64) in
  msg ++ [128] ++ repeat 0 zeros ++ be_bytes 8 (8 * len).

(** Section 6.2.2 step 1, kept in reverse: the head is W(t-1). *)
Fixpoint schedule (n : nat) (wrev : list Z) : list Z :=
  match n with
  | O => wrev
  | S k =>
      let w i := nth i wrev 0 in
      schedule k
        (add32 (add32 (ssig1 (w 1%nat)) (w 6%nat))
               (add32 (ssig0 (w 14%nat)) (w 15%nat)) :: wrev)
  end.

Definition round (st : list Z) (kw : Z * Z) : list Z :=
  match st with
  | [a; b; c; d; e; f; g; h] =>
      let t1 := add32 (add32 (add32 h (bsig1 e)) (add32 (Ch e f g) (fst kw))) (snd kw) in
      let t2 := add32 (bsig0 a) (Maj a b c) in
      [add32 t1 t2; a; b; c; add32 d t1; e; f; g]
  | _ => st
  end.

Fixpoint zip_add (xs ys : list Z) : list Z :=
  match xs, ys with
  | x :: xs', y :: ys' => add32 x y :: zip_add xs' ys'
  | _, _ => []
  end.

Definition compress (h : list Z) (block : list Z) : list Z :=
  let w := rev (schedule 48 (rev (be_words block))) in
  zip_add h (fold_left round (combine K w) h).

Fixpoint blocks (fuel : nat) (bytes : list Z) : list (list Z) :=
  match fuel, bytes with
  | S k, _ :: _ => firstn 64 bytes :: blocks k (skipn 64 bytes)
  | _, _ => []
  end.

Definition digest (msg : list Z) : list Z :=
  let p := pad msg in
  concat (map (be_bytes 4) (fold_left compress (blocks (List.length p) p) H0)).

End SHA256.

Module HMAC.

Definition block_size : nat := 64.

Definition block_key (key : list Z) : list Z :=
  let k := if (Z.of_nat block_size <? Z.of_nat (List.length key))
           then SHA256.digest key else key in
  k ++ repeat 0 (block_size - List.length k).

Definition xor_pad (p : Z) (k : list Z) : list Z := map (Z.lxor p) k.

(** [H((K xor opad) || H((K xor ipad) || text))] *)
Definition sha256 (key data : list Z) : list Z :=
  let k := block_key key in
  SHA256.digest (xor_pad 92 k ++ SHA256.digest (xor_pad 54 k ++ data)).

End HMAC.

Definition hex_of_bytes (bs : list Z) : string :=
  let h i := Base64.digit "0123456789abcdef" i in
  Str.of_list (flat_map (fun b => [h (Z.shiftr b 4); h (Z.land b 15)]) bs).

(* ================================================================== *)
(** ** JavaScript numbers and values *)
(* ================================================================== *)

(** A number: NaN, an infinity ([Inf true] is the negative one) or a finite
    value, given by the rational it equals. *)
Inductive number : Type :=
| NaN
| Inf (negative : bool)
| Fin (q : Q).

Module Num.

Definition of_Z (z : Z) : number := Fin (inject_Z z).

Definition Qltb (a b : Q) : bool := negb (Qle_bool b a).

(** [x < y] *)
Definition lt (x y : number) : bool :=
  match x, y with
  | NaN, _ | _, NaN => false
  | Inf true, Inf true => false
  | Inf true, _ => true
  | _, Inf true => false
  | Inf false, _ => false
  | Fin _, Inf false => true
  | Fin a, Fin b => Qltb a b
  end.

(** [x > y] *)
Definition gt (x y : number) : bool := lt y x.

(** [x + y] *)
Definition add (x y : number) : number :=
  match x, y with
  | NaN, _ | _, NaN => NaN
  | Inf a, Inf b => if Bool.eqb a b then Inf a else NaN
  | Inf a, Fin _ | Fin _, Inf a => Inf a
  | Fin a, Fin b => Fin (a + b)
  end.

(** [-x] *)
Definition neg (x : number) : number :=
  match x with
  | NaN => NaN
  | Inf s => Inf (negb s)
  | Fin q => Fin (- q)
  end.

(** For [0 < q]: the [e] with [2^e <= q < 2^(e+1)]. *)
Definition binade (q : Q) : Z :=
  let n := Qnum q in
  let d := Z.pos (Qden q) in
  if d <=? n then Z.log2 (n / d) else - Z.log2_up ((d + n - 1) / n).

(** [a / b] to the nearest integer, a tie to the even one, for [0 <= a]
    and [0 < b]. *)
Definition round_half_even (a b : Z) : Z :=
  let k := a / b in
  let r := a mod b in
  if 2 * r <? b then k
  else if b <? 2 * r then k + 1
  else if Z.even k then k else k + 1.

(** The binary64 value nearest to [q], for [0 < q]: 53 bits in the binade
    of [q], the subnormal spacing below [2^-1022], a tie to the even
    significand, and the infinity from [2^1024] on. *)
Definition round64_pos (q : Q) : number :=
  let u := Z.max (binade q) (-1022) - 52 in
  let n := Qnum q in
  let d := Z.pos (Qden q) in
  let r := if 0 <=? u
           then inject_Z (round_half_even n (d * 2 ^ u) * 2 ^ u)
           else Qmake (round_half_even (n * 2 ^ (- u)) d) (Z.to_pos (2 ^ (- u))) in
  if Qle_bool (inject_Z (2 ^ 1024)) r then Inf false else Fin r.

(** The rounding of a real result to binary64. *)
Definition round64 (q : Q) : number :=
  match Qnum q with
  | Z0 => Fin 0
  | Zpos _ => round64_pos q
  | Zneg _ => neg (round64_pos (- q))
  end.

(** [x / d] for a finite, strictly positive divisor [d]: the quotient,
    rounded to binary64. *)
Definition div_pos (x : number) (d : Q) : number :=
  match x with
  | NaN => NaN
  | Inf s => Inf s
  | Fin a => round64 (a / d)
  end.

(** [Math.floor(x)] *)
Definition floor (x : number) : number :=
  match x with
  | Fin q => of_Z (Qfloor q)
  | _ => x
  end.

(** ToBoolean on a number: zero and NaN are falsy. *)
Definition truthy (x : number) : bool :=
  match x with
  | NaN => false
  | Inf _ => true
  | Fin q => negb (Qeq_bool q 0)
  end.

(** Integer-valued and below 2^53 in magnitude: printed by
    Number::toString as its decimal digits.  Up to there every integer is a
    binary64 value, so no shorter decimal stands for it; beyond, the digits
    printed are the shortest that round to the number. *)
Definition plain_integer (q : Q) : bool :=
  Qeq_bool (inject_Z (Qfloor q)) q
  && Qltb (Qabs q) (inject_Z (2 ^ 53)).

End Num.

(** The values a claim can hold: the scalars of the claims mapping. *)
Inductive value : Type :=
| VUndefined
| VNull
| VBool (b : bool)
| VNum (n : number)
| VStr (s : string).

(** An object is the list of its own enumerable properties, in property
    order.  The keys the client writes ([iat], [iss], [sub]) are not array
    indices, so a new key goes to the end. *)
Definition obj : Type := list (string * value).

Module Obj.

(** [o[k]], [undefined] for a missing key. *)
Fixpoint get (o : obj) (k : string) : value :=
  match o with
  | [] => VUndefined
  | (k', v) :: r => if String.eqb k' k then v else get r k
  end.

(** [o[k] = v] *)
Fixpoint set (o : obj) (k : string) (v : value) : obj :=
  match o with
  | [] => [(k, v)]
  | (k', v') :: r =>
      if String.eqb k' k then (k', v) :: r else (k', v') :: set r k v
  end.

End Obj.

(* ================================================================== *)
(** ** Errors ([src/errors.ts]) and thrown values *)
(* ================================================================== *)

Inductive ErrorClass : Type :=
| ClsError
| ClsTypeError
| ClsDOMException
| ClsOgPilotError
| ClsConfigurationError
| ClsRequestError.

Record ErrorObj : Type := mkErrorObj {
  err_class : ErrorClass;
  err_name : string;
  err_message : string;
  err_status : option Z
}.

(** [new Error(message)] *)
Definition Error_ (message : string) : ErrorObj :=
  mkErrorObj ClsError "Error" message None.

Definition TypeError_ (message : string) : ErrorObj :=
  mkErrorObj ClsTypeError "TypeError" message None.

Definition DOMException_ (message name : string) : ErrorObj :=
  mkErrorObj ClsDOMException name message None.

Definition OgPilotError (message : string) : ErrorObj :=
  mkErrorObj ClsOgPilotError "OgPilotError" message None.

Definition ConfigurationError (message : string) : ErrorObj :=
  mkErrorObj ClsConfigurationError "ConfigurationError" message None.

Definition RequestError (message : string) (status : option Z) : ErrorObj :=
  mkErrorObj ClsRequestError "RequestError" message status.

(** [e instanceof RequestError] *)
Definition instanceof_RequestError (e : ErrorObj) : bool :=
  match err_class e with ClsRequestError => true | _ => false end.

(** [e instanceof ConfigurationError] *)
Definition instanceof_ConfigurationError (e : ErrorObj) : bool :=
  match err_class e with ClsConfigurationError => true | _ => false end.

(** [e instanceof OgPilotError]: the class and its two subclasses. *)
Definition instanceof_OgPilotError (e : ErrorObj) : bool :=
  match err_class e with
  | ClsOgPilotError | ClsConfigurationError | ClsRequestError => true
  | _ => false
  end.

(** What a [throw] carries: an [Error] object or any other value. *)
Inductive thrown : Type :=
| ThrowError (e : ErrorObj)
| ThrowValue (v : value).

(** Result of an evaluation that may throw. *)
Inductive outcome (A : Type) : Type :=
| Ok (a : A)
| Throw (t : thrown).
Arguments Ok {A} a.
Arguments Throw {A} t.

Global Instance outcome_ret : MRet outcome := fun _ a => Ok a.

Global Instance outcome_bind : MBind outcome := fun _ _ f x =>
  match x with
  | Ok a => f a
  | Throw t => Throw t
  end.

(* ================================================================== *)
(** ** The host environment *)
(* ================================================================== *)

(** The part of a base URL that resolving an absolute path keeps. *)
Record URLBase : Type := mkURLBase {
  base_scheme : string;
  base_authority : string
}.

Record URL : Type := mkURL {
  url_scheme : string;
  url_authority : string;
  url_pathname : string;
  url_searchParams : list (string * string)
}.

(** [Headers]: names are kept in lower case. *)
Definition Headers : Type := list (string * string).

(** The [signal] of the request: the delay of the timer that aborts it, if
    the client armed one. *)
Record AbortSignal : Type := mkSignal {
  aborts_after : option number
}.

Record RequestInit : Type := mkInit {
  init_method : string;
  init_headers : Headers;
  init_redirect : string;
  init_signal : AbortSignal
}.

Record Response : Type := mkResponse {
  resp_status : Z;
  resp_headers : Headers;
  (** [response.url]; [None] when a substituted transport leaves it out. *)
  resp_url : option string;
  (** what [await response.text()] gives *)
  resp_text : outcome string
}.

(** What awaiting the transport's promise gives. *)
Inductive FetchResult : Type :=
| Resolved (r : Response)
| Rejected (t : thrown).

Definition Transport : Type := string -> RequestInit -> FetchResult.

Record Host : Type := mkHost {
  (** [typeof Buffer !== "undefined"] *)
  has_Buffer : bool;
  (** [typeof btoa !== "undefined"] *)
  has_btoa : bool;
  (** [globalThis.crypto.subtle] is there *)
  has_subtle : bool;
  (** the ambient [fetch] *)
  global_fetch : option Transport;
  (** the URL parser on a base URL; [None] when [new URL] throws *)
  parse_base : string -> option URLBase;
  (** Number::toString on the finite numbers that [Num.plain_integer]
      leaves out *)
  Number_toString_other : Q -> string
}.

(** [String(n)] / Number::toString *)
Definition Number_toString (host : Host) (x : number) : string :=
  match x with
  | NaN => "NaN"
  | Inf false => "Infinity"
  | Inf true => "-Infinity"
  | Fin q =>
      if Num.plain_integer q then Str.of_Z (Qfloor q)
      else Number_toString_other host q
  end.

(** [String(v)] *)
Definition String_ (host : Host) (v : value) : string :=
  match v with
  | VUndefined => "undefined"
  | VNull => "null"
  | VBool true => "true"
  | VBool false => "false"
  | VNum n => Number_toString host n
  | VStr s => s
  end.

(* ================================================================== *)
(** ** [JSON.stringify] *)
(* ================================================================== *)

Module JSON.

Definition hex_digit (i : Z) : ascii := Base64.digit "0123456789abcdef" i.

Definition backslash : ascii := Str.chr 92.

(** A backslash followed by [s]. *)
Definition escape (s : string) : string := String backslash s.

(** QuoteJSONString, one code unit. *)
Definition quote_unit (c : ascii) : string :=
  let u := Str.code c in
  if u =? 8 then escape "b"
  else if u =? 9 then escape "t"
  else if u =? 10 then escape "n"
  else if u =? 12 then escape "f"
  else if u =? 13 then escape "r"
  else if u =? 34 then escape (String c "")
  else if u =? 92 then escape (String c "")
  else if u <? 32 then
    escape ("u00" +:+ String (hex_digit (Z.shiftr u 4))
                            (String (hex_digit (Z.land u 15)) ""))
  else String c "".

Fixpoint quote_body (s : string) : string :=
  match s with
  | EmptyString => ""
  | String c r => quote_unit c +:+ quote_body r
  end.

Definition quote (s : string) : string :=
  String (Str.chr 34) (quote_body s +:+ String (Str.chr 34) "").

(** SerializeJSONProperty on a scalar: [None] for [undefined]. *)
Definition property (host : Host) (v : value) : option string :=
  match v with
  | VUndefined => None
  | VNull => Some "null"
  | VBool true => Some "true"
  | VBool false => Some "false"
  | VNum (Fin q) => Some (Number_toString host (Fin q))
  | VNum _ => Some "null"
  | VStr s => Some (quote s)
  end.

(** The members of an object: properties whose value is [undefined] are
    left out. *)
Fixpoint members (host : Host) (o : obj) : list string :=
  match o with
  | [] => []
  | (k, v) :: r =>
      match property host v with
      | Some s => (quote k +:+ ":" +:+ s) :: members host r
      | None => members host r
      end
  end.

(** [JSON.stringify(o)] for an object [o]. *)
Definition stringify (host : Host) (o : obj) : string :=
  "{" +:+ Str.join "," (members host o) +:+ "}".

End JSON.

(* ================================================================== *)
(** ** [src/jwt.ts] *)
(* ================================================================== *)

(** [crypto.subtle], as far as [hmacSha256] uses it. *)
Module SubtleCrypto.

Record CryptoKey : Type := mkKey { key_data : list Z }.

(** [importKey("raw", data, { name: "HMAC", hash: "SHA-256" }, false,
    ["sign"])]: a key of length zero is a [DataError]. *)
Definition importKey (data : list Z) : outcome CryptoKey :=
  match data with
  | [] => Throw (ThrowError
            (DOMException_ "Zero-length key is not supported" "DataError"))
  | _ => Ok (mkKey data)
  end.

(** [sign("HMAC", key, data)] *)
Definition sign (key : CryptoKey) (data : list Z) : list Z :=
  HMAC.sha256 (key_data key) data.

End SubtleCrypto.

(** [btoa(binary)] *)
Definition btoa (binary : string) : string :=
  Base64.encode (map Str.code (Str.to_list binary)).

(** The loop [binary += String.fromCharCode(bytes[i])]. *)
Definition fromCharCodes (bytes : list Z) : string :=
  fold_left (fun binary b => binary +:+ String (Str.chr b) "") bytes "".

Definition toBase64 (host : Host) (bytes : list Z) : outcome string :=
  if has_Buffer host then
    Ok (Base64.encode bytes)
  else
    let binary := fromCharCodes bytes in
    if negb (has_btoa host) then
      Throw (ThrowError (Error_ "btoa is not available in this environment"))
    else
      Ok (btoa binary).

Definition base64UrlEncodeBytes (host : Host) (bytes : list Z) : outcome string :=
  s ← toBase64 host bytes;
  mret (Str.strip_trailing "="
          (Str.replace_all "/" "_" (Str.replace_all "+" "-" s))).

Definition base64UrlEncodeString (host : Host) (value : string) : outcome string :=
  base64UrlEncodeBytes host (TextEncoder.encode value).

Definition getSubtleCrypto (host : Host) : bool := has_subtle host.

Definition hmacSha256 (host : Host) (data secret : string) : outcome (list Z) :=
  if negb (getSubtleCrypto host) then
    Throw (ThrowError (Error_
      "Web Crypto API is not available; requires a Node 18+ or Edge runtime."))
  else
    key ← SubtleCrypto.importKey (TextEncoder.encode secret);
    mret (SubtleCrypto.sign key (TextEncoder.encode data)).

Definition jwt_header : obj := [("alg", VStr "HS256"); ("typ", VStr "JWT")].

Definition signJwt (host : Host) (payload : obj) (secret : string) : outcome string :=
  let header := jwt_header in
  encodedHeader ← base64UrlEncodeString host (JSON.stringify host header);
  encodedPayload ← base64UrlEncodeString host (JSON.stringify host payload);
  let signingInput := encodedHeader +:+ "." +:+ encodedPayload in
  signature ← hmacSha256 host signingInput secret;
  encodedSignature ← base64UrlEncodeBytes host signature;
  mret (signingInput +:+ "." +:+ encodedSignature).

(* ================================================================== *)
(** ** [Headers], [URL] and [URLSearchParams] of the host *)
(* ================================================================== *)

Module HeadersM.

Definition lower_unit (c : ascii) : ascii :=
  let u := Str.code c in
  if (65 <=? u) && (u <=? 90) then Str.chr (u + 32) else c.

Fixpoint lower (s : string) : string :=
  match s with
  | EmptyString => ""
  | String c r => String (lower_unit c) (lower r)
  end.

(** A character of an HTTP token. *)
Definition token_unit (c : ascii) : bool :=
  let u := Str.code c in
  ((48 <=? u) && (u <=? 57)) || ((65 <=? u) && (u <=? 90))
  || ((97 <=? u) && (u <=? 122))
  || existsb (Z.eqb u) [33; 35; 36; 37; 38; 39; 42; 43; 45; 46; 94; 95; 96; 124; 126].

Definition valid_name (s : string) : bool :=
  negb (String.eqb s "") && Str.all token_unit s.

Definition whitespace (c : ascii) : bool :=
  existsb (Z.eqb (Str.code c)) [9; 10; 13; 32].

Fixpoint strip_leading (s : string) : string :=
  match s with
  | EmptyString => ""
  | String c r => if whitespace c then strip_leading r else s
  end.

Fixpoint strip_trailing (s : string) : string :=
  match s with
  | EmptyString => ""
  | String c r =>
      match strip_trailing r with
      | EmptyString => if whitespace c then "" else String c ""
      | r' => String c r'
      end
  end.

Definition normalize (v : string) : string := strip_trailing (strip_leading v).

Definition valid_value (v : string) : bool :=
  Str.all (fun c => negb (existsb (Z.eqb (Str.code c)) [0; 10; 13])) v.

Fixpoint replace (h : Headers) (name value : string) : Headers :=
  match h with
  | [] => []
  | (n, v) :: r =>
      if String.eqb n name
      then (n, value) :: filter (fun kv => negb (String.eqb (fst kv) name)) r
      else (n, v) :: replace r name value
  end.

(** [h.set(name, value)]: a [TypeError] on an invalid name or value. *)
Definition set (h : Headers) (name value : string) : outcome Headers :=
  let value := normalize value in
  if negb (valid_name name && valid_value value) then
    Throw (ThrowError (TypeError_ "Invalid header"))
  else
    let name := lower name in
    if existsb (fun kv => String.eqb (fst kv) name) h
    then Ok (replace h name value)
    else Ok (h ++ [(name, value)]).

(** [h.get(name)]: the values under that name joined by a comma and a
    space, [None] for [null]. *)
Definition get (h : Headers) (name : string) : option string :=
  match filter (fun kv => String.eqb (fst kv) (lower name)) h with
  | [] => None
  | l => Some (Str.join ", " (map snd l))
  end.

End HeadersM.

Module URLM.

(** [new URL(path, base)] for an absolute path without dot segments, query
    or fragment: scheme and authority of the base, that path, and an empty
    query. *)
Definition new_ (host : Host) (path base : string) : outcome URL :=
  match parse_base host base with
  | None => Throw (ThrowError (TypeError_ "Invalid URL"))
  | Some b => Ok (mkURL (base_scheme b) (base_authority b) path [])
  end.

Fixpoint replace (l : list (string * string)) (name value : string)
  : list (string * string) :=
  match l with
  | [] => []
  | (n, v) :: r =>
      if String.eqb n name
      then (n, value) :: filter (fun kv => negb (String.eqb (fst kv) name)) r
      else (n, v) :: replace r name value
  end.

(** [url.searchParams.set(name, value)] *)
Definition searchParams_set (u : URL) (name value : string) : URL :=
  let l := url_searchParams u in
  let l' :=
    if existsb (fun kv => String.eqb (fst kv) name) l
    then replace l name value
    else l ++ [(name, value)] in
  mkURL (url_scheme u) (url_authority u) (url_pathname u) l'.

Definition HEX (i : Z) : ascii := Base64.digit "0123456789ABCDEF" i.

(** application/x-www-form-urlencoded, one byte. *)
Definition serialize_byte (b : Z) : string :=
  if b =? 32 then "+"
  else if ((48 <=? b) && (b <=? 57)) || ((65 <=? b) && (b <=? 90))
          || ((97 <=? b) && (b <=? 122))
          || existsb (Z.eqb b) [42; 45; 46; 95]
  then String (Str.chr b) ""
  else String "%" (String (HEX (Z.shiftr b 4)) (String (HEX (Z.land b 15)) "")).

Fixpoint serialize_bytes (bs : list Z) : string :=
  match bs with
  | [] => ""
  | b :: r => serialize_byte b +:+ serialize_bytes r
  end.

Definition serialize_string (s : string) : string :=
  serialize_bytes (TextEncoder.encode s).

Definition serialize_query (l : list (string * string)) : string :=
  Str.join "&"
    (map (fun kv => serialize_string (fst kv) +:+ "=" +:+ serialize_string (snd kv)) l).

(** [url.toString()] *)
Definition toString (u : URL) : string :=
  url_scheme u +:+ "://" +:+ url_authority u +:+ url_pathname u
  +:+ match url_searchParams u with
      | [] => ""
      | l => "?" +:+ serialize_query l
      end.

End URLM.

(* ================================================================== *)
(** ** The store, the log of host calls, and the monad *)
(* ================================================================== *)

Definition loc : Type := positive.

Inductive Event : Type :=
| EvSetTimeout (ms : number)
| EvClearTimeout
| EvFetch (url : string) (init : RequestInit).

Record State : Type := mkState {
  store : gmap loc obj;
  log : list Event
}.

Definition M (A : Type) : Type := State -> outcome A * State.

Global Instance M_ret : MRet M := fun _ a st => (Ok a, st).

Global Instance M_bind : MBind M := fun _ _ f m st =>
  match m st with
  | (Ok a, st') => f a st'
  | (Throw t, st') => (Throw t, st')
  end.

Module Eff.

Definition throw {A} (e : ErrorObj) : M A :=
  fun st => (Throw (ThrowError e), st).

Definition rethrow {A} (t : thrown) : M A :=
  fun st => (Throw t, st).

Definition lift {A} (o : outcome A) : M A :=
  fun st => (o, st).

(** [try { body } catch (error) { handler }] *)
Definition try_catch {A} (body : M A) (handler : thrown -> M A) : M A :=
  fun st =>
    match body st with
    | (Ok a, st') => (Ok a, st')
    | (Throw t, st') => handler t st'
    end.

(** [try { body } finally { fin }] *)
Definition finally {A} (body : M A) (fin : M unit) : M A :=
  fun st =>
    match body st with
    | (r, st') =>
        match fin st' with
        | (Ok _, st'') => (r, st'')
        | (Throw t, st'') => (Throw t, st'')
        end
    end.

(** A new object with the given properties. *)
Definition alloc (o : obj) : M loc :=
  fun st =>
    let l := fresh (dom (store st)) in
    (Ok l, mkState (<[l := o]> (store st)) (log st)).

Definition read (l : loc) : M obj :=
  fun st => (Ok (default [] (store st !! l)), st).

(** [l[k] = v] *)
Definition write (l : loc) (k : string) (v : value) : M unit :=
  fun st =>
    (Ok tt,
     mkState (<[l := Obj.set (default [] (store st !! l)) k v]> (store st))
             (log st)).

Definition emit (e : Event) : M unit :=
  fun st => (Ok tt, mkState (store st) (log st ++ [e])).

End Eff.

(* ================================================================== *)
(** ** [src/config.ts] *)
(* ================================================================== *)

(** [a ?? b] *)
Definition nullish_or {A} (a : option A) (b : option A) : option A :=
  match a with
  | Some x => Some x
  | None => b
  end.

Module Config.

Record OgPilotConfigOptions : Type := mkOptions {
  opt_apiKey : option string;
  opt_domain : option string;
  opt_baseUrl : option string;
  opt_openTimeoutMs : option number;
  opt_readTimeoutMs : option number;
  opt_fetch : option Transport;
  opt_stripExtensions : option bool
}.

Definition DEFAULT_BASE_URL : string := "https://ogpilot.com".

Record Configuration : Type := mkConfiguration {
  apiKey : option string;
  domain : option string;
  baseUrl : string;
  openTimeoutMs : option number;
  readTimeoutMs : option number;
  fetch : option Transport;
  stripExtensions : bool
}.

(** [new Configuration(options)]; [env] is [readEnv]. *)
Definition new_Configuration (env : string -> option string)
    (options : OgPilotConfigOptions) : Configuration :=
  {| apiKey := nullish_or (opt_apiKey options) (env "OG_PILOT_API_KEY");
     domain := nullish_or (opt_domain options) (env "OG_PILOT_DOMAIN");
     baseUrl := default DEFAULT_BASE_URL (opt_baseUrl options);
     openTimeoutMs := Some (default (Num.of_Z 5000) (opt_openTimeoutMs options));
     readTimeoutMs := Some (default (Num.of_Z 10000) (opt_readTimeoutMs options));
     fetch := opt_fetch options;
     stripExtensions := default true (opt_stripExtensions options) |}.

End Config.

(* ================================================================== *)
(** ** [src/client.ts] *)
(* ================================================================== *)

(** The [iat] option: a number, or a [Date] given by its [getTime()]. *)
Inductive IatInput : Type :=
| IatNumber (n : number)
| IatDate (time : number).

Record CreateImageOptions : Type := mkCreateImageOptions {
  o_json : option bool;
  o_iat : option IatInput;
  o_headers : option (list (string * string))
}.

(** What [createImage] resolves to: a string, or the value of
    [JSON.parse(body)], which is evaluated in tail position and whose
    result or [SyntaxError] is the result of the call. *)
Inductive Returned : Type :=
| RetString (s : string)
| RetJSONParse (body : string).

Definition ENDPOINT_PATH : string := "/api/v1/images".

Definition normalizeIat (iat : IatInput) : number :=
  match iat with
  | IatDate time => Num.floor (Num.div_pos time 1000)
  | IatNumber n =>
      if Num.gt n (Num.of_Z 100000000000) then Num.floor (Num.div_pos n 1000)
      else Num.floor n
  end.

(** [v === undefined || v === null] *)
Definition nullish (v : value) : bool :=
  match v with
  | VUndefined | VNull => true
  | _ => false
  end.

(** [v === undefined || v === null || String(v).length === 0] *)
Definition blank (host : Host) (v : value) : bool :=
  nullish v || (Str.length (String_ host v) =? 0).

Module Client.

Section WithConfig.

Variable host : Host.
Variable config : Config.Configuration.

Definition apiKey : M string :=
  match Config.apiKey config with
  | Some k => mret k
  | None => Eff.throw (ConfigurationError "OG Pilot API key is missing")
  end.

Definition domain : M string :=
  match Config.domain config with
  | Some d => mret d
  | None => Eff.throw (ConfigurationError "OG Pilot domain is missing")
  end.

Definition apiKeyPrefix : M string :=
  k ← apiKey;
  mret (Str.slice0 8 k).

Definition totalTimeoutMs : option number :=
  match Config.openTimeoutMs config, Config.readTimeoutMs config with
  | None, None => None
  | openT, readT =>
      let open := default (Num.of_Z 0) openT in
      let read := default (Num.of_Z 0) readT in
      Some (Num.add open read)
  end.

Definition validatePayload (payload : loc) : M unit :=
  o ← Eff.read payload;
  if blank host (Obj.get o "iss") then
    Eff.throw (ConfigurationError "OG Pilot domain is missing")
  else if blank host (Obj.get o "sub") then
    Eff.throw (ConfigurationError "OG Pilot API key prefix is missing")
  else if blank host (Obj.get o "title") then
    Eff.throw (Error_ "OG Pilot title is required")
  else mret tt.

Definition buildPayload (params : loc) (iat : option IatInput) : M loc :=
  p ← Eff.read params;
  payload ← Eff.alloc p;
  match iat with
  | Some i => Eff.write payload "iat" (VNum (normalizeIat i))
  | None => mret tt
  end;;
  o ← Eff.read payload;
  (if nullish (Obj.get o "iss") then
     d ← domain;
     Eff.write payload "iss" (VStr d)
   else mret tt);;
  o ← Eff.read payload;
  (if nullish (Obj.get o "sub") then
     k ← apiKeyPrefix;
     Eff.write payload "sub" (VStr k)
   else mret tt);;
  validatePayload payload;;
  mret payload.

Definition buildUrl (params : loc) (iat : option IatInput) : M URL :=
  payload ← buildPayload params iat;
  secret ← apiKey;
  o ← Eff.read payload;
  token ← Eff.lift (signJwt host o secret);
  url ← Eff.lift (URLM.new_ host ENDPOINT_PATH (Config.baseUrl config));
  mret (URLM.searchParams_set url "token" token).

(** [this.config.fetch ?? (typeof fetch !== "undefined" ? fetch : undefined)] *)
Definition fetchImpl : option Transport :=
  nullish_or (Config.fetch config) (global_fetch host).

(** The [Headers] of the request. *)
Definition requestHeaders (json : bool) (headers : list (string * string))
  : outcome Headers :=
  h0 ← (if json then HeadersM.set [] "Accept" "application/json" else Ok []);
  fold_left (fun acc kv => h ← acc; HeadersM.set h (fst kv) (snd kv))
            headers (Ok h0).

(** [timeoutMs && timeoutMs > 0] *)
Definition armed (timeoutMs : option number) : option number :=
  match timeoutMs with
  | Some t => if Num.truthy t && Num.gt t (Num.of_Z 0) then Some t else None
  | None => None
  end.

Definition status_message (status : Z) (body : string) : string :=
  "OG Pilot request failed with status " +:+ Str.of_Z status +:+ ": " +:+ body.

(** The body of the [try] block. *)
Definition attempt (f : Transport) (url : URL) (init : RequestInit) : M Response :=
  Eff.emit (EvFetch (URLM.toString url) init);;
  match f (URLM.toString url) init with
  | Rejected t => Eff.rethrow t
  | Resolved response =>
      if 400 <=? resp_status response then
        let body := match resp_text response with
                    | Ok b => b
                    | Throw _ => ""
                    end in
        Eff.throw (RequestError (status_message (resp_status response) body)
                                (Some (resp_status response)))
      else mret response
  end.

(** The [catch] block. *)
Definition rewrap {A} (error : thrown) : M A :=
  match error with
  | ThrowError e =>
      if instanceof_RequestError e then Eff.rethrow error
      else if String.eqb (err_name e) "AbortError" then
        Eff.throw (RequestError
          ("OG Pilot request timed out: " +:+ err_message e) None)
      else
        Eff.throw (RequestError
          ("OG Pilot request failed: " +:+ err_message e) None)
  | ThrowValue _ => Eff.throw (RequestError "OG Pilot request failed." None)
  end.

Definition request (url : URL) (json : bool) (headers : list (string * string))
  : M Response :=
  match fetchImpl with
  | None =>
      Eff.throw (ConfigurationError
        "Fetch API is not available; provide a fetch implementation in the configuration.")
  | Some f =>
      hs ← Eff.lift (requestHeaders json headers);
      let timeoutMs := totalTimeoutMs in
      let timeoutId := armed timeoutMs in
      match timeoutId with
      | Some t => Eff.emit (EvSetTimeout t)
      | None => mret tt
      end;;
      Eff.finally
        (Eff.try_catch
           (attempt f url (mkInit "GET" hs "manual" (mkSignal timeoutId)))
           rewrap)
        (match timeoutId with
         | Some _ => Eff.emit EvClearTimeout
         | None => mret tt
         end)
  end.

Definition createImage (params : option loc) (options : CreateImageOptions)
  : M Returned :=
  let json := default false (o_json options) in
  let iat := o_iat options in
  let headers := default [] (o_headers options) in
  params' ← match params with
            | Some l => mret l
            | None => Eff.alloc []
            end;
  url ← buildUrl params' iat;
  response ← request url json headers;
  if json then
    body ← Eff.lift (resp_text response);
    mret (RetJSONParse body)
  else
    mret (RetString
      match HeadersM.get (resp_headers response) "location" with
      | Some l => l
      | None =>
          match resp_url response with
          | Some u => u
          | None => URLM.toString url
          end
      end).

End WithConfig.

End Client.

(* ================================================================== *)
(** ** A host and scenarios to run the client on *)
(* ================================================================== *)

Module Example.

(** A parser for base URLs of the shape [http(s)://authority[/...]]. *)
Fixpoint authority_of (s : string) : string :=
  match s with
  | EmptyString => ""
  | String c r =>
      if existsb (Ascii.eqb c) ["/"; "?"; "#"]%char then ""
      else String c (authority_of r)
  end.

Definition strip_prefix (p s : string) : option string :=
  if String.prefix p s
  then Some (String.substring (String.length p) (String.length s - String.length p) s)
  else None.

Definition parse_http (s : string) : option URLBase :=
  let with_scheme scheme :=
    match strip_prefix (scheme +:+ "://") s with
    | Some rest =>
        match authority_of rest with
        | EmptyString => None
        | a => Some (mkURLBase scheme a)
        end
    | None => None
    end in
  match with_scheme "https" with
  | Some b => Some b
  | None => with_scheme "http"
  end.

(** The decimal expansion of a rational, cut after 17 fractional digits. *)
Fixpoint fraction (fuel : nat) (n d : Z) : string :=
  match fuel with
  | O => ""
  | S k =>
      if n =? 0 then ""
      else String (Base64.digit "0123456789" (10 * n / d))
                  (fraction k ((10 * n) mod d) d)
  end.

Definition decimal (q : Q) : string :=
  let n := Z.abs (Qnum q) in
  let d := Z.pos (Qden q) in
  (if Qnum q <? 0 then "-" else "")
  +:+ Str.of_Z (n / d) +:+ "." +:+ fraction 17 (n mod d) d.

(** A host with [Buffer], [btoa] and Web Crypto, and no ambient [fetch]. *)
Definition node : Host :=
  mkHost true true true None parse_http decimal.

(** A host without [Buffer]: the [btoa] path of [toBase64]. *)
Definition edge : Host :=
  mkHost false true true None parse_http decimal.

Definition empty : State := mkState ∅ [].

(** A store holding the caller's params at reference 1. *)
Definition with_params (p : obj) : State := mkState {[ 1%positive := p ]} [].

Definition no_options : CreateImageOptions := mkCreateImageOptions None None None.

(** A transport that answers every request with [r]. *)
Definition answers (r : Response) : Transport := fun _ _ => Resolved r.

Definition config_with (f : Transport) : Config.Configuration :=
  Config.new_Configuration (fun _ => None)
    (Config.mkOptions (Some "sk_test_0123456789") (Some "example.com")
                      None None None (Some f) None).

Definition redirect_302 : Response :=
  mkResponse 302 [("location", "https://example.com/img.png")] (Some "") (Ok "").

Definition error_500 : Response :=
  mkResponse 500 [] (Some "") (Ok "boom").

(** A transport whose request is aborted. *)
Definition aborted : Transport :=
  fun _ _ => Rejected (ThrowError
    (DOMException_ "This operation was aborted" "AbortError")).

(** The claims of the debugger at jwt.io and its secret. *)
Definition jwt_io_claims : obj :=
  [("sub", VStr "1234567890"); ("name", VStr "John Doe");
   ("iat", VNum (Num.of_Z 1516239022))].

Definition jwt_io_secret : string := "your-256-bit-secret".

End Example.

(* ================================================================== *)
(** ** Notions used in the statements *)
(* ================================================================== *)

(** A byte: an element of a [Uint8Array]. *)
Definition byte_range (b : Z) : Prop := 0 <= b < 256.

Definition byte_rangeb (b : Z) : bool := (0 <=? b) && (b <? 256).

(** A code unit of ASCII. *)
Definition is_ascii (c : ascii) : bool := Str.code c <? 128.

(** The bytes of an ASCII string: its code units. *)
Definition ascii_bytes (s : string) : list Z := map Str.code (Str.to_list s).

(** One character through [.replace(/\+/g, "-").replace(/\//g, "_")]. *)
Definition url_unit (c : ascii) : ascii :=
  let c1 := if Ascii.eqb c "+" then "-"%char else c in
  if Ascii.eqb c1 "/" then "_"%char else c1.

(** [toBase64] has a way to encode: [Buffer] or [btoa]. *)
Definition can_encode (host : Host) : bool := has_Buffer host || has_btoa host.

(** Where the signer can run: an encoder, Web Crypto, and a key that
    [importKey] takes. *)
Definition can_sign (host : Host) (secret : string) : bool :=
  can_encode host && has_subtle host && negb (String.eqb secret "").

(** The token as the specification words it. *)
Module JwtSpec.

(** base64url, no padding *)
Definition base64url (bytes : list Z) : string := Base64.encode_url_nopad bytes.

Definition encoded_header (host : Host) : string :=
  base64url (TextEncoder.encode (JSON.stringify host jwt_header)).

Definition encoded_claims (host : Host) (claims : obj) : string :=
  base64url (TextEncoder.encode (JSON.stringify host claims)).

(** The ASCII string [<encoded-header>.<encoded-claims>] *)
Definition signing_input (host : Host) (claims : obj) : string :=
  encoded_header host +:+ "." +:+ encoded_claims host claims.

(** HMAC-SHA256 of the signing input, keyed by the secret *)
Definition signature (host : Host) (claims : obj) (secret : string) : list Z :=
  HMAC.sha256 (TextEncoder.encode secret) (ascii_bytes (signing_input host claims)).

Definition token (host : Host) (claims : obj) (secret : string) : string :=
  encoded_header host +:+ "." +:+ encoded_claims host claims +:+ "."
  +:+ base64url (signature host claims secret).

End JwtSpec.

(** Reading the store, the next fresh reference, and a store with one
    object set. *)
Definition lookup_obj (st : State) (l : loc) : obj := default [] (store st !! l).

Definition fresh_loc (st : State) : loc := fresh (dom (store st)).

Definition st_with (st : State) (l : loc) (o : obj) : State :=
  mkState (<[l := o]> (store st)) (log st).

Definition st_log (st : State) (evs : list Event) : State :=
  mkState (store st) (log st ++ evs).

(** The params reference that [createImage] works on and the store it
    starts from: the caller's object, or a new empty object for missing
    params. *)
Definition entry (params : option loc) (st : State) : loc * State :=
  match params with
  | Some l => (l, st)
  | None => (fresh_loc st, st_with st (fresh_loc st) [])
  end.

(** The payload that [buildPayload] builds, as a function of the properties
    of params: the steps of [buildPayload] and [validatePayload] on the
    property list alone. *)
Module Claims.

Section WithConfig.

Variable host : Host.
Variable config : Config.Configuration.

Definition with_iat (p : obj) (iat : option IatInput) : obj :=
  match iat with
  | Some i => Obj.set p "iat" (VNum (normalizeIat i))
  | None => p
  end.

Definition with_iss (o : obj) : outcome obj :=
  if nullish (Obj.get o "iss") then
    match Config.domain config with
    | Some d => Ok (Obj.set o "iss" (VStr d))
    | None => Throw (ThrowError (ConfigurationError "OG Pilot domain is missing"))
    end
  else Ok o.

Definition with_sub (o : obj) : outcome obj :=
  if nullish (Obj.get o "sub") then
    match Config.apiKey config with
    | Some k => Ok (Obj.set o "sub" (VStr (Str.slice0 8 k)))
    | None => Throw (ThrowError (ConfigurationError "OG Pilot API key is missing"))
    end
  else Ok o.

Definition validate (o : obj) : outcome obj :=
  if blank host (Obj.get o "iss") then
    Throw (ThrowError (ConfigurationError "OG Pilot domain is missing"))
  else if blank host (Obj.get o "sub") then
    Throw (ThrowError (ConfigurationError "OG Pilot API key prefix is missing"))
  else if blank host (Obj.get o "title") then
    Throw (ThrowError (Error_ "OG Pilot title is required"))
  else Ok o.

Definition payload_of (p : obj) (iat : option IatInput) : outcome obj :=
  o ← with_iss (with_iat p iat);
  o ← with_sub o;
  validate o.

(** The URL that [buildUrl] builds from a payload. *)
Definition url_of (o : obj) : outcome URL :=
  match Config.apiKey config with
  | None => Throw (ThrowError (ConfigurationError "OG Pilot API key is missing"))
  | Some secret =>
      token ← signJwt host o secret;
      url ← URLM.new_ host ENDPOINT_PATH (Config.baseUrl config);
      mret (URLM.searchParams_set url "token" token)
  end.

(** What [request] makes of the transport's answer: the [try] block after
    the call, then the [catch] block. *)
Definition settle (r : FetchResult) : outcome Response :=
  match r with
  | Resolved response =>
      if 400 <=? resp_status response then
        Throw (ThrowError
          (RequestError
             (Client.status_message (resp_status response)
                match resp_text response with
                | Ok b => b
                | Throw _ => ""
                end)
             (Some (resp_status response))))
      else Ok response
  | Rejected (ThrowError e) =>
      if instanceof_RequestError e then Throw (ThrowError e)
      else if String.eqb (err_name e) "AbortError" then
        Throw (ThrowError (RequestError
          ("OG Pilot request timed out: " +:+ err_message e) None))
      else
        Throw (ThrowError (RequestError
          ("OG Pilot request failed: " +:+ err_message e) None))
  | Rejected (ThrowValue _) =>
      Throw (ThrowError (RequestError "OG Pilot request failed." None))
  end.

(** The [RequestInit] that [request] passes to the transport. *)
Definition init_of (hs : Headers) : RequestInit :=
  mkInit "GET" hs "manual"
    (mkSignal (Client.armed (Client.totalTimeoutMs config))).

(** The host calls of one [request], in order. *)
Definition events_of (url : URL) (hs : Headers) : list Event :=
  match Client.armed (Client.totalTimeoutMs config) with
  | Some t =>
      [EvSetTimeout t; EvFetch (URLM.toString url) (init_of hs); EvClearTimeout]
  | None => [EvFetch (URLM.toString url) (init_of hs)]
  end.

(** What [createImage] returns from a response. *)
Definition returned_of (json : bool) (url : URL) (response : Response)
  : outcome Returned :=
  if json then
    body ← resp_text response;
    mret (RetJSONParse body)
  else
    Ok (RetString
      match HeadersM.get (resp_headers response) "location" with
      | Some l => l
      | None =>
          match resp_url response with
          | Some u => u
          | None => URLM.toString url
          end
      end).

End WithConfig.

End Claims.

(** [sub] occurs in [s]. *)
Definition contains (s sub : string) : Prop :=
  exists pre post, s = pre +:+ sub +:+ post.

(** The issuer and the subject that the payload ends up with: the caller's
    value unless it is [undefined] or [null], else the configured domain,
    resp. the first 8 characters of the configured key. *)
Definition iss_claim (config : Config.Configuration) (p : obj) : value :=
  if nullish (Obj.get p "iss") then
    match Config.domain config with
    | Some d => VStr d
    | None => VUndefined
    end
  else Obj.get p "iss".

Definition sub_claim (config : Config.Configuration) (p : obj) : value :=
  if nullish (Obj.get p "sub") then
    match Config.apiKey config with
    | Some k => VStr (Str.slice0 8 k)
    | None => VUndefined
    end
  else Obj.get p "sub".

(** The URLs given to the transport, in order. *)
Definition fetched (evs : list Event) : list string :=
  flat_map (fun e => match e with EvFetch u _ => [u] | _ => [] end) evs.

(** A character that the query serializer leaves as it is. *)
Definition form_safe (c : ascii) : bool :=
  is_ascii c && String.eqb (URLM.serialize_byte (Str.code c)) (String c "").

(* ================================================================== *)
(** ** Notions used in the further properties *)
(* ================================================================== *)

(** The value of the last header of the caller under a name, compared
    without case, as [Headers] keeps it. *)
Definition last_value (name : string) (headers : list (string * string))
  : option string :=
  fold_left
    (fun acc kv =>
       if String.eqb (HeadersM.lower (fst kv)) (HeadersM.lower name)
       then Some (HeadersM.normalize (snd kv))
       else acc)
    headers None.

(** A header that [Headers.set] takes. *)
Definition valid_header (kv : string * string) : bool :=
  HeadersM.valid_name (fst kv)
  && HeadersM.valid_value (HeadersM.normalize (snd kv)).

Module Example2.

(** A response of status 200 with a JSON text as body. *)
Definition ok_200 : Response :=
  mkResponse 200 [] (Some "https://ogpilot.com/api/v1/images") (Ok "[1,2,3]").

(** A response whose body cannot be read. *)
Definition unreadable_200 : Response :=
  mkResponse 200 [] None
    (Throw (ThrowError (TypeError_ "Body is unusable"))).

Definition json_options : CreateImageOptions :=
  mkCreateImageOptions (Some true) None None.

End Example2.

(** A character of the base64url alphabet. *)
Definition url_safe (c : ascii) : bool :=
  existsb (Ascii.eqb c) (Str.to_list Base64.alphabet_url).

(** The inverse of [Base64.encode_url_nopad], by which the encoding is shown
    to lose nothing. *)
Module Base64Inverse.

Fixpoint index_of (c : ascii) (l : list ascii) : Z :=
  match l with
  | [] => 0
  | x :: r => if Ascii.eqb c x then 0 else 1 + index_of c r
  end.

Definition index (c : ascii) : Z := index_of c (Str.to_list Base64.alphabet_url).

Definition byte0 (i0 i1 : Z) : Z := Z.lor (Z.shiftl i0 2) (Z.shiftr i1 4).
Definition byte1 (i1 i2 : Z) : Z := Z.lor (Z.shiftl (Z.land i1 15) 4) (Z.shiftr i2 2).
Definition byte2 (i2 i3 : Z) : Z := Z.lor (Z.shiftl (Z.land i2 3) 6) i3.

Fixpoint decode (s : string) : list Z :=
  match s with
  | String c0 (String c1 EmptyString) =>
      [byte0 (index c0) (index c1)]
  | String c0 (String c1 (String c2 EmptyString)) =>
      [byte0 (index c0) (index c1); byte1 (index c1) (index c2)]
  | String c0 (String c1 (String c2 (String c3 r))) =>
      byte0 (index c0) (index c1) :: byte1 (index c1) (index c2)
        :: byte2 (index c2) (index c3) :: decode r
  | _ => []
  end.

End Base64Inverse.

(** The first segment of every token: the encoded header. *)
Definition ENCODED_HEADER : string := "eyJhbGciOiJIUzI1NiIsInR5cCI6IkpXVCJ9".

(* ================================================================== *)
(** ** [src/index.ts] *)
(* ================================================================== *)

(** The module keeps one [Configuration] object in [defaultConfig]; clients
    hold a reference to their configuration.  The configuration objects
    live in a store of their own. *)
Module Index.

Record Registry : Type := mkRegistry {
  configs : gmap loc Config.Configuration;
  defaultConfig : loc
}.

(** A [Client] object: its [config] field. *)
Record ClientObj : Type := mkClient {
  client_config : loc
}.

(** The argument of the constructor of [Client]. *)
Inductive ClientArg : Type :=
| ArgConfiguration (l : loc)
| ArgOptions (options : Config.OgPilotConfigOptions).

(** [{}] as options *)
Definition no_options : Config.OgPilotConfigOptions :=
  Config.mkOptions None None None None None None None.

Section WithEnv.

(** [readEnv] at the time of the call. *)
Variable env : string -> option string.

(** [new Configuration(options)] as a new object. *)
Definition new_Configuration (options : Config.OgPilotConfigOptions)
    (reg : Registry) : loc * Registry :=
  let l := fresh (dom (configs reg)) in
  (l, mkRegistry (<[l := Config.new_Configuration env options]> (configs reg))
                 (defaultConfig reg)).

(** [new Client(config)]:
    [config instanceof Configuration ? config : new Configuration(config)] *)
Definition new_Client (arg : ClientArg) (reg : Registry) : ClientObj * Registry :=
  match arg with
  | ArgConfiguration l => (mkClient l, reg)
  | ArgOptions options =>
      let '(l, reg') := new_Configuration options reg in
      (mkClient l, reg')
  end.

(** The module at load time: [let defaultConfig = new Configuration()]. *)
Definition load : Registry :=
  let '(l, reg) := new_Configuration no_options (mkRegistry ∅ 1%positive) in
  mkRegistry (configs reg) l.

(** [configure(updater)]: the updater assigns fields of the live object,
    which is returned. *)
Definition configure (updater : Config.Configuration -> Config.Configuration)
    (reg : Registry) : loc * Registry :=
  (defaultConfig reg,
   mkRegistry (alter updater (defaultConfig reg) (configs reg))
              (defaultConfig reg)).

Definition resetConfig (reg : Registry) : Registry :=
  let '(l, reg') := new_Configuration no_options reg in
  mkRegistry (configs reg') l.

Definition getConfig (reg : Registry) : loc := defaultConfig reg.

Definition client (reg : Registry) : ClientObj * Registry :=
  new_Client (ArgConfiguration (defaultConfig reg)) reg.

(** [createClient(options)]: [new Client(options)].  The argument is what
    the constructor is given: a plain options object, or a [Configuration]
    instance, which has the type of the options and is kept as it is. *)
Definition createClient (options : ClientArg) (reg : Registry)
  : ClientObj * Registry :=
  new_Client options reg.

End WithEnv.

(** The configuration that a client reads when it runs. *)
Definition config_of (reg : Registry) (c : ClientObj) : option Config.Configuration :=
  configs reg !! client_config c.

(** [{ ...params, template }] *)
Definition with_template (template : string) (params : option loc) : M loc :=
  p ← match params with
      | Some l => Eff.read l
      | None => mret []
      end;
  Eff.alloc (Obj.set p "template" (VStr template)).

Section WithClient.

Variable host : Host.
(** The configuration of [client()]. *)
Variable config : Config.Configuration.

(** [createImage(params, options)]: [client().createImage(params, options)] *)
Definition createImage (params : option loc) (options : CreateImageOptions)
  : M Returned :=
  Client.createImage host config params options.

Definition createTemplateImage (template : string) (params : option loc)
    (options : CreateImageOptions) : M Returned :=
  l ← with_template template params;
  createImage (Some l) options.

Definition createBlogPostImage := createTemplateImage "blog_post".
Definition createPodcastImage := createTemplateImage "podcast".
Definition createProductImage := createTemplateImage "product".
Definition createEventImage := createTemplateImage "event".
Definition createBookImage := createTemplateImage "book".
Definition createCompanyImage := createTemplateImage "company".
Definition createPortfolioImage := createTemplateImage "portfolio".

End WithClient.

End Index.

(** The module's [defaultConfig] refers to an object of the store. *)
Definition live (reg : Index.Registry) : Prop :=
  is_Some (Index.configs reg !! Index.defaultConfig reg).

(* ================================================================== *)
(** ** [src/request-context.ts] *)
(* ================================================================== *)

Module RequestContext.

Record RequestInfo : Type := mkRequestInfo {
  url : option string;
  path : option string
}.

(** What the module finds around it: whether [require("async_hooks")] gives
    an [AsyncLocalStorage], [process.env] where there is one, and the parts
    [pathname] and [search] that [new URL(url)] makes of a string, [None]
    where it throws. *)
Record Runtime : Type := mkRuntime {
  async_hooks : bool;
  process_env : option (string -> option string);
  parse_url : string -> option (string * string)
}.

(** The two implementations of [AsyncStorage]. *)
Inductive AsyncStorage : Type :=
| OfAsyncLocalStorage
| FallbackStorage.

(** The module's variables, and the store of the [AsyncLocalStorage]
    instance in the running execution context. *)
Record Ctx : Type := mkCtx {
  asyncLocalStorage : option AsyncStorage;
  fallbackRequest : option RequestInfo;
  als_store : option RequestInfo
}.

(** A string that is neither [undefined] nor empty. *)
Definition truthy (s : option string) : bool :=
  match s with
  | Some v => negb (String.eqb v "")
  | None => false
  end.

(** [a || b] *)
Definition or_else (a b : option string) : option string :=
  if truthy a then a else b.

Section WithRuntime.

Variable rt : Runtime.

Definition getAsyncLocalStorage (c : Ctx) : AsyncStorage * Ctx :=
  match asyncLocalStorage c with
  | Some s => (s, c)
  | None =>
      let s := if async_hooks rt then OfAsyncLocalStorage else FallbackStorage in
      (s, mkCtx (Some s) (fallbackRequest c) (als_store c))
  end.

Definition getStore (s : AsyncStorage) (c : Ctx) : option RequestInfo :=
  match s with
  | OfAsyncLocalStorage => als_store c
  | FallbackStorage => fallbackRequest c
  end.

(** [run(store, callback)]: the callback runs with the store in place; the
    fallback puts [fallbackRequest] back in a [finally], and an
    [AsyncLocalStorage] leaves its context when the callback is over. *)
Definition run {T} (s : AsyncStorage) (store : RequestInfo)
    (callback : Ctx -> outcome T * Ctx) (c : Ctx) : outcome T * Ctx :=
  match s with
  | OfAsyncLocalStorage =>
      let prev := als_store c in
      let '(r, c') := callback (mkCtx (asyncLocalStorage c) (fallbackRequest c)
                                      (Some store)) in
      (r, mkCtx (asyncLocalStorage c') (fallbackRequest c') prev)
  | FallbackStorage =>
      let prev := fallbackRequest c in
      let '(r, c') := callback (mkCtx (asyncLocalStorage c) (Some store)
                                      (als_store c)) in
      (r, mkCtx (asyncLocalStorage c') prev (als_store c'))
  end.

Definition setCurrentRequest (request : RequestInfo) (c : Ctx) : Ctx :=
  mkCtx (asyncLocalStorage c) (Some request) (als_store c).

Definition clearCurrentRequest (c : Ctx) : Ctx :=
  mkCtx (asyncLocalStorage c) None (als_store c).

Definition withRequestContext {T} (request : RequestInfo)
    (callback : Ctx -> outcome T * Ctx) (c : Ctx) : outcome T * Ctx :=
  let '(s, c1) := getAsyncLocalStorage c in
  run s request callback c1.

Definition getCurrentRequest (c : Ctx) : option RequestInfo * Ctx :=
  let '(s, c1) := getAsyncLocalStorage c in
  (match getStore s c1 with
   | Some store => Some store
   | None => fallbackRequest c1
   end, c1).

Definition extractPathFromUrl (u : string) : string :=
  if String.prefix "http://" u || String.prefix "https://" u then
    match parse_url rt u with
    | Some (pathname, search) => pathname +:+ search
    | None => u
    end
  else u.

Definition getPathFromEnv : option string :=
  match process_env rt with
  | None => None
  | Some env =>
      if truthy (env "REQUEST_URI") then env "REQUEST_URI"
      else if truthy (env "ORIGINAL_FULLPATH") then env "ORIGINAL_FULLPATH"
      else if truthy (env "PATH_INFO") then
        let pathInfo := default "" (env "PATH_INFO") in
        let queryString := default "" (env "QUERY_STRING") in
        Some (if 0 <? Str.length queryString
              then pathInfo +:+ "?" +:+ queryString
              else pathInfo)
      else if truthy (env "REQUEST_PATH") then env "REQUEST_PATH"
      else None
  end.

Definition getCurrentPath (c : Ctx) : option string * Ctx :=
  let '(request, c1) := getCurrentRequest c in
  (if truthy (request ≫= path) then request ≫= path
   else if truthy (request ≫= url) then extractPathFromUrl <$> (request ≫= url)
   else getPathFromEnv, c1).

Record ExpressRequest : Type := mkExpressRequest {
  originalUrl : option string;
  req_url : option string
}.

(** The middleware of [createExpressMiddleware], given the request and
    [next]. *)
Definition createExpressMiddleware {T} (req : ExpressRequest)
    (next : Ctx -> outcome T * Ctx) (c : Ctx) : outcome T * Ctx :=
  next (setCurrentRequest
          (mkRequestInfo (or_else (originalUrl req) (req_url req))
                         (or_else (originalUrl req) (req_url req))) c).

Definition getPathFromExpressRequest (req : ExpressRequest) : string :=
  default "/" (or_else (or_else (originalUrl req) (req_url req)) (Some "/")).

End WithRuntime.

(** *** Next.js routes *)

Inductive NextParamValue : Type :=
| PUndefined
| PString (s : string)
| PArray (l : list string).

(** A params object: its own properties and, for the keys that it only
    inherits, the member of the prototype chain (a function of
    [Object.prototype], say), given by the text that [join] prints for
    it. *)
Record NextParams : Type := mkNextParams {
  own : list (string * NextParamValue);
  inherited : string -> option string
}.

(** What [params[key]] is: a value of an own property, [undefined] for a
    key that is nowhere, or an inherited member, which is neither
    [undefined] nor an array. *)
Inductive Property : Type :=
| Declared (v : NextParamValue)
| Member (text : string).

Fixpoint own_property (o : list (string * NextParamValue)) (key : string)
  : option NextParamValue :=
  match o with
  | [] => None
  | (k, v) :: r => if String.eqb k key then Some v else own_property r key
  end.

(** [params[key]] *)
Definition get_property (params : NextParams) (key : string) : Property :=
  match own_property (own params) key with
  | Some v => Declared v
  | None =>
      match inherited params key with
      | Some text => Member text
      | None => Declared PUndefined
      end
  end.

(** The argument of [serializeSearchParams]: the entries of a record, in the
    order of [Object.entries], or the pairs of a [URLSearchParams]. *)
Inductive SearchParams : Type :=
| OfRecord (entries : list (string * NextParamValue))
| OfURLSearchParams (pairs : list (string * string)).

(** [s.split(sep)] for a separator of one character *)
Fixpoint split (sep : ascii) (s : string) : list string :=
  match s with
  | EmptyString => [EmptyString]
  | String c r =>
      if Ascii.eqb c sep then EmptyString :: split sep r
      else match split sep r with
           | h :: t => String c h :: t
           | [] => [String c EmptyString]
           end
  end.

(** [routePattern.split("/").filter((segment) => segment.length > 0)] *)
Definition segments_of (routePattern : string) : list string :=
  List.filter (fun segment => 0 <? Str.length segment) (split "/" routePattern).

(** A line terminator among the code units below 256, which [.] leaves out. *)
Definition line_terminator (c : ascii) : bool :=
  (Str.code c =? 10) || (Str.code c =? 13).

(** [s] matches [^.+$] *)
Definition dot_plus (s : string) : bool :=
  (0 <? Str.length s) && Str.all (fun c => negb (line_terminator c)) s.

Fixpoint drop_chars (n : nat) (s : string) : string :=
  match n, s with
  | O, _ => s
  | S k, EmptyString => EmptyString
  | S k, String _ r => drop_chars k r
  end.

(** The group of [segment.match(/^pre(.+)suf$/)], for literal [pre] and
    [suf]. *)
Definition match_between (pre suf segment : string) : option string :=
  let n := (String.length segment - String.length pre - String.length suf)%nat in
  let key := Str.slice0 n (drop_chars (String.length pre) segment) in
  if String.eqb segment (pre +:+ key +:+ suf) && dot_plus key
  then Some key else None.

(** One turn of the loop over the segments.  A value that is neither
    [undefined] nor an array is pushed as it is; [join] prints it later. *)
Definition push_segment (params : NextParams)
    (builtSegments : list string) (segment : string) : list string :=
  let spread value :=
    match value with
    | Declared PUndefined => builtSegments
    | Declared (PArray l) => builtSegments ++ l
    | Declared (PString v) => builtSegments ++ [v]
    | Member text => builtSegments ++ [text]
    end in
  match match_between "[[..." "]]" segment with
  | Some key => spread (get_property params key)
  | None =>
      match match_between "[..." "]" segment with
      | Some key => spread (get_property params key)
      | None =>
          match match_between "[" "]" segment with
          | Some key =>
              match get_property params key with
              | Declared PUndefined => builtSegments
              | Declared (PArray l) => builtSegments ++ [Str.join "/" l]
              | Declared (PString v) => builtSegments ++ [v]
              | Member text => builtSegments ++ [text]
              end
          | None => builtSegments ++ [segment]
          end
      end
  end.

Definition serializeSearchParams (searchParams : option SearchParams) : string :=
  match searchParams with
  | None => ""
  | Some (OfURLSearchParams pairs) => URLM.serialize_query pairs
  | Some (OfRecord entries) =>
      URLM.serialize_query
        (flat_map (fun kv =>
                     match snd kv with
                     | PUndefined => []
                     | PArray l => map (pair (fst kv)) l
                     | PString v => [(fst kv, v)]
                     end) entries)
  end.

Definition buildPathFromNextParams (routePattern : string)
    (params : NextParams) (searchParams : option SearchParams)
  : string :=
  let builtSegments := fold_left (push_segment params) (segments_of routePattern) [] in
  let path := "/" +:+ Str.join "/" builtSegments in
  let query := serializeSearchParams searchParams in
  if 0 <? Str.length query then path +:+ "?" +:+ query else path.

End RequestContext.

Module Example3.

(** A runtime without [async_hooks] and without [process]. *)
Definition browser : RequestContext.Runtime :=
  RequestContext.mkRuntime false None (fun _ => None).

(** A runtime with [async_hooks] and the given environment. *)
Definition node_with (env : string -> option string) : RequestContext.Runtime :=
  RequestContext.mkRuntime true (Some env) (fun _ => None).

Definition initial : RequestContext.Ctx := RequestContext.mkCtx None None None.

Definition cgi (key : string) : option string :=
  if String.eqb key "PATH_INFO" then Some "/a"
  else if String.eqb key "QUERY_STRING" then Some "b=1"
  else None.

(** The members of [Object.prototype], as [join] prints them. *)
Definition object_prototype (key : string) : option string :=
  if String.eqb key "constructor" then
    Some "function Object() { [native code] }"
  else if String.eqb key "__proto__" then Some "[object Object]"
  else if existsb (String.eqb key)
            ["toString"; "toLocaleString"; "valueOf"; "hasOwnProperty";
             "isPrototypeOf"; "propertyIsEnumerable"; "__defineGetter__";
             "__defineSetter__"; "__lookupGetter__"; "__lookupSetter__"]
  then Some ("function " +:+ key +:+ "() { [native code] }")
  else None.

(** A plain object with the own properties [o]. *)
Definition plain (o : list (string * RequestContext.NextParamValue))
  : RequestContext.NextParams :=
  RequestContext.mkNextParams o object_prototype.

Definition params : RequestContext.NextParams :=
  plain [("slug", RequestContext.PArray ["2024"; "launch"])].

End Example3.

(** The storage that [getAsyncLocalStorage] has made, if any, is the one
    this runtime gives. *)
Definition consistent (rt : RequestContext.Runtime) (c : RequestContext.Ctx) : Prop :=
  RequestContext.asyncLocalStorage c = None
  \/ RequestContext.asyncLocalStorage c
     = Some (if RequestContext.async_hooks rt
             then RequestContext.OfAsyncLocalStorage
             else RequestContext.FallbackStorage).

(** A segment of a route pattern that stands for itself. *)
Definition static (segment : string) : bool :=
  match RequestContext.match_between "[[..." "]]" segment,
        RequestContext.match_between "[..." "]" segment,
        RequestContext.match_between "[" "]" segment with
  | None, None, None => true
  | _, _, _ => false
  end.

(* ================================================================== *)
(** ** Test vectors *)
(* ================================================================== *)

Example sha256_abc :
  hex_of_bytes (SHA256.digest (TextEncoder.encode "abc"))
  = "ba7816bf8f01cfea414140de5dae2223b00361a396177a9cb410ff61f20015ad".
Proof. vm_compute. reflexivity. Qed.

Example sha256_two_blocks :
  hex_of_bytes (SHA256.digest (TextEncoder.encode
    "abcdbcdecdefdefgefghfghighijhijkijkljklmklmnlmnomnopnopq"))
  = "248d6a61d20638b8e5c026930c3e6039a33ce45964ff2167f6ecedd419db06c1".
Proof. vm_compute. reflexivity. Qed.

(** RFC 4231, test case 2. *)
Example hmac_rfc4231_case2 :
  hex_of_bytes (HMAC.sha256 (TextEncoder.encode "Jefe")
                            (TextEncoder.encode "what do ya want for nothing?"))
  = "5bdcc146bf60754e6a042426089575c75a003f089d2739839dec58b964ec3843".
Proof. vm_compute. reflexivity. Qed.

(** RFC 4648, section 10. *)
Example base64_foobar :
  Base64.encode (TextEncoder.encode "foobar") = "Zm9vYmFy"
  /\ Base64.encode (TextEncoder.encode "fooba") = "Zm9vYmE="
  /\ Base64.encode (TextEncoder.encode "foob") = "Zm9vYg==".
Proof. vm_compute. auto. Qed.

(* ================================================================== *)
(** ** Lemmas on strings and bytes *)
(* ================================================================== *)

Lemma sapp_nil_l (s : string) : "" +:+ s = s.
Proof. reflexivity. Qed.

Lemma sapp_cons (c : ascii) (r s : string) : String c r +:+ s = String c (r +:+ s).
Proof. reflexivity. Qed.

Lemma sapp_nil_r (s : string) : s +:+ "" = s.
Proof. induction s as [|c r IH]; [reflexivity|]. rewrite sapp_cons, IH. reflexivity. Qed.

Lemma sapp_assoc (a b c : string) : (a +:+ b) +:+ c = a +:+ (b +:+ c).
Proof.
  induction a as [|x r IH]; [reflexivity|].
  rewrite !sapp_cons, IH. reflexivity.
Qed.

Lemma sapp_assoc_rev (a b c : string) : a +:+ (b +:+ c) = (a +:+ b) +:+ c.
Proof. by rewrite sapp_assoc. Qed.

Lemma all_app (p : ascii -> bool) (a b : string) :
  Str.all p (a +:+ b) = Str.all p a && Str.all p b.
Proof.
  induction a as [|x r IH]; [reflexivity|].
  rewrite sapp_cons. simpl. rewrite IH, andb_assoc. reflexivity.
Qed.

Lemma code_range (c : ascii) : byte_range (Str.code c).
Proof.
  unfold byte_range, Str.code.
  pose proof (N_ascii_bounded c). lia.
Qed.

Lemma code_chr (b : Z) : byte_range b -> Str.code (Str.chr b) = b.
Proof.
  intros [H0 H1]. unfold Str.code, Str.chr.
  rewrite N_ascii_embedding by lia. lia.
Qed.

Lemma chr_code (c : ascii) : Str.chr (Str.code c) = c.
Proof.
  unfold Str.code, Str.chr. rewrite N2Z.id. apply ascii_N_embedding.
Qed.

Lemma land_255_range (x : Z) : byte_range (Z.land x 255).
Proof.
  unfold byte_range. change 255 with (Z.ones 8).
  rewrite Z.land_ones by lia. apply Z.mod_pos_bound. lia.
Qed.

Lemma byte_rangeb_spec (b : Z) : byte_rangeb b = true <-> byte_range b.
Proof. unfold byte_rangeb, byte_range. rewrite andb_true_iff. lia. Qed.

Lemma forallb_byte_range (l : list Z) :
  forallb byte_rangeb l = true -> Forall byte_range l.
Proof.
  rewrite forallb_forall, Forall_forall.
  intros H x Hx. apply byte_rangeb_spec, H. by apply list_elem_of_In.
Qed.

(** The encoder gives bytes. *)
Lemma encode_unit_range (c : ascii) : Forall byte_range (TextEncoder.encode_unit c).
Proof.
  apply forallb_byte_range.
  destruct c as [[] [] [] [] [] [] [] []]; vm_compute; reflexivity.
Qed.

Lemma encode_range (s : string) : Forall byte_range (TextEncoder.encode s).
Proof.
  induction s as [|c r IH]; simpl; [constructor|].
  apply Forall_app. split; [apply encode_unit_range | exact IH].
Qed.

Lemma be_bytes_range (n : nat) (x : Z) : Forall byte_range (SHA256.be_bytes n x).
Proof.
  induction n as [|k IH]; simpl; constructor; [apply land_255_range | exact IH].
Qed.

Lemma digest_range (msg : list Z) : Forall byte_range (SHA256.digest msg).
Proof.
  unfold SHA256.digest.
  generalize (fold_left SHA256.compress
    (SHA256.blocks (List.length (SHA256.pad msg)) (SHA256.pad msg)) SHA256.H0).
  intros ws. induction ws as [|w r IH]; [constructor|].
  change (Forall byte_range
            (SHA256.be_bytes 4 w ++ concat (map (SHA256.be_bytes 4) r))).
  apply Forall_app. split; [apply be_bytes_range | exact IH].
Qed.

Lemma hmac_range (key data : list Z) : Forall byte_range (HMAC.sha256 key data).
Proof. apply digest_range. Qed.

Lemma encode_ascii (s : string) :
  Str.all is_ascii s = true -> TextEncoder.encode s = ascii_bytes s.
Proof.
  induction s as [|c r IH]; simpl; [reflexivity|].
  intros [Hc Hr]%andb_true_iff.
  unfold TextEncoder.encode_unit. unfold is_ascii in Hc. rewrite Hc.
  simpl. unfold ascii_bytes in IH. simpl. by rewrite IH.
Qed.

(* ================================================================== *)
(** ** Base64: the replacements of [base64UrlEncodeBytes] give base64url *)
(* ================================================================== *)

Section Digits.

(** A property of every character of an alphabet, and of the default
    digit, holds of every digit. *)
Lemma digit_forall (p : ascii -> bool) (abc : string) :
  forallb p (Str.to_list abc) = true -> p "A"%char = true ->
  forall i, p (Base64.digit abc i) = true.
Proof.
  intros Hall Hd i. unfold Base64.digit.
  destruct (nth_in_or_default (Z.to_nat i) (Str.to_list abc) "A"%char) as [Hin | ->].
  - rewrite forallb_forall in Hall. by apply Hall.
  - exact Hd.
Qed.

Lemma digit_forall2 (r : ascii -> ascii -> bool) (abc1 abc2 : string) :
  List.length (Str.to_list abc1) = List.length (Str.to_list abc2) ->
  forallb (fun p => r (fst p) (snd p))
          (combine (Str.to_list abc1) (Str.to_list abc2)) = true ->
  r "A"%char "A"%char = true ->
  forall i, r (Base64.digit abc1 i) (Base64.digit abc2 i) = true.
Proof.
  intros Hlen Hall Hd i. unfold Base64.digit.
  pose proof (combine_nth (Str.to_list abc1) (Str.to_list abc2)
                (Z.to_nat i) "A"%char "A"%char Hlen) as Hc.
  destruct (nth_in_or_default (Z.to_nat i)
              (combine (Str.to_list abc1) (Str.to_list abc2))
              ("A"%char, "A"%char)) as [Hin | Hdef].
  - rewrite forallb_forall in Hall. specialize (Hall _ Hin).
    rewrite Hc in Hall. exact Hall.
  - rewrite Hc in Hdef. injection Hdef as -> ->. exact Hd.
Qed.

End Digits.

Lemma replace_all_cons (c d x : ascii) (r : string) :
  Str.replace_all c d (String x r)
  = String (if Ascii.eqb x c then d else x) (Str.replace_all c d r).
Proof. reflexivity. Qed.

Lemma digit_url (i : Z) :
  url_unit (Base64.digit Base64.alphabet i) = Base64.digit Base64.alphabet_url i.
Proof.
  apply Ascii.eqb_eq.
  apply (digit_forall2 (fun a b => Ascii.eqb (url_unit a) b)); reflexivity.
Qed.

Lemma digit_url_not_pad (i : Z) :
  Ascii.eqb (Base64.digit Base64.alphabet_url i) "=" = false.
Proof.
  apply negb_true_iff.
  apply (digit_forall (fun a => negb (Ascii.eqb a "="))); reflexivity.
Qed.

Lemma digit_url_ascii (i : Z) : is_ascii (Base64.digit Base64.alphabet_url i) = true.
Proof. apply (digit_forall is_ascii); reflexivity. Qed.

Lemma strip_trailing_cons (c x : ascii) (r : string) :
  Ascii.eqb x c = false ->
  Str.strip_trailing c (String x r) = String x (Str.strip_trailing c r).
Proof.
  intros H. simpl. rewrite H. by destruct (Str.strip_trailing c r).
Qed.

(** Induction on a list of bytes three at a time. *)
Lemma list_ind3 {A} (P : list A -> Prop) :
  P [] -> (forall a, P [a]) -> (forall a b, P [a; b]) ->
  (forall a b c r, P r -> P (a :: b :: c :: r)) ->
  forall l, P l.
Proof.
  intros H0 H1 H2 H3.
  assert (H : forall l, P l /\ (forall a, P (a :: l)) /\ (forall a b, P (a :: b :: l))).
  { induction l as [|x l (IH0 & IH1 & IH2)]; [by auto|].
    split; [apply IH1|]. split; [intros a; apply IH2|]. intros a b. by apply H3. }
  intros l. apply H.
Qed.

(** The standard encoding followed by the three replacements is the
    base64url encoding without padding. *)
Lemma replaced_encode_is_url (bytes : list Z) :
  Str.strip_trailing "="
    (Str.replace_all "/" "_" (Str.replace_all "+" "-" (Base64.encode bytes)))
  = Base64.encode_url_nopad bytes.
Proof.
  induction bytes as [|a|a b|a b c r IH] using list_ind3.
  - reflexivity.
  - cbn [Base64.encode Base64.encode_url_nopad].
    rewrite !replace_all_cons.
    rewrite !(strip_trailing_cons "=")
      by (fold (url_unit (Base64.digit Base64.alphabet (Base64.sextet0 a)));
          fold (url_unit (Base64.digit Base64.alphabet (Base64.sextet1 a 0)));
          rewrite digit_url; apply digit_url_not_pad).
    fold (url_unit (Base64.digit Base64.alphabet (Base64.sextet0 a))).
    fold (url_unit (Base64.digit Base64.alphabet (Base64.sextet1 a 0))).
    rewrite !digit_url. reflexivity.
  - cbn [Base64.encode Base64.encode_url_nopad].
    rewrite !replace_all_cons.
    fold (url_unit (Base64.digit Base64.alphabet (Base64.sextet0 a))).
    fold (url_unit (Base64.digit Base64.alphabet (Base64.sextet1 a b))).
    fold (url_unit (Base64.digit Base64.alphabet (Base64.sextet2 b 0))).
    rewrite !digit_url.
    rewrite !(strip_trailing_cons "=") by apply digit_url_not_pad.
    reflexivity.
  - cbn [Base64.encode Base64.encode_url_nopad].
    rewrite !replace_all_cons.
    fold (url_unit (Base64.digit Base64.alphabet (Base64.sextet0 a))).
    fold (url_unit (Base64.digit Base64.alphabet (Base64.sextet1 a b))).
    fold (url_unit (Base64.digit Base64.alphabet (Base64.sextet2 b c))).
    fold (url_unit (Base64.digit Base64.alphabet (Base64.sextet3 c))).
    rewrite !digit_url.
    rewrite !(strip_trailing_cons "=") by apply digit_url_not_pad.
    rewrite IH. reflexivity.
Qed.

Lemma encode_url_nopad_all (p : ascii -> bool) (bytes : list Z) :
  (forall i, p (Base64.digit Base64.alphabet_url i) = true) ->
  Str.all p (Base64.encode_url_nopad bytes) = true.
Proof.
  intros Hp.
  induction bytes as [|a|a b|a b c r IH] using list_ind3;
    cbn [Base64.encode_url_nopad Str.all]; rewrite ?Hp, ?IH; reflexivity.
Qed.

(* ================================================================== *)
(** ** [toBase64] and [base64UrlEncodeBytes] *)
(* ================================================================== *)

Lemma fromCharCodes_eq (bytes : list Z) :
  fromCharCodes bytes = Str.of_list (map Str.chr bytes).
Proof.
  unfold fromCharCodes.
  assert (H : forall acc,
    fold_left (fun binary b => binary +:+ String (Str.chr b) "") bytes acc
    = acc +:+ Str.of_list (map Str.chr bytes)).
  { induction bytes as [|b r IH]; intros acc; simpl.
    - by rewrite sapp_nil_r.
    - rewrite IH, sapp_assoc. reflexivity. }
  apply H.
Qed.

Lemma btoa_fromCharCodes (bytes : list Z) :
  Forall byte_range bytes -> btoa (fromCharCodes bytes) = Base64.encode bytes.
Proof.
  intros Hr. unfold btoa. rewrite fromCharCodes_eq.
  unfold Str.to_list, Str.of_list.
  rewrite list_ascii_of_string_of_list_ascii, map_map.
  f_equal. induction Hr as [|b r Hb _ IH]; simpl; [reflexivity|].
  by rewrite code_chr, IH.
Qed.

Lemma toBase64_ok (host : Host) (bytes : list Z) :
  Forall byte_range bytes -> can_encode host = true ->
  toBase64 host bytes = Ok (Base64.encode bytes).
Proof.
  intros Hr Hc. unfold toBase64, can_encode in *.
  destruct (has_Buffer host); [reflexivity|].
  simpl in Hc. rewrite Hc. simpl. by rewrite btoa_fromCharCodes.
Qed.

Lemma toBase64_throws (host : Host) (bytes : list Z) :
  can_encode host = false ->
  toBase64 host bytes
  = Throw (ThrowError (Error_ "btoa is not available in this environment")).
Proof.
  unfold toBase64, can_encode.
  intros [-> ->]%orb_false_iff. reflexivity.
Qed.

Lemma base64UrlEncodeBytes_ok (host : Host) (bytes : list Z) :
  Forall byte_range bytes -> can_encode host = true ->
  base64UrlEncodeBytes host bytes = Ok (Base64.encode_url_nopad bytes).
Proof.
  intros Hr Hc. unfold base64UrlEncodeBytes.
  rewrite toBase64_ok by assumption.
  cbn. by rewrite replaced_encode_is_url.
Qed.

Lemma base64UrlEncodeString_ok (host : Host) (s : string) :
  can_encode host = true ->
  base64UrlEncodeString host s
  = Ok (Base64.encode_url_nopad (TextEncoder.encode s)).
Proof.
  intros Hc. apply base64UrlEncodeBytes_ok; [apply encode_range | exact Hc].
Qed.

Lemma encode_nil (s : string) : TextEncoder.encode s = [] -> s = "".
Proof.
  destruct s as [|c r]; [reflexivity|]. simpl.
  unfold TextEncoder.encode_unit. by destruct (Str.code c <? 128).
Qed.

(* ================================================================== *)
(** ** The signer *)
(* ================================================================== *)

Lemma signing_input_ascii (host : Host) (claims : obj) :
  Str.all is_ascii (JwtSpec.signing_input host claims) = true.
Proof.
  unfold JwtSpec.signing_input, JwtSpec.encoded_header, JwtSpec.encoded_claims,
    JwtSpec.base64url.
  rewrite !all_app, !encode_url_nopad_all by apply digit_url_ascii.
  reflexivity.
Qed.

Lemma signJwt_ok (host : Host) (payload : obj) (secret : string) :
  can_sign host secret = true ->
  signJwt host payload secret = Ok (JwtSpec.token host payload secret).
Proof.
  unfold can_sign. intros [[Hc Hs]%andb_true_iff Hk%negb_true_iff]%andb_true_iff.
  apply String.eqb_neq in Hk.
  unfold signJwt. rewrite !base64UrlEncodeString_ok by exact Hc. cbn.
  unfold hmacSha256, getSubtleCrypto. rewrite Hs. cbn.
  destruct (TextEncoder.encode secret) as [|k0 kr] eqn:Ek.
  { by apply encode_nil in Ek. }
  cbn. rewrite base64UrlEncodeBytes_ok by (try apply hmac_range; exact Hc).
  cbn. f_equal.
  unfold JwtSpec.token, JwtSpec.signature, SubtleCrypto.sign. cbn.
  rewrite Ek.
  change (Base64.encode_url_nopad
            (TextEncoder.encode (JSON.stringify host jwt_header)) +:+ "." +:+
          Base64.encode_url_nopad
            (TextEncoder.encode (JSON.stringify host payload)))
    with (JwtSpec.signing_input host payload).
  rewrite (encode_ascii _ (signing_input_ascii host payload)).
  unfold JwtSpec.signing_input. rewrite !sapp_assoc. reflexivity.
Qed.

Lemma signJwt_throws (host : Host) (payload : obj) (secret : string) :
  can_sign host secret = false ->
  exists e, signJwt host payload secret = Throw (ThrowError e).
Proof.
  unfold can_sign. intros H.
  destruct (can_encode host) eqn:Hc.
  - unfold signJwt. rewrite !base64UrlEncodeString_ok by exact Hc. cbn.
    unfold hmacSha256, getSubtleCrypto.
    destruct (has_subtle host) eqn:Hs; cbn; [|eauto].
    simpl in H. apply negb_false_iff, String.eqb_eq in H. subst secret.
    cbn. eauto.
  - unfold signJwt, base64UrlEncodeString, base64UrlEncodeBytes.
    rewrite !toBase64_throws by exact Hc. cbn. eauto.
Qed.

(* ================================================================== *)
(** ** Running the client *)
(* ================================================================== *)

Lemma bind_run {A B} (m : M A) (f : A -> M B) (st : State) :
  (m ≫= f) st
  = match m st with
    | (Ok a, st') => f a st'
    | (Throw t, st') => (Throw t, st')
    end.
Proof. reflexivity. Qed.

Lemma alloc_run (o : obj) (st : State) :
  Eff.alloc o st = (Ok (fresh_loc st), st_with st (fresh_loc st) o).
Proof. reflexivity. Qed.

Lemma read_with (st : State) (l : loc) (o : obj) :
  Eff.read l (st_with st l o) = (Ok o, st_with st l o).
Proof.
  unfold Eff.read, st_with. cbn. by rewrite lookup_insert_eq.
Qed.

Lemma write_with (st : State) (l : loc) (o : obj) (k : string) (v : value) :
  Eff.write l k v (st_with st l o) = (Ok tt, st_with st l (Obj.set o k v)).
Proof.
  unfold Eff.write, st_with. cbn.
  by rewrite lookup_insert_eq, insert_insert_eq.
Qed.

Section Run.

Variable host : Host.
Variable config : Config.Configuration.

Lemma validatePayload_run (st : State) (l : loc) (o : obj) :
  Client.validatePayload host l (st_with st l o)
  = (match Claims.validate host o with
     | Ok _ => Ok tt
     | Throw t => Throw t
     end, st_with st l o).
Proof.
  unfold Client.validatePayload, Claims.validate.
  rewrite bind_run, read_with.
  repeat (match goal with |- context [if ?b then _ else _] => destruct b end;
          try reflexivity).
Qed.

Lemma iat_step (l : loc) (iat : option IatInput) (st : State) (o : obj) :
  match iat with
  | Some i => Eff.write l "iat" (VNum (normalizeIat i))
  | None => mret tt
  end (st_with st l o)
  = (Ok tt, st_with st l (Claims.with_iat o iat)).
Proof. destruct iat; [apply write_with | reflexivity]. Qed.

Lemma iss_step (l : loc) (st : State) (o : obj) :
  (if nullish (Obj.get o "iss") then
     d ← Client.domain config; Eff.write l "iss" (VStr d)
   else mret tt) (st_with st l o)
  = match Claims.with_iss config o with
    | Ok o' => (Ok tt, st_with st l o')
    | Throw t => (Throw t, st_with st l o)
    end.
Proof.
  unfold Claims.with_iss, Client.domain.
  destruct (nullish (Obj.get o "iss")); [|reflexivity].
  destruct (Config.domain config) as [d|]; [|reflexivity].
  rewrite bind_run. cbn. apply write_with.
Qed.

Lemma sub_step (l : loc) (st : State) (o : obj) :
  (if nullish (Obj.get o "sub") then
     k ← Client.apiKeyPrefix config; Eff.write l "sub" (VStr k)
   else mret tt) (st_with st l o)
  = match Claims.with_sub config o with
    | Ok o' => (Ok tt, st_with st l o')
    | Throw t => (Throw t, st_with st l o)
    end.
Proof.
  unfold Claims.with_sub, Client.apiKeyPrefix, Client.apiKey.
  destruct (nullish (Obj.get o "sub")); [|reflexivity].
  destruct (Config.apiKey config) as [k|]; [|reflexivity].
  rewrite !bind_run. cbn. apply write_with.
Qed.

(** [buildPayload] allocates one object, at the next fresh reference, and
    writes nowhere else; its result is that of [Claims.payload_of]. *)
Lemma buildPayload_run (params : loc) (iat : option IatInput) (st : State) :
  exists o',
    Client.buildPayload host config params iat st
    = (match Claims.payload_of host config (lookup_obj st params) iat with
       | Ok _ => Ok (fresh_loc st)
       | Throw t => Throw t
       end, st_with st (fresh_loc st) o')
    /\ forall o, Claims.payload_of host config (lookup_obj st params) iat = Ok o -> o' = o.
Proof.
  unfold Client.buildPayload, Claims.payload_of.
  rewrite bind_run. unfold Eff.read at 1. cbn [store].
  fold (lookup_obj st params). set (p := lookup_obj st params).
  rewrite bind_run, alloc_run. set (l := fresh_loc st).
  rewrite bind_run, iat_step. set (o1 := Claims.with_iat p iat).
  rewrite bind_run, read_with, bind_run, iss_step.
  destruct (Claims.with_iss config o1) as [o2|t] eqn:E2; cbn.
  2: { exists o1. split; [reflexivity | discriminate]. }
  rewrite bind_run, read_with, bind_run, sub_step.
  destruct (Claims.with_sub config o2) as [o3|t] eqn:E3; cbn.
  2: { exists o2. split; [reflexivity | discriminate]. }
  rewrite bind_run, validatePayload_run.
  exists o3. destruct (Claims.validate host o3) as [o4|t] eqn:E4; cbn.
  - split; [reflexivity|]. intros o [= <-].
    unfold Claims.validate in E4.
    repeat match type of E4 with
           | (if ?b then _ else _) = _ => destruct b; try discriminate
           end.
    by injection E4.
  - split; [reflexivity | discriminate].
Qed.

Lemma buildUrl_run (params : loc) (iat : option IatInput) (st : State) :
  exists o',
    Client.buildUrl host config params iat st
    = (Claims.payload_of host config (lookup_obj st params) iat
         ≫= Claims.url_of host config,
       st_with st (fresh_loc st) o')
    /\ forall o, Claims.payload_of host config (lookup_obj st params) iat = Ok o -> o' = o.
Proof.
  destruct (buildPayload_run params iat st) as (o' & Hrun & Ho).
  exists o'. split; [|exact Ho].
  unfold Client.buildUrl. rewrite bind_run, Hrun.
  destruct (Claims.payload_of host config (lookup_obj st params) iat)
    as [o|t] eqn:E; [|reflexivity].
  rewrite (Ho o eq_refl). cbn.
  unfold Claims.url_of, Client.apiKey.
  destruct (Config.apiKey config) as [secret|]; [|reflexivity].
  rewrite bind_run. cbn. rewrite bind_run, read_with, bind_run.
  unfold Eff.lift at 1.
  destruct (signJwt host o secret) as [token|t]; [|reflexivity].
  cbn. rewrite bind_run. unfold Eff.lift.
  destruct (URLM.new_ host ENDPOINT_PATH (Config.baseUrl config)); reflexivity.
Qed.

(** [request] leaves the store alone and logs the host calls of
    [Claims.events_of]. *)
Lemma request_run (url : URL) (json : bool) (headers : list (string * string))
    (st : State) :
  Client.request host config url json headers st
  = match Client.fetchImpl host config with
    | None =>
        (Throw (ThrowError (ConfigurationError
           "Fetch API is not available; provide a fetch implementation in the configuration.")),
         st)
    | Some f =>
        match Client.requestHeaders json headers with
        | Throw t => (Throw t, st)
        | Ok hs =>
            (Claims.settle (f (URLM.toString url) (Claims.init_of config hs)),
             st_log st (Claims.events_of config url hs))
        end
    end.
Proof.
  unfold Client.request.
  destruct (Client.fetchImpl host config) as [f|]; [|reflexivity].
  rewrite bind_run. unfold Eff.lift at 1.
  destruct (Client.requestHeaders json headers) as [hs|t]; [|reflexivity].
  unfold Claims.events_of, Claims.init_of, st_log.
  destruct st as [sto lg].
  destruct (Client.armed (Client.totalTimeoutMs config)) as [t|] eqn:Ea;
    rewrite bind_run; cbn;
    unfold Eff.finally, Eff.try_catch, Client.attempt; rewrite bind_run; cbn;
    destruct (f (URLM.toString url) _) as [r|[e|v]]; cbn;
    repeat (match goal with |- context [if ?b then _ else _] => destruct b end; cbn);
    rewrite <- ?app_assoc; reflexivity.
Qed.

(** One run of [createImage]: the payload is built in a fresh object, the
    URL is signed, the transport is called once, the answer is settled. *)
Lemma createImage_run (params : option loc) (options : CreateImageOptions)
    (st : State) :
  let json := default false (o_json options) in
  let headers := default [] (o_headers options) in
  let l0 := fst (entry params st) in
  let st0 := snd (entry params st) in
  exists o',
    let st1 := st_with st0 (fresh_loc st0) o' in
    (forall o, Claims.payload_of host config (lookup_obj st0 l0) (o_iat options) = Ok o
               -> o' = o)
    /\ Client.createImage host config params options st
       = match Claims.payload_of host config (lookup_obj st0 l0) (o_iat options)
                 ≫= Claims.url_of host config with
         | Throw t => (Throw t, st1)
         | Ok url =>
             match Client.fetchImpl host config with
             | None =>
                 (Throw (ThrowError (ConfigurationError
                    "Fetch API is not available; provide a fetch implementation in the configuration.")),
                  st1)
             | Some f =>
                 match Client.requestHeaders json headers with
                 | Throw t => (Throw t, st1)
                 | Ok hs =>
                     (Claims.settle (f (URLM.toString url) (Claims.init_of config hs))
                        ≫= Claims.returned_of json url,
                      st_log st1 (Claims.events_of config url hs))
                 end
             end
         end.
Proof.
  intros json headers l0 st0.
  destruct (buildUrl_run l0 (o_iat options) st0) as (o' & Hrun & Ho).
  exists o'. split; [exact Ho|].
  unfold Client.createImage. rewrite bind_run.
  assert (He : match params with
               | Some l => mret l
               | None => Eff.alloc []
               end st = (Ok l0, st0)).
  { subst l0 st0. by destruct params. }
  rewrite He, bind_run, Hrun.
  destruct (Claims.payload_of host config (lookup_obj st0 l0) (o_iat options)
              ≫= Claims.url_of host config) as [url|t]; [|reflexivity].
  rewrite bind_run, request_run.
  fold json headers.
  destruct (Client.fetchImpl host config) as [f|]; [|reflexivity].
  destruct (Client.requestHeaders json headers) as [hs|t]; [|reflexivity].
  destruct (Claims.settle _) as [r|t]; [|reflexivity].
  cbn. unfold Claims.returned_of.
  destruct json; [|reflexivity].
  rewrite bind_run. unfold Eff.lift. by destruct (resp_text r).
Qed.

End Run.

(* ================================================================== *)
(** ** [normalizeIat] *)
(* ================================================================== *)

Lemma Qltb_true (a b : Q) : Num.Qltb a b = true <-> (a < b)%Q.
Proof.
  unfold Num.Qltb. rewrite negb_true_iff.
  split.
  - intros H. apply Qnot_le_lt. intros Hle.
    apply Qle_bool_iff in Hle. congruence.
  - intros H. destruct (Qle_bool b a) eqn:E; [|reflexivity].
    apply Qle_bool_iff in E. exfalso. by apply (Qlt_not_le a b).
Qed.

Lemma Qltb_false (a b : Q) : Num.Qltb a b = false <-> (b <= a)%Q.
Proof.
  unfold Num.Qltb. rewrite negb_false_iff. apply Qle_bool_iff.
Qed.

Lemma round_half_even_cases (a b : Z) :
  (Num.round_half_even a b = a / b /\ 2 * (a mod b) <= b)
  \/ (Num.round_half_even a b = a / b + 1 /\ b <= 2 * (a mod b)).
Proof.
  unfold Num.round_half_even.
  destruct (2 * (a mod b) <? b) eqn:E1; [left; split; [reflexivity|lia]|].
  destruct (b <? 2 * (a mod b)) eqn:E2; [right; split; [reflexivity|lia]|].
  destruct (Z.even (a / b)); [left | right]; split; try reflexivity; lia.
Qed.

(** Rounding [a / 1000] at a spacing of [1 / P], for [P] from 512 on, stays
    within the whole numbers around [a / 1000]. *)
Lemma round_scaled_1000 (a P : Z) :
  0 <= a -> 512 <= P ->
  let m := Num.round_half_even (a * P) 1000 in
  (a / 1000) * P <= m < (a / 1000 + 1) * P
  /\ (a mod 1000 = 0 -> m = (a / 1000) * P)
  /\ (0 < a mod 1000 -> (a / 1000) * P < m).
Proof.
  intros Ha HP m.
  pose proof (Z.div_mod a 1000 ltac:(lia)) as Ea.
  pose proof (Z.mod_pos_bound a 1000 ltac:(lia)) as Hs.
  pose proof (Z.div_mod (a * P) 1000 ltac:(lia)) as Em.
  pose proof (Z.mod_pos_bound (a * P) 1000 ltac:(lia)) as Hr.
  set (K := a / 1000) in *. set (s := a mod 1000) in *.
  set (k := a * P / 1000) in *. set (r := (a * P) mod 1000) in *.
  assert (EP : a * P = 1000 * (K * P) + s * P) by (rewrite Ea at 1; ring).
  assert (HsP : 0 <= s * P <= 999 * P) by nia.
  destruct (round_half_even_cases (a * P) 1000) as [[Hm Hc]|[Hm Hc]];
    fold m k r in Hm, Hc; rewrite Hm.
  - split; [lia|].
    split; intros H0;
      [assert (s * P = 0) by (rewrite H0; ring) | assert (P <= s * P) by nia]; lia.
  - split; [lia|].
    split; intros H0;
      [assert (s * P = 0) by (rewrite H0; ring) | assert (P <= s * P) by nia]; lia.
Qed.

Lemma binade_1000 (a : Z) :
  0 < a <= 2 ^ 53 -> Num.binade (a # 1000) <= 43.
Proof.
  intros Ha. unfold Num.binade. cbn [Qnum Qden].
  destruct (1000 <=? a) eqn:E.
  - apply Z.leb_le in E.
    assert (H1 : 0 < a / 1000) by (apply Z.div_str_pos; lia).
    assert (H2 : a / 1000 < 2 ^ 44).
    { apply Z.div_lt_upper_bound; [lia|].
      change (2 ^ 53) with 9007199254740992 in Ha.
      change (2 ^ 44) with 17592186044416. lia. }
    apply (Z.log2_lt_pow2 _ _ H1) in H2. lia.
  - pose proof (Z.log2_up_nonneg ((1000 + a - 1) / a)). lia.
Qed.

Lemma round64_pos_1000 (a : Z) :
  0 < a <= 2 ^ 53 ->
  exists m P,
    0 < P
    /\ Num.round64_pos (a # 1000) = Fin (m # Z.to_pos P)
    /\ (a / 1000) * P <= m < (a / 1000 + 1) * P
    /\ (a mod 1000 = 0 -> m = (a / 1000) * P)
    /\ (0 < a mod 1000 -> (a / 1000) * P < m).
Proof.
  intros Ha. pose proof (binade_1000 a Ha) as Hb.
  unfold Num.round64_pos.
  set (u := Z.max (Num.binade (a # 1000)) (-1022) - 52).
  assert (Hu : -1074 <= u <= -9) by lia.
  assert (E : (0 <=? u) = false) by (apply Z.leb_gt; lia).
  rewrite E. cbn [Qnum Qden].
  set (P := 2 ^ (- u)).
  assert (HP : 512 <= P).
  { change 512 with (2 ^ 9). apply Z.pow_le_mono_r; lia. }
  destruct (round_scaled_1000 a P ltac:(lia) HP) as (Hm & Hz & Hnz).
  set (m := Num.round_half_even (a * P) 1000) in *.
  exists m, P. split; [lia|]. split; [|done].
  assert (Hk : a / 1000 + 1 <= 2 ^ 53).
  { assert (a / 1000 < a) by (apply Z.div_lt; lia). lia. }
  assert (HB : 2 ^ 53 <= 2 ^ 1024) by (apply Z.pow_le_mono_r; lia).
  destruct (Qle_bool _ _) eqn:Eo; [|reflexivity].
  exfalso. apply Qle_bool_iff in Eo. unfold Qle in Eo.
  cbn [Qnum Qden inject_Z] in Eo. rewrite Z2Pos.id in Eo by lia.
  remember (2 ^ 1024) as B. remember (2 ^ 53) as C. nia.
Qed.

Lemma Qdiv_1000 (ms : Z) : (inject_Z ms / 1000)%Q = ms # 1000.
Proof. unfold Qdiv, Qmult, Qinv, inject_Z. cbn. by rewrite Z.mul_1_r. Qed.

(** On whole numbers up to [2^53] in magnitude, the floor of the rounded
    quotient by 1000 is the floor of the quotient. *)
Lemma floor_div_1000 (ms : Z) :
  - 2 ^ 53 <= ms <= 2 ^ 53 ->
  Num.floor (Num.div_pos (Num.of_Z ms) 1000) = Num.of_Z (ms / 1000).
Proof.
  intros Hms. unfold Num.of_Z at 1, Num.div_pos. rewrite Qdiv_1000.
  unfold Num.round64. cbn [Qnum].
  destruct ms as [|p|p].
  - reflexivity.
  - destruct (round64_pos_1000 (Z.pos p) ltac:(lia)) as (m & P & HP & -> & Hm & _).
    unfold Num.floor, Qfloor. cbn [Qnum Qden]. rewrite Z2Pos.id by lia.
    apply (f_equal Num.of_Z). symmetry.
    apply (Z.div_unique m P _ (m - Z.pos p / 1000 * P)); lia.
  - change (- (Z.neg p # 1000))%Q with (Z.pos p # 1000).
    destruct (round64_pos_1000 (Z.pos p) ltac:(lia)) as (m & P & HP & -> & Hm & Hz & Hnz).
    unfold Num.neg, Num.floor, Qfloor, Qopp. cbn [Qnum Qden].
    rewrite Z2Pos.id by lia.
    apply (f_equal Num.of_Z).
    pose proof (Z.div_mod (Z.pos p) 1000 ltac:(lia)) as Ea.
    pose proof (Z.mod_pos_bound (Z.pos p) 1000 ltac:(lia)) as Hs.
    set (K := Z.pos p / 1000) in *. set (s := Z.pos p mod 1000) in *.
    change (Z.neg p) with (- Z.pos p).
    destruct (Z.eq_dec s 0) as [H0|H0].
    + rewrite (Hz H0).
      transitivity (- K).
      * symmetry. apply (Z.div_unique _ P _ 0); lia.
      * apply (Z.div_unique _ 1000 _ 0); lia.
    + specialize (Hnz ltac:(lia)).
      transitivity (- (K + 1)).
      * symmetry. apply (Z.div_unique _ P _ ((K + 1) * P - m)); lia.
      * apply (Z.div_unique _ 1000 _ (1000 - s)); lia.
Qed.




(* ================================================================== *)
(** ** The deadline of a request *)
(* ================================================================== *)

Lemma gt_zero_truthy (t : number) :
  Num.gt t (Num.of_Z 0) = true -> Num.truthy t = true.
Proof.
  destruct t as [|s|q]; cbn; try done.
  intros H%Qltb_true. apply negb_true_iff.
  destruct (Qeq_bool q 0) eqn:E; [|reflexivity].
  apply Qeq_bool_iff in E. rewrite E in H. by apply Qlt_irrefl in H.
Qed.

Lemma armed_spec (total : option number) :
  Client.armed total
  = match total with
    | Some t => if Num.gt t (Num.of_Z 0) then Some t else None
    | None => None
    end.
Proof.
  destruct total as [t|]; [|reflexivity]. unfold Client.armed.
  destruct (Num.gt t (Num.of_Z 0)) eqn:E.
  - by rewrite (gt_zero_truthy t E).
  - by rewrite andb_false_r.
Qed.

(** C3, as the code has it.  The combined deadline is open-timeout plus
    read-timeout, an absent component counting as 0, and it is undefined
    exactly when both are absent.  The abort timer is armed exactly when the
    combined deadline is defined and strictly positive: then the transport
    gets a signal that aborts after that delay, and the timer is cleared on
    exit; otherwise (both absent, or a sum that is zero, negative or NaN)
    the transport is called with no timer armed. *)
Theorem request_deadline (host : Host) (config : Config.Configuration)
    (url : URL) (json : bool) (headers : list (string * string)) (st : State)
    (f : Transport) (hs : Headers) :
  Client.fetchImpl host config = Some f ->
  Client.requestHeaders json headers = Ok hs ->
  let total := Client.totalTimeoutMs config in
  let log' := log (snd (Client.request host config url json headers st)) in
  let call deadline :=
    EvFetch (URLM.toString url) (mkInit "GET" hs "manual" (mkSignal deadline)) in
  (total = None <->
     Config.openTimeoutMs config = None /\ Config.readTimeoutMs config = None)
  /\ (forall a b, Config.openTimeoutMs config = Some a ->
                  Config.readTimeoutMs config = Some b ->
                  total = Some (Num.add a b))
  /\ (forall a, Config.openTimeoutMs config = Some a ->
                Config.readTimeoutMs config = None ->
                total = Some (Num.add a (Num.of_Z 0)))
  /\ (forall b, Config.openTimeoutMs config = None ->
                Config.readTimeoutMs config = Some b ->
                total = Some (Num.add (Num.of_Z 0) b))
  /\ (forall t, total = Some t -> Num.gt t (Num.of_Z 0) = true ->
        log' = log st ++ [EvSetTimeout t; call (Some t); EvClearTimeout])
  /\ (total = None \/ (exists t, total = Some t /\ Num.gt t (Num.of_Z 0) = false) ->
        log' = log st ++ [call None]).
Proof.
  intros Hf Hh total log' call.
  assert (Hlog : log' = log st ++
            match total with
            | Some t =>
                if Num.gt t (Num.of_Z 0)
                then [EvSetTimeout t; call (Some t); EvClearTimeout]
                else [call None]
            | None => [call None]
            end).
  { subst log'. rewrite request_run, Hf, Hh. cbn [snd st_log log].
    unfold Claims.events_of, Claims.init_of. rewrite armed_spec. fold total.
    destruct total as [t|]; [destruct (Num.gt t _)|]; reflexivity. }
  clearbody log'. subst log'. subst total. unfold Client.totalTimeoutMs.
  split; [|split; [|split; [|split; [|split]]]].
  - destruct (Config.openTimeoutMs config), (Config.readTimeoutMs config);
      split; try done; intros [? ?]; done.
  - by intros a b -> ->.
  - by intros a -> ->.
  - by intros b -> ->.
  - intros t -> Ht. by rewrite Ht.
  - intros [-> | (t & -> & Ht)]; [reflexivity | by rewrite Ht].
Qed.

Lemma request_deadline_witness :
  let config := Example.config_with (Example.answers Example.redirect_302) in
  let url := mkURL "https" "ogpilot.com" ENDPOINT_PATH [("token", "t")] in
  log (snd (Client.request Example.node config url false [] Example.empty))
  = [EvSetTimeout (Num.add (Num.of_Z 5000) (Num.of_Z 10000));
     EvFetch (URLM.toString url)
       (mkInit "GET" [] "manual"
          (mkSignal (Some (Num.add (Num.of_Z 5000) (Num.of_Z 10000)))));
     EvClearTimeout].
Proof.
  intros config url.
  pose proof (request_deadline Example.node config url false [] Example.empty
                (Example.answers Example.redirect_302) []
                eq_refl eq_refl) as (_ & Hsum & _ & _ & Harmed & _).
  apply (Harmed _ (Hsum _ _ eq_refl eq_refl)). reflexivity.
Defined.

(** With both components present and zero, no timer is armed: presence of a
    component does not by itself apply a deadline. *)
Lemma request_deadline_zero_counterexample :
  let config :=
    Config.mkConfiguration (Some "sk_test_0123456789") (Some "example.com")
      Config.DEFAULT_BASE_URL (Some (Num.of_Z 0)) (Some (Num.of_Z 0))
      (Some (Example.answers Example.redirect_302)) true in
  let url := mkURL "https" "ogpilot.com" ENDPOINT_PATH [("token", "t")] in
  Config.openTimeoutMs config <> None
  /\ Config.readTimeoutMs config <> None
  /\ log (snd (Client.request Example.node config url false [] Example.empty))
     = [EvFetch (URLM.toString url) (mkInit "GET" [] "manual" (mkSignal None))].
Proof. repeat split; try discriminate. Qed.

(* ================================================================== *)
(** ** Classification of the transport's answer *)
(* ================================================================== *)

Lemma contains_middle (pre sub post : string) : contains (pre +:+ sub +:+ post) sub.
Proof. by exists pre, post. Qed.

Lemma contains_end (pre sub : string) : contains (pre +:+ sub) sub.
Proof. exists pre, "". by rewrite sapp_nil_r. Qed.

(** C6. Whatever the transport answers, [request] fails with a
    [RequestError] or returns the response.  A status of 400 or more gives
    a [RequestError] carrying the status, whose message contains the status
    and the body text, the body being empty when reading it fails, and that
    error is the one [request] throws, not a wrapped one.  A rejection with
    a [RequestError] is thrown again as it is; a rejection named AbortError
    gives the timed-out message; any other rejection gives a
    [RequestError]. *)
Theorem request_classifies (host : Host) (config : Config.Configuration)
    (url : URL) (json : bool) (headers : list (string * string)) (st : State)
    (f : Transport) (hs : Headers) :
  Client.fetchImpl host config = Some f ->
  Client.requestHeaders json headers = Ok hs ->
  let init := mkInit "GET" hs "manual"
                (mkSignal (Client.armed (Client.totalTimeoutMs config))) in
  let result := fst (Client.request host config url json headers st) in
  match f (URLM.toString url) init with
  | Resolved r =>
      if 400 <=? resp_status r then
        let body := match resp_text r with Ok b => b | Throw _ => "" end in
        exists message,
          result = Throw (ThrowError (RequestError message (Some (resp_status r))))
          /\ message = "OG Pilot request failed with status "
                       +:+ Str.of_Z (resp_status r) +:+ ": " +:+ body
          /\ contains message (Str.of_Z (resp_status r))
          /\ contains message body
      else result = Ok r
  | Rejected (ThrowError e) =>
      if instanceof_RequestError e then result = Throw (ThrowError e)
      else if String.eqb (err_name e) "AbortError" then
        result = Throw (ThrowError
          (RequestError ("OG Pilot request timed out: " +:+ err_message e) None))
      else
        result = Throw (ThrowError
          (RequestError ("OG Pilot request failed: " +:+ err_message e) None))
  | Rejected (ThrowValue _) =>
      result = Throw (ThrowError (RequestError "OG Pilot request failed." None))
  end.
Proof.
  intros Hf Hh init result. subst result.
  rewrite request_run, Hf, Hh. cbn [fst].
  change (Claims.init_of config hs) with init.
  destruct (f (URLM.toString url) init) as [r|[e|v]]; cbn [Claims.settle].
  - destruct (400 <=? resp_status r); [|reflexivity].
    eexists. split; [reflexivity|]. split; [reflexivity|].
    unfold Client.status_message. split.
    + apply contains_middle.
    + rewrite !sapp_assoc_rev. apply contains_end.
  - destruct (instanceof_RequestError e); [reflexivity|].
    destruct (String.eqb (err_name e) "AbortError"); reflexivity.
  - reflexivity.
Qed.

Lemma request_classifies_witness :
  let url := mkURL "https" "ogpilot.com" ENDPOINT_PATH [("token", "t")] in
  fst (Client.request Example.node
         (Example.config_with (Example.answers Example.error_500))
         url false [] Example.empty)
  = Throw (ThrowError
      (RequestError "OG Pilot request failed with status 500: boom" (Some 500)))
  /\ fst (Client.request Example.node (Example.config_with Example.aborted)
            url false [] Example.empty)
     = Throw (ThrowError
         (RequestError "OG Pilot request timed out: This operation was aborted" None)).
Proof.
  intros url. split.
  - pose proof (request_classifies Example.node
                  (Example.config_with (Example.answers Example.error_500))
                  url false [] Example.empty
                  (Example.answers Example.error_500) [] eq_refl eq_refl) as H.
    vm_compute in H. destruct H as (m & Hr & Hm & _). subst m.
    vm_compute. exact Hr.
  - exact (request_classifies Example.node (Example.config_with Example.aborted)
             url false [] Example.empty Example.aborted [] eq_refl eq_refl).
Defined.

(* ================================================================== *)
(** ** The signed token *)
(* ================================================================== *)

(** C2. Where the signer can run (an encoder, Web Crypto and a non-empty
    secret), the token is the base64url encoding without padding of the
    serialized header, a dot, the base64url encoding without padding of the
    serialized claims, a dot, and the base64url encoding without padding of
    the HMAC-SHA256, keyed by the secret, of the ASCII string
    [<encoded-header>.<encoded-claims>]; anywhere else the signer throws and
    returns no token. *)
Theorem signJwt_token (host : Host) (claims : obj) (secret : string) :
  (can_sign host secret = true
   /\ signJwt host claims secret = Ok (JwtSpec.token host claims secret))
  \/ (can_sign host secret = false
      /\ exists e, signJwt host claims secret = Throw (ThrowError e)).
Proof.
  destruct (can_sign host secret) eqn:E.
  - left. split; [reflexivity | by apply signJwt_ok].
  - right. split; [reflexivity | by apply signJwt_throws].
Qed.

(** The token of the debugger at jwt.io, on both paths of [toBase64]. *)
Example signJwt_jwt_io :
  signJwt Example.node Example.jwt_io_claims Example.jwt_io_secret
  = Ok ("eyJhbGciOiJIUzI1NiIsInR5cCI6IkpXVCJ9"
        +:+ ".eyJzdWIiOiIxMjM0NTY3ODkwIiwibmFtZSI6IkpvaG4gRG9lIiwiaWF0IjoxNTE2MjM5MDIyfQ"
        +:+ ".SflKxwRJSMeKKF2QT4fwpMeJf36POk6yJV_adQssw5c")
  /\ signJwt Example.edge Example.jwt_io_claims Example.jwt_io_secret
     = signJwt Example.node Example.jwt_io_claims Example.jwt_io_secret.
Proof. split; vm_compute; reflexivity. Qed.

(* ================================================================== *)
(** ** Objects and the payload *)
(* ================================================================== *)

Lemma get_set_eq (o : obj) (k : string) (v : value) : Obj.get (Obj.set o k v) k = v.
Proof.
  induction o as [|[k' v'] r IH]; cbn.
  - by rewrite String.eqb_refl.
  - destruct (String.eqb k' k) eqn:E; cbn; rewrite E; [reflexivity | exact IH].
Qed.

Lemma get_set_ne (o : obj) (k k' : string) (v : value) :
  k <> k' -> Obj.get (Obj.set o k v) k' = Obj.get o k'.
Proof.
  intros Hne. induction o as [|[k0 v0] r IH]; cbn.
  - apply String.eqb_neq in Hne. by rewrite Hne.
  - destruct (String.eqb k0 k) eqn:E; cbn.
    + apply String.eqb_eq in E. subst k0.
      apply String.eqb_neq in Hne. by rewrite Hne.
    + by rewrite IH.
Qed.

Lemma get_with_iat (p : obj) (iat : option IatInput) (k : string) :
  k <> "iat" -> Obj.get (Claims.with_iat p iat) k = Obj.get p k.
Proof.
  intros Hk. destruct iat; [|reflexivity]. cbn. by apply get_set_ne.
Qed.

Section Payload.

Variable host : Host.
Variable config : Config.Configuration.

Lemma iss_claim_ext (p o : obj) :
  Obj.get o "iss" = Obj.get p "iss" -> iss_claim config o = iss_claim config p.
Proof. unfold iss_claim. by intros ->. Qed.

Lemma sub_claim_ext (p o : obj) :
  Obj.get o "sub" = Obj.get p "sub" -> sub_claim config o = sub_claim config p.
Proof. unfold sub_claim. by intros ->. Qed.

Lemma with_iss_cases (o : obj) :
  match Claims.with_iss config o with
  | Ok o' =>
      Obj.get o' "iss" = iss_claim config o
      /\ forall k, k <> "iss" -> Obj.get o' k = Obj.get o k
  | Throw t =>
      exists e, t = ThrowError e
                /\ instanceof_ConfigurationError e = true
                /\ blank host (iss_claim config o) = true
  end.
Proof.
  unfold Claims.with_iss, iss_claim.
  destruct (nullish (Obj.get o "iss")); [|done].
  destruct (Config.domain config) as [d|].
  - split; [apply get_set_eq|]. intros k Hk. by apply get_set_ne.
  - eexists. done.
Qed.

Lemma with_sub_cases (o : obj) :
  match Claims.with_sub config o with
  | Ok o' =>
      Obj.get o' "sub" = sub_claim config o
      /\ forall k, k <> "sub" -> Obj.get o' k = Obj.get o k
  | Throw t =>
      exists e, t = ThrowError e
                /\ instanceof_ConfigurationError e = true
                /\ blank host (sub_claim config o) = true
  end.
Proof.
  unfold Claims.with_sub, sub_claim.
  destruct (nullish (Obj.get o "sub")); [|done].
  destruct (Config.apiKey config) as [k|].
  - split; [apply get_set_eq|]. intros k' Hk. by apply get_set_ne.
  - eexists. done.
Qed.

Lemma validate_cases (o : obj) :
  match Claims.validate host o with
  | Ok o' =>
      o' = o
      /\ blank host (Obj.get o "iss") = false
      /\ blank host (Obj.get o "sub") = false
      /\ blank host (Obj.get o "title") = false
  | Throw t =>
      exists e, t = ThrowError e
        /\ if blank host (Obj.get o "iss") || blank host (Obj.get o "sub")
           then instanceof_ConfigurationError e = true
           else e = Error_ "OG Pilot title is required"
                /\ blank host (Obj.get o "title") = true
  end.
Proof.
  unfold Claims.validate.
  destruct (blank host (Obj.get o "iss")); [by eexists|].
  destruct (blank host (Obj.get o "sub")); [by eexists|].
  destruct (blank host (Obj.get o "title")); [by eexists|done].
Qed.

(** The payload as a function of params and configuration.  It is built
    when issuer, subject and title end up non-empty; a missing or empty
    issuer or subject is a [ConfigurationError], and after them a missing
    or empty title is the plain [Error] of the title. *)
Lemma payload_of_cases (p : obj) (iat : option IatInput) :
  match Claims.payload_of host config p iat with
  | Ok o =>
      Obj.get o "iss" = iss_claim config p
      /\ Obj.get o "sub" = sub_claim config p
      /\ Obj.get o "title" = Obj.get p "title"
      /\ blank host (iss_claim config p) = false
      /\ blank host (sub_claim config p) = false
      /\ blank host (Obj.get p "title") = false
  | Throw t =>
      exists e, t = ThrowError e
        /\ if blank host (iss_claim config p) || blank host (sub_claim config p)
           then instanceof_ConfigurationError e = true
           else e = Error_ "OG Pilot title is required"
                /\ blank host (Obj.get p "title") = true
  end.
Proof.
  unfold Claims.payload_of.
  set (o1 := Claims.with_iat p iat).
  assert (H1 : forall k, k <> "iat" -> Obj.get o1 k = Obj.get p k)
    by (intros; by apply get_with_iat).
  rewrite <- (iss_claim_ext p o1), <- (sub_claim_ext p o1) by by apply H1.
  rewrite <- (H1 "title") by done.
  clearbody o1. clear H1.
  pose proof (with_iss_cases o1) as Hi.
  destruct (Claims.with_iss config o1) as [o2|t]; cbn.
  2: { destruct Hi as (e & -> & He & Hb). exists e. by rewrite Hb. }
  destruct Hi as [Hi Hi'].
  rewrite <- (sub_claim_ext o1 o2), <- Hi, <- (Hi' "title")
    by first [done | by apply Hi'].
  clear Hi Hi'. clear o1.
  pose proof (with_sub_cases o2) as Hs.
  destruct (Claims.with_sub config o2) as [o3|t]; cbn.
  2: { destruct Hs as (e & -> & He & Hb). exists e. by rewrite Hb, orb_true_r. }
  destruct Hs as [Hs Hs'].
  rewrite <- Hs, <- (Hs' "iss"), <- (Hs' "title") by done.
  clear Hs Hs'. clear o2.
  pose proof (validate_cases o3) as Hv.
  destruct (Claims.validate host o3) as [o4|t]; [|exact Hv].
  destruct Hv as (-> & ? & ? & ?). done.
Qed.

End Payload.

(* ================================================================== *)
(** ** Defaults of the issuer and the subject *)
(* ================================================================== *)

Lemma lookup_st_with (st : State) (l : loc) (o : obj) :
  lookup_obj (st_with st l o) l = o.
Proof. unfold lookup_obj, st_with. cbn. by rewrite lookup_insert_eq. Qed.

Lemma blank_empty (host : Host) : blank host (VStr "") = true.
Proof. reflexivity. Qed.

(** C1, as the code has it.  When [buildPayload] builds the claims: an
    [iss] that params leave [undefined] or [null] is the configured domain,
    a [sub] that params leave [undefined] or [null] is the first 8
    characters of the configured key, and any other [iss] or [sub] of
    params is passed through; both end up non-empty.  An empty string is
    not defaulted: with [iss] or [sub] empty in params no claims are built
    and the call fails with a [ConfigurationError]. *)
Theorem buildPayload_defaults (host : Host) (config : Config.Configuration)
    (params : loc) (iat : option IatInput) (st : State) :
  let p := lookup_obj st params in
  let r := Client.buildPayload host config params iat st in
  (forall l, fst r = Ok l ->
     let o := lookup_obj (snd r) l in
     (nullish (Obj.get p "iss") = true ->
        exists d, Config.domain config = Some d /\ Obj.get o "iss" = VStr d)
     /\ (nullish (Obj.get p "iss") = false -> Obj.get o "iss" = Obj.get p "iss")
     /\ (nullish (Obj.get p "sub") = true ->
           exists k, Config.apiKey config = Some k
                     /\ Obj.get o "sub" = VStr (Str.slice0 8 k))
     /\ (nullish (Obj.get p "sub") = false -> Obj.get o "sub" = Obj.get p "sub")
     /\ blank host (Obj.get o "iss") = false
     /\ blank host (Obj.get o "sub") = false)
  /\ (Obj.get p "iss" = VStr "" \/ Obj.get p "sub" = VStr "" ->
        exists e, fst r = Throw (ThrowError e)
                  /\ instanceof_ConfigurationError e = true).
Proof.
  intros p r.
  destruct (buildPayload_run host config params iat st) as (o' & Hrun & Ho).
  fold p in Hrun, Ho. fold r in Hrun.
  pose proof (payload_of_cases host config p iat) as Hc.
  split.
  - intros l Hl o. subst o. rewrite Hrun in Hl |- *. cbn [fst snd] in *.
    destruct (Claims.payload_of host config p iat) as [o|t]; [|discriminate].
    injection Hl as <-. rewrite (Ho o eq_refl), lookup_st_with.
    destruct Hc as (Hi & Hs & _ & Hbi & Hbs & _).
    rewrite Hi, Hs. unfold iss_claim, sub_claim in *.
    repeat split; try assumption.
    + intros E. rewrite E in Hbi |- *.
      destruct (Config.domain config) as [d|]; [by exists d | discriminate].
    + by intros ->.
    + intros E. rewrite E in Hbs |- *.
      destruct (Config.apiKey config) as [k|]; [by exists k | discriminate].
    + by intros ->.
  - intros Hempty. rewrite Hrun. cbn [fst].
    assert (Hb : blank host (iss_claim config p) || blank host (sub_claim config p) = true).
    { unfold iss_claim, sub_claim.
      destruct Hempty as [-> | ->]; cbn; [reflexivity | apply orb_true_r]. }
    destruct (Claims.payload_of host config p iat) as [o|t].
    + destruct Hc as (_ & _ & _ & Hbi & Hbs & _). by rewrite Hbi, Hbs in Hb.
    + destruct Hc as (e & -> & He). rewrite Hb in He. by exists e.
Qed.

Lemma buildPayload_defaults_witness :
  let config := Example.config_with (Example.answers Example.redirect_302) in
  let st := Example.with_params [("title", VStr "x")] in
  let r := Client.buildPayload Example.node config 1%positive None st in
  Obj.get (lookup_obj (snd r) 2%positive) "iss" = VStr "example.com"
  /\ Obj.get (lookup_obj (snd r) 2%positive) "sub" = VStr "sk_test_".
Proof.
  intros config st r.
  destruct (proj1 (buildPayload_defaults Example.node config 1%positive None st)
              2%positive eq_refl) as (Hi & _ & Hs & _).
  destruct (Hi eq_refl) as (d & Hd & Hid).
  destruct (Hs eq_refl) as (k & Hk & Hsk).
  vm_compute in Hd, Hk. injection Hd as <-. injection Hk as <-.
  split; [exact Hid | exact Hsk].
Defined.

(** An empty [iss] in params is not replaced by the configured domain: the
    object that [buildPayload] allocates keeps the empty [iss], and the call
    fails. *)
Lemma empty_iss_counterexample :
  let config := Example.config_with (Example.answers Example.redirect_302) in
  let st := Example.with_params [("title", VStr "x"); ("iss", VStr "")] in
  let r := Client.buildPayload Example.node config 1%positive None st in
  Obj.get (lookup_obj st 1%positive) "iss" = VStr ""
  /\ Config.domain config = Some "example.com"
  /\ fst r = Throw (ThrowError (ConfigurationError "OG Pilot domain is missing"))
  /\ Obj.get (lookup_obj (snd r) (fresh_loc st)) "iss" = VStr ""
  /\ fst (Client.createImage Example.node config (Some 1%positive)
            Example.no_options st)
     = Throw (ThrowError (ConfigurationError "OG Pilot domain is missing")).
Proof. repeat split. Qed.

(* ================================================================== *)
(** ** The caller's params are left alone *)
(* ================================================================== *)

Lemma fresh_loc_None (st : State) : store st !! fresh_loc st = None.
Proof. unfold fresh_loc. apply not_elem_of_dom. apply is_fresh. Qed.

Lemma st_with_frame (st : State) (o' : obj) (l : loc) (o : obj) :
  store st !! l = Some o -> store (st_with st (fresh_loc st) o') !! l = Some o.
Proof.
  intros H. unfold st_with. cbn. rewrite lookup_insert_ne; [exact H|].
  intros <-. by rewrite fresh_loc_None in H.
Qed.

Lemma entry_frame (params : option loc) (st : State) (l : loc) (o : obj) :
  store st !! l = Some o -> store (snd (entry params st)) !! l = Some o.
Proof.
  destruct params; [done|]. apply st_with_frame.
Qed.

(** C10. [createImage] never writes to an object of the caller: every object
    of the store before the call, the params among them, has the same
    properties after it, whether the call returns or throws. *)
Theorem createImage_frame (host : Host) (config : Config.Configuration)
    (params : option loc) (options : CreateImageOptions) (st : State)
    (l : loc) (o : obj) :
  store st !! l = Some o ->
  store (snd (Client.createImage host config params options st)) !! l = Some o.
Proof.
  intros H.
  destruct (createImage_run host config params options st) as (o' & _ & ->).
  apply (entry_frame params) in H.
  apply (st_with_frame _ o') in H.
  repeat match goal with
         | |- context [match ?x with _ => _ end] => destruct x
         end; exact H.
Qed.

Lemma createImage_frame_witness :
  let config := Example.config_with (Example.answers Example.redirect_302) in
  let st := Example.with_params [("title", VStr "x")] in
  store (snd (Client.createImage Example.node config (Some 1%positive)
                Example.no_options st)) !! 1%positive
  = Some [("title", VStr "x")].
Proof.
  intros config st.
  apply (createImage_frame Example.node config (Some 1%positive)
           Example.no_options st).
  reflexivity.
Defined.

(* ================================================================== *)
(** ** Failures before the transport *)
(* ================================================================== *)

Lemma st_log_nil_log (st : State) (l : loc) (o : obj) :
  log (st_with st l o) = log st.
Proof. reflexivity. Qed.

Lemma entry_log (params : option loc) (st : State) :
  log (snd (entry params st)) = log st.
Proof. by destruct params. Qed.

(** When the payload or the URL cannot be built, [createImage] throws what
    building them throws and makes no host call. *)
Lemma createImage_early (host : Host) (config : Config.Configuration)
    (params : option loc) (options : CreateImageOptions) (st : State) (t : thrown) :
  Claims.payload_of host config
    (lookup_obj (snd (entry params st)) (fst (entry params st))) (o_iat options)
    ≫= Claims.url_of host config = Throw t ->
  fst (Client.createImage host config params options st) = Throw t
  /\ log (snd (Client.createImage host config params options st)) = log st.
Proof.
  intros H.
  destruct (createImage_run host config params options st) as (o' & _ & ->).
  rewrite H. cbn [fst snd]. by rewrite st_log_nil_log, entry_log.
Qed.

(** C4, as the code has it.  With [title] absent, [null] or empty in params,
    [createImage] fails and the transport is never invoked.  The issuer and
    the subject are checked first: when either ends up missing or empty the
    error is a [ConfigurationError]; otherwise it is the validation error of
    the title, a plain [Error]. *)
Theorem createImage_blank_title (host : Host) (config : Config.Configuration)
    (params : option loc) (options : CreateImageOptions) (st : State) :
  let p := lookup_obj (snd (entry params st)) (fst (entry params st)) in
  let r := Client.createImage host config params options st in
  blank host (Obj.get p "title") = true ->
  exists e,
    fst r = Throw (ThrowError e)
    /\ log (snd r) = log st
    /\ if blank host (iss_claim config p) || blank host (sub_claim config p)
       then instanceof_ConfigurationError e = true
       else e = Error_ "OG Pilot title is required".
Proof.
  intros p r Ht.
  pose proof (payload_of_cases host config p (o_iat options)) as Hc.
  destruct (Claims.payload_of host config p (o_iat options)) as [o|t] eqn:E.
  - destruct Hc as (_ & _ & _ & _ & _ & Hbt). congruence.
  - destruct Hc as (e & -> & He). exists e.
    destruct (createImage_early host config params options st (ThrowError e))
      as [Hr Hl].
    { fold p. by rewrite E. }
    split; [exact Hr|]. split; [exact Hl|].
    destruct (blank host (iss_claim config p) || blank host (sub_claim config p));
      [exact He | apply He].
Qed.

Lemma createImage_blank_title_witness :
  let config := Example.config_with (Example.answers Example.redirect_302) in
  let st := Example.with_params [("template", VStr "page")] in
  let r := Client.createImage Example.node config (Some 1%positive)
             Example.no_options st in
  fst r = Throw (ThrowError (Error_ "OG Pilot title is required"))
  /\ log (snd r) = [].
Proof.
  intros config st r.
  destruct (createImage_blank_title Example.node config (Some 1%positive)
              Example.no_options st eq_refl) as (e & Hr & Hl & He).
  vm_compute in He. subst e. split; [exact Hr | exact Hl].
Defined.

(** Without a title but with an empty issuer, the error is not the
    validation error. *)
Lemma blank_title_counterexample :
  let config := Example.config_with (Example.answers Example.redirect_302) in
  let st := Example.with_params [("iss", VStr "")] in
  let r := Client.createImage Example.node config (Some 1%positive)
             Example.no_options st in
  Obj.get (lookup_obj st 1%positive) "title" = VUndefined
  /\ fst r = Throw (ThrowError (ConfigurationError "OG Pilot domain is missing"))
  /\ fst r <> Throw (ThrowError (Error_ "OG Pilot title is required")).
Proof. repeat split. discriminate. Qed.

(** C5, as the code has it.  Without a configured key, [createImage] fails
    and the transport is never invoked.  The issuer and the subject are
    checked first, then the title, and the key is asked for last: when the
    issuer or the subject ends up missing or empty, the error is a
    [ConfigurationError]; otherwise, with the title missing or empty, it is
    the validation error of the title, a plain [Error]; otherwise it is the
    [ConfigurationError] of the missing key.  So the error is a
    [ConfigurationError] whenever params have a non-empty title. *)
Theorem createImage_no_secret (host : Host) (config : Config.Configuration)
    (params : option loc) (options : CreateImageOptions) (st : State) :
  let p := lookup_obj (snd (entry params st)) (fst (entry params st)) in
  let r := Client.createImage host config params options st in
  Config.apiKey config = None ->
  exists e,
    fst r = Throw (ThrowError e)
    /\ log (snd r) = log st
    /\ (instanceof_ConfigurationError e = true
        \/ e = Error_ "OG Pilot title is required"
           /\ blank host (Obj.get p "title") = true)
    /\ (blank host (Obj.get p "title") = false ->
        instanceof_ConfigurationError e = true)
    /\ (if blank host (iss_claim config p) || blank host (sub_claim config p)
        then instanceof_ConfigurationError e = true
        else if blank host (Obj.get p "title")
             then e = Error_ "OG Pilot title is required"
             else e = ConfigurationError "OG Pilot API key is missing").
Proof.
  intros p r Hk.
  pose proof (payload_of_cases host config p (o_iat options)) as Hc.
  assert (exists e,
            Claims.payload_of host config p (o_iat options)
              ≫= Claims.url_of host config = Throw (ThrowError e)
            /\ (instanceof_ConfigurationError e = true
                \/ e = Error_ "OG Pilot title is required"
                   /\ blank host (Obj.get p "title") = true)
            /\ (if blank host (iss_claim config p)
                   || blank host (sub_claim config p)
                then instanceof_ConfigurationError e = true
                else if blank host (Obj.get p "title")
                     then e = Error_ "OG Pilot title is required"
                     else e = ConfigurationError "OG Pilot API key is missing"))
    as (e & He & Hcls & Hcase).
  { destruct (Claims.payload_of host config p (o_iat options)) as [o|t].
    - cbn. unfold Claims.url_of. rewrite Hk. eexists. split; [reflexivity|].
      split; [by left|].
      destruct Hc as (_ & _ & _ & -> & -> & ->). reflexivity.
    - destruct Hc as (e & -> & He). exists e. split; [reflexivity|].
      destruct (blank host (iss_claim config p) || blank host (sub_claim config p)).
      + split; [by left | exact He].
      + destruct He as [-> Ht]. rewrite Ht. split; [by right | reflexivity]. }
  exists e.
  destruct (createImage_early host config params options st (ThrowError e) He)
    as [Hr Hl].
  split; [exact Hr|]. split; [exact Hl|]. split; [exact Hcls|].
  split; [|exact Hcase].
  intros Ht. destruct Hcls as [?|[_ ?]]; [done | congruence].
Qed.

Lemma createImage_no_secret_witness :
  let config :=
    Config.mkConfiguration None (Some "example.com") Config.DEFAULT_BASE_URL
      (Some (Num.of_Z 5000)) (Some (Num.of_Z 10000))
      (Some (Example.answers Example.redirect_302)) true in
  let st := Example.with_params [("title", VStr "x")] in
  let r := Client.createImage Example.node config (Some 1%positive)
             Example.no_options st in
  fst r = Throw (ThrowError (ConfigurationError "OG Pilot API key is missing"))
  /\ log (snd r) = [].
Proof.
  intros config st r.
  destruct (createImage_no_secret Example.node config (Some 1%positive)
              Example.no_options st eq_refl) as (e & Hr & Hl & _).
  split; [|exact Hl].
  pose proof Hr as He. vm_compute in He. injection He as <-. exact Hr.
Defined.

(** Without a key, with a subject supplied and no title, the error is the
    validation error of the title, not a configuration error. *)
Lemma no_secret_counterexample :
  let config :=
    Config.mkConfiguration None (Some "example.com") Config.DEFAULT_BASE_URL
      (Some (Num.of_Z 5000)) (Some (Num.of_Z 10000))
      (Some (Example.answers Example.redirect_302)) true in
  let st := Example.with_params [("sub", VStr "abc")] in
  let r := Client.createImage Example.node config (Some 1%positive)
             Example.no_options st in
  Config.apiKey config = None
  /\ fst r = Throw (ThrowError (Error_ "OG Pilot title is required"))
  /\ instanceof_ConfigurationError (Error_ "OG Pilot title is required") = false.
Proof. repeat split. Qed.

(* ================================================================== *)
(** ** The request URL *)
(* ================================================================== *)

Lemma serialize_safe (s : string) :
  Str.all form_safe s = true -> URLM.serialize_string s = s.
Proof.
  unfold URLM.serialize_string.
  induction s as [|c r IH]; [reflexivity|].
  cbn [Str.all TextEncoder.encode].
  intros [[Ha He%String.eqb_eq]%andb_true_iff Hr]%andb_true_iff.
  unfold TextEncoder.encode_unit. unfold is_ascii in Ha. rewrite Ha.
  cbn [app URLM.serialize_bytes]. by rewrite He, IH.
Qed.

Lemma digit_url_form_safe (i : Z) :
  form_safe (Base64.digit Base64.alphabet_url i) = true.
Proof. apply (digit_forall form_safe); reflexivity. Qed.

Lemma token_form_safe (host : Host) (claims : obj) (secret : string) :
  Str.all form_safe (JwtSpec.token host claims secret) = true.
Proof.
  unfold JwtSpec.token, JwtSpec.encoded_header, JwtSpec.encoded_claims,
    JwtSpec.base64url.
  rewrite !all_app, !encode_url_nopad_all by apply digit_url_form_safe.
  reflexivity.
Qed.

Lemma signJwt_inv (host : Host) (claims : obj) (secret token : string) :
  signJwt host claims secret = Ok token ->
  token = JwtSpec.token host claims secret.
Proof.
  intros H. destruct (can_sign host secret) eqn:Ec.
  - rewrite (signJwt_ok host claims secret Ec) in H. by injection H.
  - destruct (signJwt_throws host claims secret Ec) as [e E]. congruence.
Qed.

Lemma toString_token (scheme authority token : string) :
  Str.all form_safe token = true ->
  URLM.toString (mkURL scheme authority ENDPOINT_PATH [("token", token)])
  = scheme +:+ "://" +:+ authority +:+ "/api/v1/images?token=" +:+ token.
Proof.
  intros Hs. unfold URLM.toString, URLM.serialize_query.
  cbn [url_scheme url_authority url_pathname url_searchParams map fst snd Str.join].
  rewrite (serialize_safe token Hs).
  change (URLM.serialize_string "token") with "token".
  reflexivity.
Qed.

Lemma url_of_ok (host : Host) (config : Config.Configuration) (o : obj) (url : URL) :
  Claims.url_of host config o = Ok url ->
  exists secret token base,
    Config.apiKey config = Some secret
    /\ signJwt host o secret = Ok token
    /\ parse_base host (Config.baseUrl config) = Some base
    /\ url = mkURL (base_scheme base) (base_authority base) ENDPOINT_PATH
               [("token", token)].
Proof.
  unfold Claims.url_of, URLM.new_.
  destruct (Config.apiKey config) as [secret|]; [|discriminate].
  destruct (signJwt host o secret) as [token|] eqn:Es; [|discriminate]. cbn.
  destruct (parse_base host (Config.baseUrl config)) as [base|] eqn:Eb;
    [|discriminate].
  cbn. intros [= <-]. by exists secret, token, base.
Qed.

Lemma fetched_app (a b : list Event) : fetched (a ++ b) = fetched a ++ fetched b.
Proof. apply flat_map_app. Qed.

Lemma fetched_events_of (config : Config.Configuration) (url : URL) (hs : Headers) :
  fetched (Claims.events_of config url hs) = [URLM.toString url].
Proof.
  unfold Claims.events_of.
  by destruct (Client.armed (Client.totalTimeoutMs config)).
Qed.

(** C8. When [createImage] succeeds, the URL that [buildUrl] built has the
    scheme and authority of the configured base URL, the path
    [/api/v1/images], and the single query parameter [token], whose value is
    the token signed from the built claims with the configured key; its
    string form is [<origin>/api/v1/images?token=<token>], and that string
    is the one URL given to the transport during the call. *)
Theorem createImage_url (host : Host) (config : Config.Configuration)
    (params : option loc) (options : CreateImageOptions) (st : State)
    (ret : Returned) :
  let l0 := fst (entry params st) in
  let st0 := snd (entry params st) in
  let r := Client.createImage host config params options st in
  fst r = Ok ret ->
  exists base secret token url,
    parse_base host (Config.baseUrl config) = Some base
    /\ Config.apiKey config = Some secret
    /\ signJwt host (lookup_obj (snd r) (fresh_loc st0)) secret = Ok token
    /\ fst (Client.buildUrl host config l0 (o_iat options) st0) = Ok url
    /\ url_scheme url = base_scheme base
    /\ url_authority url = base_authority base
    /\ url_pathname url = "/api/v1/images"
    /\ url_searchParams url = [("token", token)]
    /\ URLM.toString url
       = base_scheme base +:+ "://" +:+ base_authority base
         +:+ "/api/v1/images?token=" +:+ token
    /\ fetched (log (snd r)) = fetched (log st) ++ [URLM.toString url].
Proof.
  intros l0 st0 r Hret.
  destruct (createImage_run host config params options st) as (o' & Ho & Hrun).
  fold l0 st0 r in Ho, Hrun.
  destruct (buildUrl_run host config l0 (o_iat options) st0) as (o2 & Hb & _).
  destruct (Claims.payload_of host config (lookup_obj st0 l0) (o_iat options))
    as [o|t] eqn:Ep; [|by rewrite Hrun in Hret].
  rewrite (Ho o eq_refl) in Hrun. cbn in Hrun, Hb.
  destruct (Claims.url_of host config o) as [url|t] eqn:Eu;
    [|by rewrite Hrun in Hret].
  destruct (url_of_ok host config o url Eu) as (secret & token & base & Hk & Hs & Hp & ->).
  exists base, secret, token,
    (mkURL (base_scheme base) (base_authority base) ENDPOINT_PATH [("token", token)]).
  assert (Hst : lookup_obj (snd r) (fresh_loc st0) = o
                /\ fetched (log (snd r)) = fetched (log st) ++
                     [URLM.toString (mkURL (base_scheme base) (base_authority base)
                                           ENDPOINT_PATH [("token", token)])]).
  { rewrite Hrun in Hret |- *.
    destruct (Client.fetchImpl host config) as [f|]; [|discriminate].
    destruct (Client.requestHeaders _ _) as [hs|]; [|discriminate].
    cbn [snd]. split.
    - unfold st_log, lookup_obj. cbn [store]. apply lookup_st_with.
    - unfold st_log. cbn [log]. rewrite fetched_app, fetched_events_of.
      rewrite st_log_nil_log. unfold st0. by rewrite entry_log. }
  destruct Hst as [Hlk Hfe]. rewrite Hlk.
  repeat split; try done.
  - by rewrite Hb.
  - apply toString_token. rewrite (signJwt_inv _ _ _ _ Hs). apply token_form_safe.
Qed.

(** The call of the README that ends in a redirect. *)
Lemma createImage_url_witness :
  let config := Example.config_with (Example.answers Example.redirect_302) in
  let st := Example.with_params [("title", VStr "x")] in
  let r := Client.createImage Example.node config (Some 1%positive)
             Example.no_options st in
  fetched (log (snd r))
  = ["https://ogpilot.com/api/v1/images?token="
     +:+ JwtSpec.token Example.node
           [("title", VStr "x"); ("iss", VStr "example.com"); ("sub", VStr "sk_test_")]
           "sk_test_0123456789"].
Proof.
  intros config st r.
  assert (Hret : fst r = Ok (RetString "https://example.com/img.png"))
    by (vm_compute; reflexivity).
  assert (Hobj : lookup_obj (snd r) (fresh_loc (snd (entry (Some 1%positive) st)))
                 = [("title", VStr "x"); ("iss", VStr "example.com");
                    ("sub", VStr "sk_test_")])
    by (vm_compute; reflexivity).
  pose proof (createImage_url Example.node config (Some 1%positive)
                Example.no_options st (RetString "https://example.com/img.png"))
    as H.
  cbv zeta in H. specialize (H Hret).
  destruct H as (base & secret & token & url & Hp & Hk & Hs & _ & _ & _ & _ & _ & Hu & Hf).
  fold r in Hf, Hs. rewrite Hobj in Hs. rewrite Hf, Hu.
  vm_compute in Hp, Hk. injection Hp as <-. injection Hk as <-.
  apply signJwt_inv in Hs. rewrite Hs.
  vm_compute. reflexivity.
Defined.

(* ================================================================== *)
(** ** The result without the json option *)
(* ================================================================== *)

Lemma In_events_of (config : Config.Configuration) (url : URL) (hs : Headers)
    (u : string) (init : RequestInit) :
  In (EvFetch u init) (Claims.events_of config url hs) ->
  u = URLM.toString url /\ init = Claims.init_of config hs.
Proof.
  unfold Claims.events_of.
  destruct (Client.armed (Client.totalTimeoutMs config)); cbn;
    intros H; repeat destruct H as [H|H]; try discriminate; try done;
    by injection H as <- <-.
Qed.

(** C9. Without the json option, when the transport was given the URL [u]
    during the call and answered with a response of status below 400,
    [createImage] returns the [Location] header of the response when it has
    one, else the URL of the response when it has one, else [u], the string
    form of the request URL. *)
Theorem createImage_location (host : Host) (config : Config.Configuration)
    (params : option loc) (options : CreateImageOptions) (st : State)
    (f : Transport) (evs : list Event) (u : string) (init : RequestInit)
    (response : Response) :
  let r := Client.createImage host config params options st in
  default false (o_json options) = false ->
  Client.fetchImpl host config = Some f ->
  log (snd r) = log st ++ evs ->
  In (EvFetch u init) evs ->
  f u init = Resolved response ->
  resp_status response < 400 ->
  fst r = Ok (RetString
    match HeadersM.get (resp_headers response) "location" with
    | Some l => l
    | None =>
        match resp_url response with
        | Some final => final
        | None => u
        end
    end).
Proof.
  intros r Hjson Hf Hlog Hin Hres Hstatus. subst r.
  destruct (createImage_run host config params options st) as (o' & _ & Hrun).
  rewrite Hrun in Hlog |- *. clear Hrun.
  assert (Hl1 : log (st_with (snd (entry params st))
                       (fresh_loc (snd (entry params st))) o') = log st)
    by by rewrite st_log_nil_log, entry_log.
  assert (Hnil : log st = log st ++ evs -> False).
  { intros E. rewrite <- (app_nil_r (log st)) in E at 1.
    apply app_inv_head in E. subst evs. destruct Hin. }
  destruct (_ ≫= Claims.url_of host config) as [url|t];
    [|cbn [snd] in Hlog; rewrite Hl1 in Hlog; by apply Hnil in Hlog].
  rewrite Hf in Hlog |- *. rewrite Hjson in Hlog |- *.
  destruct (Client.requestHeaders false _) as [hs|t];
    [|cbn [snd] in Hlog; rewrite Hl1 in Hlog; by apply Hnil in Hlog].
  cbn [snd fst] in Hlog |- *. unfold st_log in Hlog. cbn [log] in Hlog.
  rewrite Hl1 in Hlog. apply app_inv_head in Hlog. subst evs.
  apply In_events_of in Hin as [-> ->].
  rewrite Hres. cbn [Claims.settle].
  apply Z.leb_gt in Hstatus. rewrite Hstatus. reflexivity.
Qed.

(** The redirect of the README: status 302 with a [Location] header. *)
Lemma createImage_location_witness :
  let config := Example.config_with (Example.answers Example.redirect_302) in
  let st := Example.with_params [("title", VStr "x")] in
  fst (Client.createImage Example.node config (Some 1%positive)
         Example.no_options st)
  = Ok (RetString "https://example.com/img.png").
Proof.
  intros config st.
  set (r := Client.createImage Example.node config (Some 1%positive)
              Example.no_options st).
  assert (Hlog : exists u init,
            log (snd r) = log st ++ [EvSetTimeout (Fin 15000); EvFetch u init;
                                     EvClearTimeout]).
  { eexists _, _. vm_compute. reflexivity. }
  destruct Hlog as (u & init & Hlog).
  exact (createImage_location Example.node config (Some 1%positive)
           Example.no_options st (Example.answers Example.redirect_302)
           _ u init Example.redirect_302
           eq_refl eq_refl Hlog (or_intror (or_introl eq_refl)) eq_refl eq_refl).
Defined.

(* ================================================================== *)
(** ** Further properties: the headers of the request *)
(* ================================================================== *)

Lemma list_filter_bool {A} (b : A -> bool) (l : list A) :
  filter (fun x => Is_true (b x)) l = List.filter b l.
Proof.
  induction l as [|a l IH]; [reflexivity|].
  rewrite filter_cons. cbn [List.filter]. rewrite IH.
  destruct (b a) eqn:E; case_decide as H; try reflexivity.
  - exfalso. apply H. exact I.
  - destruct H.
Qed.

Lemma lower_unit_idem (c : ascii) :
  HeadersM.lower_unit (HeadersM.lower_unit c) = HeadersM.lower_unit c.
Proof. destruct c as [[] [] [] [] [] [] [] []]; reflexivity. Qed.

Lemma lower_idem (s : string) : HeadersM.lower (HeadersM.lower s) = HeadersM.lower s.
Proof.
  induction s as [|c r IH]; [reflexivity|].
  cbn. by rewrite lower_unit_idem, IH.
Qed.

Lemma headers_get_eq (h : Headers) (name : string) :
  HeadersM.get h name
  = match List.filter (fun kv => String.eqb (fst kv) (HeadersM.lower name)) h with
    | [] => None
    | l => Some (Str.join ", " (map snd l))
    end.
Proof.
  unfold HeadersM.get, Headers.
  pose proof (list_filter_bool
                (fun kv : string * string => String.eqb (fst kv) (HeadersM.lower name)) h)
    as H.
  cbv beta in H. by rewrite H.
Qed.

Lemma filter_same_others (r : Headers) (n : string) :
  List.filter (fun kv => String.eqb (fst kv) n)
    (List.filter (fun kv => negb (String.eqb (fst kv) n)) r) = [].
Proof.
  induction r as [|[k w] r IH]; [reflexivity|].
  cbn [List.filter fst]. destruct (String.eqb k n) eqn:E; cbn [negb].
  - exact IH.
  - cbn [List.filter fst]. by rewrite E.
Qed.

Lemma filter_other_others (r : Headers) (n m : string) :
  String.eqb n m = false ->
  List.filter (fun kv => String.eqb (fst kv) m)
    (List.filter (fun kv => negb (String.eqb (fst kv) n)) r)
  = List.filter (fun kv => String.eqb (fst kv) m) r.
Proof.
  intros Hnm. induction r as [|[k w] r IH]; [reflexivity|].
  cbn [List.filter fst]. destruct (String.eqb k n) eqn:E; cbn [negb].
  - apply String.eqb_eq in E. subst k. by rewrite Hnm.
  - cbn [List.filter fst]. by rewrite IH.
Qed.

Lemma filter_replace (h : Headers) (n v m : string) :
  existsb (fun kv => String.eqb (fst kv) n) h = true ->
  List.filter (fun kv => String.eqb (fst kv) m) (HeadersM.replace h n v)
  = if String.eqb n m then [(n, v)]
    else List.filter (fun kv => String.eqb (fst kv) m) h.
Proof.
  induction h as [|[k w] r IH]; [discriminate|].
  cbn [existsb HeadersM.replace fst].
  destruct (String.eqb k n) eqn:Ekn.
  - intros _. apply String.eqb_eq in Ekn. subst k. unfold Headers.
    pose proof (list_filter_bool
                  (fun kv : string * string => negb (String.eqb (fst kv) n)) r) as H.
    cbv beta in H. rewrite H. clear H.
    cbn [List.filter fst].
    destruct (String.eqb n m) eqn:Enm.
    + apply String.eqb_eq in Enm. subst m. by rewrite filter_same_others.
    + by apply filter_other_others.
  - cbn [orb]. intros Hex. cbn [List.filter fst]. rewrite (IH Hex).
    destruct (String.eqb n m) eqn:Enm.
    + apply String.eqb_eq in Enm. subst m. by rewrite Ekn.
    + reflexivity.
Qed.

Lemma filter_absent (h : Headers) (n : string) :
  existsb (fun kv => String.eqb (fst kv) n) h = false ->
  List.filter (fun kv => String.eqb (fst kv) n) h = [].
Proof.
  induction h as [|[k w] r IH]; [reflexivity|].
  cbn [existsb List.filter fst].
  destruct (String.eqb k n); [discriminate|]. exact IH.
Qed.

(** What [get] gives after a [set]. *)
Lemma headers_get_set (h h' : Headers) (n v m : string) :
  HeadersM.set h n v = Ok h' ->
  HeadersM.get h' m
  = if String.eqb (HeadersM.lower n) (HeadersM.lower m)
    then Some (HeadersM.normalize v)
    else HeadersM.get h m.
Proof.
  unfold HeadersM.set.
  destruct (negb _); [discriminate|].
  rewrite !headers_get_eq.
  destruct (existsb _ h) eqn:Ex; intros [= <-].
  - rewrite (filter_replace _ _ _ _ Ex).
    by destruct (String.eqb (HeadersM.lower n) (HeadersM.lower m)).
  - rewrite List.filter_app. cbn [List.filter fst].
    destruct (String.eqb (HeadersM.lower n) (HeadersM.lower m)) eqn:E.
    + apply String.eqb_eq in E. rewrite <- E.
      by rewrite (filter_absent _ _ Ex).
    + by rewrite List.app_nil_r.
Qed.

Lemma last_value_from (name : string) (headers : list (string * string))
    (init : option string) :
  fold_left
    (fun acc kv =>
       if String.eqb (HeadersM.lower (fst kv)) (HeadersM.lower name)
       then Some (HeadersM.normalize (snd kv))
       else acc)
    headers init
  = match last_value name headers with
    | Some v => Some v
    | None => init
    end.
Proof.
  unfold last_value. revert init.
  induction headers as [|[k v] r IH]; intros init; [reflexivity|].
  cbn [fold_left fst snd].
  rewrite (IH (if String.eqb _ _ then _ else init)).
  rewrite (IH (if String.eqb _ _ then _ else None)).
  destruct (fold_left _ r None); [reflexivity|].
  by destruct (String.eqb _ _).
Qed.

Lemma set_all_throw (headers : list (string * string)) (t : thrown) :
  fold_left (fun acc kv => h ← acc; HeadersM.set h (fst kv) (snd kv))
            headers (Throw t)
  = Throw t.
Proof. induction headers as [|kv r IH]; [reflexivity | exact IH]. Qed.

Lemma set_valid (h : Headers) (kv : string * string) :
  valid_header kv = true -> exists h', HeadersM.set h (fst kv) (snd kv) = Ok h'.
Proof.
  unfold valid_header, HeadersM.set. intros ->. cbn [negb].
  destruct (existsb _ h); eauto.
Qed.

Lemma set_all_get (headers : list (string * string)) (acc hs : Headers) :
  fold_left (fun acc kv => h ← acc; HeadersM.set h (fst kv) (snd kv))
            headers (Ok acc)
  = Ok hs ->
  forall name,
    HeadersM.get hs name
    = match last_value name headers with
      | Some v => Some v
      | None => HeadersM.get acc name
      end.
Proof.
  revert acc. induction headers as [|[k v] r IH]; intros acc.
  - intros [= <-] name. reflexivity.
  - cbn [fold_left fst snd]. cbn [mbind outcome_bind].
    change (Ok acc ≫= _) with (HeadersM.set acc k v).
    destruct (HeadersM.set acc k v) as [acc'|t] eqn:Es.
    + intros H name. rewrite (IH acc' H name).
      unfold last_value at 2. cbn [fold_left fst snd].
      rewrite last_value_from.
      destruct (last_value name r); [reflexivity|].
      apply (headers_get_set _ _ _ _ name) in Es. rewrite Es.
      by destruct (String.eqb (HeadersM.lower k) (HeadersM.lower name)).
    + by rewrite set_all_throw.
Qed.

(** X1. The headers that [request] sends.  When every header of the caller
    is one that [Headers] takes, they are all set; and under any name,
    compared without case, the request carries the value of the caller's
    last header of that name, trimmed; failing that, [application/json]
    under [Accept] when the json option is set; otherwise nothing.  So the
    caller can replace the [Accept] header, which is sent only with the
    json option. *)
Theorem request_headers_sent (json : bool) (headers : list (string * string)) :
  (forallb valid_header headers = true ->
   exists hs, Client.requestHeaders json headers = Ok hs)
  /\ (forall hs, Client.requestHeaders json headers = Ok hs ->
      forall name,
        HeadersM.get hs name
        = match last_value name headers with
          | Some v => Some v
          | None =>
              if json && String.eqb (HeadersM.lower name) "accept"
              then Some "application/json"
              else None
          end).
Proof.
  unfold Client.requestHeaders.
  assert (H0 : (if json then HeadersM.set [] "Accept" "application/json" else Ok [])
               = Ok (if json then [("accept", "application/json")] else []))
    by by destruct json.
  rewrite H0. cbn [mbind outcome_bind].
  change (Ok ?a ≫= ?f) with (f a). cbv beta.
  split.
  - generalize (if json then [("accept", "application/json")] else [] : Headers).
    induction headers as [|kv r IH]; intros acc Hv; [by exists acc|].
    cbn [forallb] in Hv. apply andb_true_iff in Hv as [Hkv Hr].
    cbn [fold_left].
    change (Ok acc ≫= _) with (HeadersM.set acc (fst kv) (snd kv)).
    destruct (set_valid acc kv Hkv) as [acc' ->]. by apply IH.
  - intros hs H name. rewrite (set_all_get _ _ _ H name).
    destruct (last_value name headers); [reflexivity|].
    rewrite headers_get_eq.
    destruct json; cbn [andb]; [|reflexivity].
    cbn [List.filter fst].
    rewrite String.eqb_sym.
    by destruct (String.eqb (HeadersM.lower name) "accept").
Qed.

Lemma request_headers_sent_witness :
  exists hs,
    Client.requestHeaders true [("ACCEPT", " text/html "); ("X-Trace", "1")] = Ok hs
    /\ HeadersM.get hs "Accept" = Some "text/html"
    /\ HeadersM.get hs "x-trace" = Some "1"
    /\ HeadersM.get hs "Cookie" = None.
Proof.
  destruct (request_headers_sent true [("ACCEPT", " text/html "); ("X-Trace", "1")])
    as [Hok Hget].
  destruct (Hok eq_refl) as [hs Hhs]. exists hs.
  pose proof (Hget hs Hhs) as H.
  split; [exact Hhs|].
  split; [exact (H "Accept")|]. split; [exact (H "x-trace") | exact (H "Cookie")].
Defined.

(* ================================================================== *)
(** ** Further properties: the host calls of [createImage] *)
(* ================================================================== *)

(** X3. The host calls of one [createImage].  A call either makes no host
    call at all, and then it throws; or it calls the transport exactly once,
    with method GET, redirect mode manual, the request headers and the
    signal of the controller, never a second time.  Either no timer is
    armed on that signal, or one timer is armed just before the call, with
    the delay after which the signal aborts, and cleared right after the
    call, whatever the transport answers. *)
Theorem createImage_host_calls (host : Host) (config : Config.Configuration)
    (params : option loc) (options : CreateImageOptions) (st : State) :
  let r := Client.createImage host config params options st in
  exists evs,
    log (snd r) = log st ++ evs
    /\ ((evs = [] /\ exists t, fst r = Throw t)
        \/ exists u hs,
             Client.requestHeaders (default false (o_json options))
                                   (default [] (o_headers options)) = Ok hs
             /\ (evs = [EvFetch u (mkInit "GET" hs "manual" (mkSignal None))]
                 \/ exists t,
                      evs = [EvSetTimeout t;
                             EvFetch u (mkInit "GET" hs "manual" (mkSignal (Some t)));
                             EvClearTimeout])).
Proof.
  intros r. subst r.
  destruct (createImage_run host config params options st) as (o' & _ & ->).
  assert (Hl1 : log (st_with (snd (entry params st))
                       (fresh_loc (snd (entry params st))) o') = log st)
    by by rewrite st_log_nil_log, entry_log.
  destruct (_ ≫= Claims.url_of host config) as [url|t].
  2: { exists []. rewrite List.app_nil_r. split; [exact Hl1|]. left. eauto. }
  destruct (Client.fetchImpl host config) as [f|].
  2: { exists []. rewrite List.app_nil_r. split; [exact Hl1|]. left. eauto. }
  destruct (Client.requestHeaders _ _) as [hs|t] eqn:Eh.
  2: { exists []. rewrite List.app_nil_r. split; [exact Hl1|]. left. eauto. }
  exists (Claims.events_of config url hs). cbn [snd st_log log].
  rewrite Hl1. split; [reflexivity|]. right.
  exists (URLM.toString url), hs. split; [reflexivity|].
  unfold Claims.events_of, Claims.init_of.
  destruct (Client.armed (Client.totalTimeoutMs config)) as [t|]; eauto.
Qed.

Lemma url_of_throws (host : Host) (config : Config.Configuration) (o : obj)
    (t : thrown) :
  Claims.url_of host config o = Throw t -> exists e, t = ThrowError e.
Proof.
  unfold Claims.url_of, URLM.new_.
  destruct (Config.apiKey config) as [secret|]; [|intros [= <-]; eauto].
  destruct (can_sign host secret) eqn:Ec.
  - rewrite (signJwt_ok host o secret Ec). cbn.
    destruct (parse_base host (Config.baseUrl config)); cbn; [discriminate|].
    intros [= <-]. eauto.
  - destruct (signJwt_throws host o secret Ec) as [e ->]. cbn.
    intros [= <-]. eauto.
Qed.

Lemma build_throws (host : Host) (config : Config.Configuration) (p : obj)
    (iat : option IatInput) (t : thrown) :
  Claims.payload_of host config p iat ≫= Claims.url_of host config = Throw t ->
  exists e, t = ThrowError e.
Proof.
  pose proof (payload_of_cases host config p iat) as Hc.
  destruct (Claims.payload_of host config p iat) as [o|t'].
  - cbn. apply url_of_throws.
  - cbn. intros [= <-]. destruct Hc as (e & -> & _). eauto.
Qed.

(** X2. Without a transport, neither in the configuration nor ambient,
    [createImage] throws and makes no host call; when the URL was built,
    what it throws is the [ConfigurationError] of the missing Fetch API. *)
Theorem createImage_without_fetch (host : Host) (config : Config.Configuration)
    (params : option loc) (options : CreateImageOptions) (st : State) :
  let l0 := fst (entry params st) in
  let st0 := snd (entry params st) in
  let r := Client.createImage host config params options st in
  Config.fetch config = None ->
  global_fetch host = None ->
  exists e,
    fst r = Throw (ThrowError e)
    /\ log (snd r) = log st
    /\ (forall url,
          fst (Client.buildUrl host config l0 (o_iat options) st0) = Ok url ->
          e = ConfigurationError
                "Fetch API is not available; provide a fetch implementation in the configuration.").
Proof.
  intros l0 st0 r Hc Hg. subst r.
  destruct (createImage_run host config params options st) as (o' & _ & ->).
  destruct (buildUrl_run host config l0 (o_iat options) st0) as (o2 & Hb & _).
  fold l0 st0. rewrite Hb. cbn [fst].
  assert (Hl1 : log (st_with st0 (fresh_loc st0) o') = log st)
    by (unfold st0; by rewrite st_log_nil_log, entry_log).
  unfold Client.fetchImpl. rewrite Hc, Hg. cbn [nullish_or].
  destruct (_ ≫= Claims.url_of host config) as [url|t] eqn:E.
  - eexists. split; [reflexivity|]. split; [exact Hl1|]. by intros _ _.
  - destruct (build_throws _ _ _ _ _ E) as [e ->].
    exists e. split; [reflexivity|]. split; [exact Hl1|]. discriminate.
Qed.

Lemma createImage_without_fetch_witness :
  let config :=
    Config.mkConfiguration (Some "sk_test_0123456789") (Some "example.com")
      Config.DEFAULT_BASE_URL (Some (Num.of_Z 5000)) (Some (Num.of_Z 10000))
      None true in
  let st := Example.with_params [("title", VStr "x")] in
  let r := Client.createImage Example.node config (Some 1%positive)
             Example.no_options st in
  fst r = Throw (ThrowError (ConfigurationError
            "Fetch API is not available; provide a fetch implementation in the configuration."))
  /\ log (snd r) = [].
Proof.
  intros config st r.
  pose proof (createImage_without_fetch Example.node config (Some 1%positive)
                Example.no_options st) as H.
  cbv zeta in H. destruct (H eq_refl eq_refl) as (e & Hr & Hl & He).
  assert (Hu : exists url,
            fst (Client.buildUrl Example.node config 1%positive None st) = Ok url)
    by (eexists; vm_compute; reflexivity).
  destruct Hu as [url Hu]. rewrite (He url Hu) in Hr.
  split; [exact Hr | exact Hl].
Defined.

(* ================================================================== *)
(** ** Further properties: the result with the json option *)
(* ================================================================== *)

(** X4. With the json option, when the transport was called during the
    call and answered with a response of status below 400, [createImage]
    returns the parse of the body text; when the body cannot be read, what
    reading it throws is thrown as it is, not wrapped in a
    [RequestError]. *)
Theorem createImage_json (host : Host) (config : Config.Configuration)
    (params : option loc) (options : CreateImageOptions) (st : State)
    (f : Transport) (evs : list Event) (u : string) (init : RequestInit)
    (response : Response) :
  let r := Client.createImage host config params options st in
  o_json options = Some true ->
  Client.fetchImpl host config = Some f ->
  log (snd r) = log st ++ evs ->
  In (EvFetch u init) evs ->
  f u init = Resolved response ->
  resp_status response < 400 ->
  fst r = match resp_text response with
          | Ok body => Ok (RetJSONParse body)
          | Throw t => Throw t
          end.
Proof.
  intros r Hjson Hf Hlog Hin Hres Hstatus. subst r.
  destruct (createImage_run host config params options st) as (o' & _ & Hrun).
  rewrite Hrun in Hlog |- *. clear Hrun.
  assert (Hl1 : log (st_with (snd (entry params st))
                       (fresh_loc (snd (entry params st))) o') = log st)
    by by rewrite st_log_nil_log, entry_log.
  assert (Hnil : log st = log st ++ evs -> False).
  { intros E. rewrite <- (List.app_nil_r (log st)) in E at 1.
    apply app_inv_head in E. subst evs. destruct Hin. }
  destruct (_ ≫= Claims.url_of host config) as [url|t];
    [|cbn [snd] in Hlog; rewrite Hl1 in Hlog; by apply Hnil in Hlog].
  rewrite Hf in Hlog |- *. rewrite Hjson in Hlog |- *.
  change (default false (Some true)) with true in Hlog |- *.
  destruct (Client.requestHeaders true _) as [hs|t];
    [|cbn [snd] in Hlog; rewrite Hl1 in Hlog; by apply Hnil in Hlog].
  cbn [snd fst] in Hlog |- *. unfold st_log in Hlog. cbn [log] in Hlog.
  rewrite Hl1 in Hlog. apply app_inv_head in Hlog. subst evs.
  apply In_events_of in Hin as [-> ->].
  rewrite Hres. cbn [Claims.settle].
  apply Z.leb_gt in Hstatus. rewrite Hstatus. cbn.
  by destruct (resp_text response).
Qed.

Lemma createImage_json_witness :
  let st := Example.with_params [("title", VStr "x")] in
  fst (Client.createImage Example.node
         (Example.config_with (Example.answers Example2.ok_200))
         (Some 1%positive) Example2.json_options st)
  = Ok (RetJSONParse "[1,2,3]")
  /\ fst (Client.createImage Example.node
            (Example.config_with (Example.answers Example2.unreadable_200))
            (Some 1%positive) Example2.json_options st)
     = Throw (ThrowError (TypeError_ "Body is unusable")).
Proof.
  intros st. split.
  - set (config := Example.config_with (Example.answers Example2.ok_200)).
    set (r := Client.createImage Example.node config (Some 1%positive)
                Example2.json_options st).
    assert (Hlog : exists u init,
              log (snd r) = log st ++ [EvSetTimeout (Fin 15000); EvFetch u init;
                                       EvClearTimeout])
      by (eexists _, _; vm_compute; reflexivity).
    destruct Hlog as (u & init & Hlog).
    exact (createImage_json Example.node config (Some 1%positive)
             Example2.json_options st (Example.answers Example2.ok_200)
             _ u init Example2.ok_200
             eq_refl eq_refl Hlog (or_intror (or_introl eq_refl)) eq_refl eq_refl).
  - set (config := Example.config_with (Example.answers Example2.unreadable_200)).
    set (r := Client.createImage Example.node config (Some 1%positive)
                Example2.json_options st).
    assert (Hlog : exists u init,
              log (snd r) = log st ++ [EvSetTimeout (Fin 15000); EvFetch u init;
                                       EvClearTimeout])
      by (eexists _, _; vm_compute; reflexivity).
    destruct Hlog as (u & init & Hlog).
    exact (createImage_json Example.node config (Some 1%positive)
             Example2.json_options st (Example.answers Example2.unreadable_200)
             _ u init Example2.unreadable_200
             eq_refl eq_refl Hlog (or_intror (or_introl eq_refl)) eq_refl eq_refl).
Defined.

(* ================================================================== *)
(** ** Further properties: the claims that are passed through *)
(* ================================================================== *)

Lemma payload_of_get (host : Host) (config : Config.Configuration) (p : obj)
    (iat : option IatInput) (o : obj) (k : string) :
  Claims.payload_of host config p iat = Ok o ->
  k <> "iss" -> k <> "sub" ->
  Obj.get o k = Obj.get (Claims.with_iat p iat) k.
Proof.
  unfold Claims.payload_of. intros H Hi Hs.
  pose proof (with_iss_cases host config (Claims.with_iat p iat)) as H1.
  destruct (Claims.with_iss config (Claims.with_iat p iat)) as [o2|]; [|discriminate].
  cbn in H. destruct H1 as [_ H1].
  pose proof (with_sub_cases host config o2) as H2.
  destruct (Claims.with_sub config o2) as [o3|]; [|discriminate].
  cbn in H. destruct H2 as [_ H2].
  pose proof (validate_cases host o3) as H3.
  rewrite H in H3. destruct H3 as [-> _].
  by rewrite H2, H1.
Qed.

(** X5. The claims that [buildPayload] does not default.  When the claims
    are built, every property other than [iat], [iss] and [sub] ([path],
    [template], colours, ...) reads in the claims as it reads in params;
    [iat] is the normalized [iat] option when the option is given, whatever
    params say, and the [iat] of params otherwise. *)
Theorem buildPayload_passes_claims (host : Host) (config : Config.Configuration)
    (params : loc) (iat : option IatInput) (st : State) (l : loc) :
  let p := lookup_obj st params in
  let r := Client.buildPayload host config params iat st in
  fst r = Ok l ->
  let o := lookup_obj (snd r) l in
  (forall k, k <> "iat" -> k <> "iss" -> k <> "sub" -> Obj.get o k = Obj.get p k)
  /\ Obj.get o "iat" = match iat with
                       | Some i => VNum (normalizeIat i)
                       | None => Obj.get p "iat"
                       end.
Proof.
  intros p r Hl o. subst o.
  destruct (buildPayload_run host config params iat st) as (o' & Hrun & Ho).
  fold p in Hrun, Ho. fold r in Hrun. rewrite Hrun in Hl |- *.
  cbn [fst snd] in *.
  destruct (Claims.payload_of host config p iat) as [o|t] eqn:E; [|discriminate].
  injection Hl as <-. rewrite (Ho o eq_refl), lookup_st_with.
  split.
  - intros k Hk Hi Hs. rewrite (payload_of_get _ _ _ _ _ k E Hi Hs).
    by apply get_with_iat.
  - rewrite (payload_of_get _ _ _ _ _ "iat" E) by discriminate.
    destruct iat; [apply get_set_eq | reflexivity].
Qed.

Lemma buildPayload_passes_claims_witness :
  let config := Example.config_with (Example.answers Example.redirect_302) in
  let st := Example.with_params
              [("title", VStr "x"); ("path", VStr "/blog/1"); ("iat", VNum (Num.of_Z 5))] in
  let r := Client.buildPayload Example.node config 1%positive
             (Some (IatNumber (Num.of_Z 1700000000123))) st in
  Obj.get (lookup_obj (snd r) 2%positive) "path" = VStr "/blog/1"
  /\ Obj.get (lookup_obj (snd r) 2%positive) "iat" = VNum (Num.of_Z 1700000000).
Proof.
  intros config st r.
  pose proof (buildPayload_passes_claims Example.node config 1%positive
                (Some (IatNumber (Num.of_Z 1700000000123))) st 2%positive) as H.
  cbv zeta in H. destruct (H eq_refl) as [Hk Hi].
  split; [exact (Hk "path" ltac:(discriminate) ltac:(discriminate) ltac:(discriminate))
         | exact Hi].
Defined.

(* ================================================================== *)
(** ** Further properties: a base URL that does not parse *)
(* ================================================================== *)

(** X7. When the configured base URL does not parse, [createImage] throws
    and makes no host call; when the claims were built and signed, that is
    with a key the signer takes, what it throws is the [TypeError] of
    [new URL], which is not an [OgPilotError]. *)
Theorem createImage_invalid_base (host : Host) (config : Config.Configuration)
    (params : option loc) (options : CreateImageOptions) (st : State) :
  let l0 := fst (entry params st) in
  let st0 := snd (entry params st) in
  let r := Client.createImage host config params options st in
  parse_base host (Config.baseUrl config) = None ->
  exists e,
    fst r = Throw (ThrowError e)
    /\ log (snd r) = log st
    /\ (forall l secret,
          fst (Client.buildPayload host config l0 (o_iat options) st0) = Ok l ->
          Config.apiKey config = Some secret ->
          can_sign host secret = true ->
          err_class e = ClsTypeError /\ instanceof_OgPilotError e = false).
Proof.
  intros l0 st0 r Hp. subst r.
  destruct (createImage_run host config params options st) as (o' & _ & ->).
  destruct (buildPayload_run host config l0 (o_iat options) st0) as (o2 & Hb & _).
  fold l0 st0. rewrite Hb. cbn [fst].
  assert (Hl1 : log (st_with st0 (fresh_loc st0) o') = log st)
    by (unfold st0; by rewrite st_log_nil_log, entry_log).
  destruct (Claims.payload_of host config (lookup_obj st0 l0) (o_iat options)
              ≫= Claims.url_of host config) as [url|t] eqn:E.
  - exfalso.
    destruct (Claims.payload_of host config (lookup_obj st0 l0) (o_iat options))
      as [o|]; [|discriminate].
    cbn in E. apply url_of_ok in E as (_ & _ & base & _ & _ & Hbase & _).
    congruence.
  - destruct (build_throws _ _ _ _ _ E) as [e ->].
    exists e. split; [reflexivity|]. split; [exact Hl1|].
    intros l secret Hl Hk Hs.
    destruct (Claims.payload_of host config (lookup_obj st0 l0) (o_iat options))
      as [o|]; [|discriminate].
    cbn in E. unfold Claims.url_of, URLM.new_ in E.
    rewrite Hk, (signJwt_ok host o secret Hs), Hp in E. cbn in E.
    by injection E as <-.
Qed.

Lemma createImage_invalid_base_witness :
  let config :=
    Config.mkConfiguration (Some "sk_test_0123456789") (Some "example.com")
      "ogpilot.com" (Some (Num.of_Z 5000)) (Some (Num.of_Z 10000))
      (Some (Example.answers Example.redirect_302)) true in
  let st := Example.with_params [("title", VStr "x")] in
  let r := Client.createImage Example.node config (Some 1%positive)
             Example.no_options st in
  exists e, fst r = Throw (ThrowError e)
            /\ err_class e = ClsTypeError
            /\ log (snd r) = [].
Proof.
  intros config st r.
  pose proof (createImage_invalid_base Example.node config (Some 1%positive)
                Example.no_options st) as H.
  cbv zeta in H. destruct (H eq_refl) as (e & Hr & Hl & He).
  exists e. split; [exact Hr|]. split; [|exact Hl].
  exact (proj1 (He 2%positive "sk_test_0123456789" eq_refl eq_refl eq_refl)).
Defined.

(* ================================================================== *)
(** ** Further properties: [normalizeIat] on whole numbers *)
(* ================================================================== *)

Lemma Qfloor_inject_Z (z : Z) : Qfloor (inject_Z z) = z.
Proof. unfold Qfloor, inject_Z. apply Z.div_1_r. Qed.

(** X8. [normalizeIat] on whole numbers, and what it returns.  For whole
    milliseconds above 100,000,000,000 and up to 2^53, a [Date] and its
    [getTime()] give the same seconds, the whole quotient by 1000; whole
    seconds up to 100,000,000,000 are returned as they are, the bound
    included; and the result is always a whole number, NaN or an infinity:
    flooring it again changes nothing. *)
Theorem normalizeIat_whole :
  (forall ms : Z, 100000000000 < ms <= 2 ^ 53 ->
     normalizeIat (IatNumber (Num.of_Z ms)) = normalizeIat (IatDate (Num.of_Z ms))
     /\ normalizeIat (IatNumber (Num.of_Z ms)) = Num.of_Z (ms / 1000))
  /\ (forall s : Z, s <= 100000000000 ->
        normalizeIat (IatNumber (Num.of_Z s)) = Num.of_Z s)
  /\ (forall iat : IatInput, Num.floor (normalizeIat iat) = normalizeIat iat).
Proof.
  assert (Hgt : forall z : Z,
            Num.gt (Num.of_Z z) (Num.of_Z 100000000000) = (100000000000 <? z)).
  { intros z. unfold Num.gt, Num.lt, Num.of_Z.
    destruct (100000000000 <? z) eqn:E.
    - apply Qltb_true. rewrite <- Zlt_Qlt. by apply Z.ltb_lt.
    - apply Qltb_false. rewrite <- Zle_Qle. by apply Z.ltb_ge. }
  split; [|split].
  - intros ms Hms. unfold normalizeIat. rewrite Hgt.
    assert (E : (100000000000 <? ms) = true) by (apply Z.ltb_lt; lia).
    rewrite E. split; [reflexivity|].
    apply floor_div_1000. lia.
  - intros s Hs. unfold normalizeIat. rewrite Hgt.
    apply Z.ltb_ge in Hs. rewrite Hs.
    unfold Num.of_Z, Num.floor, Num.of_Z. by rewrite Qfloor_inject_Z.
  - assert (Hfl : forall x, Num.floor (Num.floor x) = Num.floor x).
    { intros [| |q]; try reflexivity.
      unfold Num.floor, Num.of_Z. by rewrite Qfloor_inject_Z. }
    intros [n|t]; unfold normalizeIat; [|apply Hfl].
    destruct (Num.gt n _); apply Hfl.
Qed.

Lemma normalizeIat_whole_witness :
  normalizeIat (IatNumber (Num.of_Z 1700000000123))
  = normalizeIat (IatDate (Num.of_Z 1700000000123))
  /\ normalizeIat (IatNumber (Num.of_Z 100000000000)) = Num.of_Z 100000000000.
Proof.
  destruct normalizeIat_whole as (Hms & Hs & _).
  split; [apply Hms; split; [reflexivity | discriminate] | apply Hs; discriminate].
Defined.

(* ================================================================== *)
(** ** Further properties: the encoding of the signer *)
(* ================================================================== *)

Lemma range_In (n : nat) (z : Z) :
  0 <= z < Z.of_nat n -> In z (map Z.of_nat (seq 0 n)).
Proof.
  intros H. apply in_map_iff. exists (Z.to_nat z).
  split; [lia|]. apply in_seq. lia.
Qed.

Lemma forall_range (n : nat) (p : Z -> bool) :
  forallb p (map Z.of_nat (seq 0 n)) = true ->
  forall z, 0 <= z < Z.of_nat n -> p z = true.
Proof.
  intros H z Hz. rewrite forallb_forall in H. by apply H, range_In.
Qed.

Lemma forall_range2 (n : nat) (p : Z -> Z -> bool) :
  forallb (fun a => forallb (p a) (map Z.of_nat (seq 0 n)))
          (map Z.of_nat (seq 0 n)) = true ->
  forall a b, 0 <= a < Z.of_nat n -> 0 <= b < Z.of_nat n -> p a b = true.
Proof.
  intros H a b Ha Hb.
  apply (forall_range n (p a)); [|exact Hb].
  by apply (forall_range n (fun a => forallb (p a) (map Z.of_nat (seq 0 n)))).
Qed.

Lemma index_digit (i : Z) :
  0 <= i < 64 ->
  Base64Inverse.index (Base64.digit Base64.alphabet_url i) = i.
Proof.
  intros H. apply Z.eqb_eq.
  apply (forall_range 64
           (fun i => Base64Inverse.index (Base64.digit Base64.alphabet_url i) =? i));
    [vm_compute; reflexivity | exact H].
Qed.

Lemma sextet_range (x : Z) : 0 <= Z.land x 63 < 64.
Proof.
  change 63 with (Z.ones 6). rewrite Z.land_ones by lia.
  apply Z.mod_pos_bound. lia.
Qed.

Lemma byte0_sextets (a b : Z) :
  byte_range a -> byte_range b ->
  Base64Inverse.byte0 (Base64.sextet0 a) (Base64.sextet1 a b) = a.
Proof.
  intros Ha Hb. apply Z.eqb_eq.
  by apply (forall_range2 256
    (fun a b => Base64Inverse.byte0 (Base64.sextet0 a) (Base64.sextet1 a b) =? a));
    [vm_compute|..].
Qed.

Lemma byte1_sextets (a b c : Z) :
  byte_range a -> byte_range b -> byte_range c ->
  Base64Inverse.byte1 (Base64.sextet1 a b) (Base64.sextet2 b c) = b.
Proof.
  intros Ha Hb Hc.
  assert (H1 : Z.land (Base64.sextet1 a b) 15 = Z.land b 240 / 16).
  { apply Z.eqb_eq.
    by apply (forall_range2 256
      (fun a b => Z.land (Base64.sextet1 a b) 15 =? Z.land b 240 / 16));
      [vm_compute|..]. }
  unfold Base64Inverse.byte1. rewrite H1.
  apply Z.eqb_eq.
  by apply (forall_range2 256
    (fun b c => Z.lor (Z.shiftl (Z.land b 240 / 16) 4)
                      (Z.shiftr (Base64.sextet2 b c) 2) =? b));
    [vm_compute|..].
Qed.

Lemma byte2_sextets (b c : Z) :
  byte_range b -> byte_range c ->
  Base64Inverse.byte2 (Base64.sextet2 b c) (Base64.sextet3 c) = c.
Proof.
  intros Hb Hc. apply Z.eqb_eq.
  by apply (forall_range2 256
    (fun b c => Base64Inverse.byte2 (Base64.sextet2 b c) (Base64.sextet3 c) =? c));
    [vm_compute|..].
Qed.

Lemma decode_encode (bytes : list Z) :
  Forall byte_range bytes ->
  Base64Inverse.decode (Base64.encode_url_nopad bytes) = bytes.
Proof.
  assert (H0 : byte_range 0) by (unfold byte_range; lia).
  induction bytes as [|a|a b|a b c r IH] using list_ind3; intros Hr.
  - reflexivity.
  - apply Forall_cons in Hr as [Ha _].
    cbn [Base64.encode_url_nopad Base64Inverse.decode].
    rewrite !index_digit by apply sextet_range.
    by rewrite byte0_sextets.
  - apply Forall_cons in Hr as [Ha Hr]. apply Forall_cons in Hr as [Hb _].
    cbn [Base64.encode_url_nopad Base64Inverse.decode].
    rewrite !index_digit by apply sextet_range.
    by rewrite byte0_sextets, (byte1_sextets a b 0).
  - apply Forall_cons in Hr as [Ha Hr]. apply Forall_cons in Hr as [Hb Hr].
    apply Forall_cons in Hr as [Hc Hr].
    cbn [Base64.encode_url_nopad Base64Inverse.decode].
    rewrite !index_digit by apply sextet_range.
    by rewrite byte0_sextets, (byte1_sextets a b c), byte2_sextets, IH.
Qed.

Lemma digit_url_safe (i : Z) : url_safe (Base64.digit Base64.alphabet_url i) = true.
Proof. apply (digit_forall url_safe); reflexivity. Qed.

Lemma encode_url_nopad_length (bytes : list Z) :
  String.length (Base64.encode_url_nopad bytes)
  = ((4 * List.length bytes + 2) / 3)%nat.
Proof.
  induction bytes as [|a|a b|a b c r IH] using list_ind3; try reflexivity.
  cbn [Base64.encode_url_nopad String.length List.length]. rewrite IH.
  replace (4 * S (S (S (List.length r))) + 2)%nat
    with (4 * 3 + (4 * List.length r + 2))%nat by lia.
  rewrite (Nat.div_add_l 4 3) by lia. lia.
Qed.

(** X10. What [base64UrlEncodeBytes] returns.  Where [toBase64] has an
    encoder, the encoding of [n] bytes is made of letters, digits, [-] and
    [_] only (no [+], [/], [=] or dot) and has the whole part of
    [(4n + 2) / 3] characters. *)
Theorem base64UrlEncodeBytes_shape (host : Host) (bytes : list Z) :
  can_encode host = true ->
  Forall byte_range bytes ->
  exists s,
    base64UrlEncodeBytes host bytes = Ok s
    /\ Str.all url_safe s = true
    /\ String.length s = ((4 * List.length bytes + 2) / 3)%nat.
Proof.
  intros Hc Hr. exists (Base64.encode_url_nopad bytes).
  split; [by apply base64UrlEncodeBytes_ok|].
  split; [apply encode_url_nopad_all, digit_url_safe|].
  apply encode_url_nopad_length.
Qed.

Lemma base64UrlEncodeBytes_shape_witness :
  exists s,
    base64UrlEncodeBytes Example.edge [251; 255; 190; 62] = Ok s
    /\ Str.all url_safe s = true
    /\ String.length s = 6%nat.
Proof.
  apply (base64UrlEncodeBytes_shape Example.edge [251; 255; 190; 62] eq_refl).
  apply forallb_byte_range. reflexivity.
Defined.

(** X11. [base64UrlEncodeBytes] loses nothing: two byte arrays with the
    same encoding are the same array, also when their lengths are not
    multiples of three and the padding is stripped. *)
Theorem base64UrlEncodeBytes_injective (host : Host) (bytes bytes' : list Z)
    (s : string) :
  Forall byte_range bytes ->
  Forall byte_range bytes' ->
  base64UrlEncodeBytes host bytes = Ok s ->
  base64UrlEncodeBytes host bytes' = Ok s ->
  bytes = bytes'.
Proof.
  intros Hr Hr' H H'.
  destruct (can_encode host) eqn:Hc.
  - rewrite (base64UrlEncodeBytes_ok host bytes Hr Hc) in H.
    rewrite (base64UrlEncodeBytes_ok host bytes' Hr' Hc) in H'.
    rewrite <- (decode_encode bytes Hr), <- (decode_encode bytes' Hr').
    congruence.
  - unfold base64UrlEncodeBytes in H.
    rewrite (toBase64_throws host bytes Hc) in H. discriminate.
Qed.

Lemma base64UrlEncodeBytes_injective_witness :
  [251; 255; 190; 62] = map Z.of_nat [251; 255; 190; 62]%nat.
Proof.
  apply (base64UrlEncodeBytes_injective Example.node [251; 255; 190; 62]
           (map Z.of_nat [251; 255; 190; 62]%nat) "-_--Pg").
  - apply forallb_byte_range. reflexivity.
  - apply forallb_byte_range. reflexivity.
  - reflexivity.
  - reflexivity.
Defined.

(* ================================================================== *)
(** ** Further properties: the shape of the token *)
(* ================================================================== *)

Lemma round_length (st : list Z) (kw : Z * Z) :
  List.length st = 8%nat -> List.length (SHA256.round st kw) = 8%nat.
Proof.
  intros H. do 9 (destruct st as [|? st]; try discriminate). reflexivity.
Qed.

Lemma rounds_length (l : list (Z * Z)) (st : list Z) :
  List.length st = 8%nat -> List.length (fold_left SHA256.round l st) = 8%nat.
Proof.
  revert st. induction l as [|kw l IH]; intros st H; [exact H|].
  cbn [fold_left]. apply IH. by apply round_length.
Qed.

Lemma zip_add_length (xs ys : list Z) :
  List.length xs = List.length ys ->
  List.length (SHA256.zip_add xs ys) = List.length xs.
Proof.
  revert ys. induction xs as [|x xs IH]; intros [|y ys] H; try discriminate;
    [reflexivity|].
  cbn. f_equal. apply IH. by injection H.
Qed.

Lemma compress_length (h block : list Z) :
  List.length h = 8%nat -> List.length (SHA256.compress h block) = 8%nat.
Proof.
  intros H. unfold SHA256.compress.
  rewrite zip_add_length; [exact H|]. by rewrite rounds_length.
Qed.

Lemma digest_length (msg : list Z) : List.length (SHA256.digest msg) = 32%nat.
Proof.
  unfold SHA256.digest.
  assert (H : List.length
                (fold_left SHA256.compress
                   (SHA256.blocks (List.length (SHA256.pad msg)) (SHA256.pad msg))
                   SHA256.H0) = 8%nat).
  { generalize (SHA256.blocks (List.length (SHA256.pad msg)) (SHA256.pad msg)).
    intros bl. assert (H0 : List.length SHA256.H0 = 8%nat) by reflexivity.
    revert H0. generalize SHA256.H0.
    induction bl as [|b bl IH]; intros h Hh; [exact Hh|].
    cbn [fold_left]. apply IH. by apply compress_length. }
  revert H.
  generalize (fold_left SHA256.compress
                (SHA256.blocks (List.length (SHA256.pad msg)) (SHA256.pad msg))
                SHA256.H0).
  intros ws H. do 9 (destruct ws as [|? ws]; try discriminate). reflexivity.
Qed.

Lemma encoded_header_const (host : Host) : JwtSpec.encoded_header host = ENCODED_HEADER.
Proof. reflexivity. Qed.

(** X12. The shape of a token.  Every token that [signJwt] returns is the
    same first segment, the encoding of the header [{alg: HS256, typ: JWT}],
    a dot, the encoding of the serialized claims, a dot, and a signature of
    exactly 43 characters; the two last segments are made of letters,
    digits, [-] and [_] only, so the token has exactly two dots and no
    padding. *)
Theorem signJwt_shape (host : Host) (claims : obj) (secret token : string) :
  signJwt host claims secret = Ok token ->
  exists body signature,
    token = ENCODED_HEADER +:+ "." +:+ body +:+ "." +:+ signature
    /\ base64UrlEncodeString host (JSON.stringify host claims) = Ok body
    /\ Str.all url_safe body = true
    /\ Str.all url_safe signature = true
    /\ String.length signature = 43%nat.
Proof.
  intros H. pose proof (signJwt_inv _ _ _ _ H) as ->.
  assert (Hc : can_encode host = true).
  { destruct (can_sign host secret) eqn:E.
    - unfold can_sign in E. by apply andb_true_iff in E as [[? _]%andb_true_iff _].
    - destruct (signJwt_throws host claims secret E) as [e He]. congruence. }
  exists (JwtSpec.encoded_claims host claims),
         (JwtSpec.base64url (JwtSpec.signature host claims secret)).
  split; [unfold JwtSpec.token; by rewrite encoded_header_const|].
  split; [by apply base64UrlEncodeString_ok|].
  split; [apply encode_url_nopad_all, digit_url_safe|].
  split; [apply encode_url_nopad_all, digit_url_safe|].
  unfold JwtSpec.base64url. rewrite encode_url_nopad_length.
  unfold JwtSpec.signature, HMAC.sha256. by rewrite digest_length.
Qed.

Lemma signJwt_shape_witness :
  exists body signature,
    JwtSpec.token Example.node Example.jwt_io_claims Example.jwt_io_secret
    = ENCODED_HEADER +:+ "." +:+ body +:+ "." +:+ signature
    /\ String.length signature = 43%nat.
Proof.
  destruct (signJwt_shape Example.node Example.jwt_io_claims Example.jwt_io_secret
              (JwtSpec.token Example.node Example.jwt_io_claims Example.jwt_io_secret))
    as (body & signature & Ht & _ & _ & _ & Hl).
  { by apply signJwt_ok. }
  by exists body, signature.
Defined.

Lemma members_hosts (h1 h2 : Host) (o : obj) :
  Number_toString_other h1 = Number_toString_other h2 ->
  JSON.members h1 o = JSON.members h2 o.
Proof.
  intros Hn. induction o as [|[k v] r IH]; [reflexivity|].
  cbn [JSON.members]. rewrite IH.
  assert (Hp : JSON.property h1 v = JSON.property h2 v).
  { destruct v as [| | |[| |q]|]; try reflexivity.
    cbn. by rewrite Hn. }
  by rewrite Hp.
Qed.

Lemma stringify_hosts (h1 h2 : Host) (o : obj) :
  Number_toString_other h1 = Number_toString_other h2 ->
  JSON.stringify h1 o = JSON.stringify h2 o.
Proof.
  intros Hn. unfold JSON.stringify. by rewrite (members_hosts h1 h2 o Hn).
Qed.

(** X9. The token does not depend on the encoder of the runtime.  On two
    hosts where the signer can run and numbers print alike, one with
    [Buffer] and one with only [btoa], or with both, [signJwt] returns the
    same token for the same claims and secret. *)
Theorem signJwt_same_on_hosts (h1 h2 : Host) (claims : obj) (secret : string) :
  can_sign h1 secret = true ->
  can_sign h2 secret = true ->
  Number_toString_other h1 = Number_toString_other h2 ->
  signJwt h1 claims secret = signJwt h2 claims secret
  /\ exists token, signJwt h1 claims secret = Ok token.
Proof.
  intros H1 H2 Hn.
  rewrite (signJwt_ok h1 claims secret H1), (signJwt_ok h2 claims secret H2).
  split; [|eauto]. f_equal.
  unfold JwtSpec.token, JwtSpec.signature, JwtSpec.signing_input,
    JwtSpec.encoded_header, JwtSpec.encoded_claims.
  by rewrite !(stringify_hosts h1 h2 _ Hn).
Qed.

Lemma signJwt_same_on_hosts_witness :
  signJwt Example.node Example.jwt_io_claims Example.jwt_io_secret
  = signJwt Example.edge Example.jwt_io_claims Example.jwt_io_secret.
Proof.
  apply (signJwt_same_on_hosts Example.node Example.edge); reflexivity.
Defined.

(** X13. Where the signer cannot run.  Without [Buffer] and [btoa],
    [signJwt] throws the plain [Error] of the missing [btoa], whether Web
    Crypto is there or not; with an encoder and without Web Crypto, it
    throws the plain [Error] of the missing Web Crypto API.  Neither is an
    [OgPilotError]. *)
Theorem signJwt_unavailable (host : Host) (claims : obj) (secret : string) :
  (can_encode host = false ->
   signJwt host claims secret
   = Throw (ThrowError (Error_ "btoa is not available in this environment")))
  /\ (can_encode host = true -> has_subtle host = false ->
      signJwt host claims secret
      = Throw (ThrowError (Error_
          "Web Crypto API is not available; requires a Node 18+ or Edge runtime."))).
Proof.
  split.
  - intros Hc. unfold signJwt, base64UrlEncodeString, base64UrlEncodeBytes.
    by rewrite !toBase64_throws.
  - intros Hc Hs. unfold signJwt.
    rewrite !base64UrlEncodeString_ok by exact Hc. cbn.
    unfold hmacSha256, getSubtleCrypto. by rewrite Hs.
Qed.

Lemma signJwt_unavailable_witness :
  signJwt (mkHost false false false None Example.parse_http Example.decimal)
          Example.jwt_io_claims Example.jwt_io_secret
  = Throw (ThrowError (Error_ "btoa is not available in this environment"))
  /\ signJwt (mkHost true false false None Example.parse_http Example.decimal)
             Example.jwt_io_claims Example.jwt_io_secret
     = Throw (ThrowError (Error_
         "Web Crypto API is not available; requires a Node 18+ or Edge runtime.")).
Proof.
  split.
  - apply (proj1 (signJwt_unavailable _ _ _)). reflexivity.
  - apply (proj2 (signJwt_unavailable _ _ _)); reflexivity.
Defined.

(* ================================================================== *)
(** ** The module's configuration and its clients *)
(* ================================================================== *)

Lemma fresh_config_None (reg : Index.Registry) :
  Index.configs reg !! fresh (dom (Index.configs reg)) = None.
Proof. apply not_elem_of_dom. apply is_fresh. Qed.

Lemma load_live (env : string -> option string) : live (Index.load env).
Proof.
  unfold live, Index.load, Index.new_Configuration. cbn.
  rewrite lookup_insert_eq. by eexists.
Qed.

Lemma lookup_new_Configuration (env : string -> option string)
    (options : Config.OgPilotConfigOptions) (reg : Index.Registry) (l : loc)
    (cfg : Config.Configuration) :
  Index.configs reg !! l = Some cfg ->
  Index.configs (snd (Index.new_Configuration env options reg)) !! l = Some cfg.
Proof.
  intros H. unfold Index.new_Configuration. cbn.
  rewrite lookup_insert_ne; [exact H|].
  intros <-. by rewrite fresh_config_None in H.
Qed.

Lemma configure_shared_aux
    (updater : Config.Configuration -> Config.Configuration)
    (reg : Index.Registry) (c : Index.ClientObj) :
  Index.configs (snd (Index.configure updater reg)) !! Index.defaultConfig reg
  = updater <$> Index.configs reg !! Index.defaultConfig reg
  /\ (Index.client_config c <> Index.defaultConfig reg ->
      Index.config_of (snd (Index.configure updater reg)) c = Index.config_of reg c).
Proof.
  unfold Index.config_of, Index.configure. cbn. split.
  - by rewrite lookup_alter_eq.
  - intros Hne. by rewrite lookup_alter_ne.
Qed.

(** X14. [resetConfig] replaces the module's configuration by a new object
    and leaves the old one as it was: a client made before the reset, by
    [client()] or by [createClient], keeps the configuration it had, while
    [client()] after the reset reads a configuration built from no options,
    which is not the object of any earlier client. *)
Theorem resetConfig_keeps_clients (env : string -> option string)
    (reg : Index.Registry) (c : Index.ClientObj) (cfg : Config.Configuration) :
  Index.config_of reg c = Some cfg ->
  let reg' := Index.resetConfig env reg in
  Index.config_of reg' c = Some cfg
  /\ Index.config_of reg' (fst (Index.client env reg'))
     = Some (Config.new_Configuration env Index.no_options)
  /\ snd (Index.client env reg') = reg'
  /\ Index.getConfig reg' <> Index.client_config c.
Proof.
  intros H reg'. unfold Index.config_of in *.
  unfold reg', Index.resetConfig, Index.new_Configuration, Index.client,
    Index.getConfig. cbn.
  assert (Hne : fresh (dom (Index.configs reg)) <> Index.client_config c).
  { intros E. rewrite <- E in H. by rewrite fresh_config_None in H. }
  repeat split.
  - by rewrite lookup_insert_ne.
  - by rewrite lookup_insert_eq.
  - exact Hne.
Qed.

Lemma resetConfig_keeps_clients_witness :
  let env := fun _ : string => Some "k" in
  let reg := Index.load (fun _ => None) in
  let c := fst (Index.client (fun _ => None) reg) in
  Index.config_of (Index.resetConfig env reg) c
  = Some (Config.new_Configuration (fun _ => None) Index.no_options)
  /\ Index.config_of (Index.resetConfig env reg)
       (fst (Index.client env (Index.resetConfig env reg)))
     = Some (Config.new_Configuration env Index.no_options).
Proof.
  intros env reg c.
  assert (H : Index.config_of reg c
              = Some (Config.new_Configuration (fun _ => None) Index.no_options))
    by (vm_compute; reflexivity).
  pose proof (resetConfig_keeps_clients env reg c _ H) as X.
  cbv zeta in X. destruct X as (X1 & X2 & _). by split.
Defined.

(** X15. [configure] runs the updater on the module's live configuration
    object and returns that object, without replacing it: a client made by
    [client()] before the call reads the updated fields afterwards, and a
    client on another configuration object reads what it read before. *)
Theorem configure_shared (env : string -> option string)
    (updater : Config.Configuration -> Config.Configuration)
    (reg : Index.Registry) (c : Index.ClientObj) :
  let c0 := fst (Index.client env reg) in
  let r := Index.configure updater reg in
  fst r = Index.getConfig (snd r)
  /\ Index.getConfig (snd r) = Index.getConfig reg
  /\ Index.config_of (snd r) c0 = updater <$> Index.config_of reg c0
  /\ (Index.client_config c <> Index.getConfig reg ->
      Index.config_of (snd r) c = Index.config_of reg c).
Proof.
  intros c0 r.
  unfold c0, r, Index.config_of, Index.configure, Index.client, Index.getConfig.
  cbn. repeat split.
  - by rewrite lookup_alter_eq.
  - intros Hne. by rewrite lookup_alter_ne.
Qed.

Lemma configure_shared_witness :
  let reg := Index.load (fun _ => None) in
  let updater := fun cfg : Config.Configuration =>
    Config.mkConfiguration (Some "sk_test_0123456789") (Config.domain cfg)
      (Config.baseUrl cfg) (Config.openTimeoutMs cfg) (Config.readTimeoutMs cfg)
      (Config.fetch cfg) (Config.stripExtensions cfg) in
  let c := fst (Index.createClient (fun _ => None)
                    (Index.ArgOptions Index.no_options) reg) in
  let reg1 := snd (Index.createClient (fun _ => None)
                    (Index.ArgOptions Index.no_options) reg) in
  Index.config_of (snd (Index.configure updater reg1)) c = Index.config_of reg1 c.
Proof.
  intros reg updater c reg1.
  pose proof (configure_shared (fun _ => None) updater reg1 c) as X.
  cbv zeta in X. destruct X as (_ & _ & _ & X).
  apply X. vm_compute. discriminate.
Defined.

(** X16. [createClient] hands its argument to the constructor of [Client].
    The module's configuration and every earlier client are as before.
    Given a plain options object, the client gets a configuration object of
    its own, built from the options, and neither [configure] nor
    [resetConfig] afterwards changes what the client reads.  Given a
    [Configuration] instance, the client keeps that very object and no
    object is made: given the module's configuration, the client reads
    what [configure] makes of it afterwards. *)
Theorem createClient_configuration (env : string -> option string)
    (arg : Index.ClientArg) (reg : Index.Registry) :
  live reg ->
  let c := fst (Index.createClient env arg reg) in
  let reg1 := snd (Index.createClient env arg reg) in
  Index.getConfig reg1 = Index.getConfig reg
  /\ (forall c0 cfg, Index.config_of reg c0 = Some cfg ->
                     Index.config_of reg1 c0 = Some cfg)
  /\ match arg with
     | Index.ArgOptions options =>
         Index.config_of reg1 c = Some (Config.new_Configuration env options)
         /\ (forall updater,
               Index.config_of (snd (Index.configure updater reg1)) c
               = Some (Config.new_Configuration env options))
         /\ (forall env',
               Index.config_of (Index.resetConfig env' reg1) c
               = Some (Config.new_Configuration env options))
     | Index.ArgConfiguration l =>
         reg1 = reg
         /\ Index.client_config c = l
         /\ (l = Index.getConfig reg ->
             forall updater,
               Index.config_of (snd (Index.configure updater reg1)) c
               = updater <$> Index.config_of reg c)
     end.
Proof.
  intros [cfg0 Hlive] c reg1. destruct arg as [l|options].
  - split; [reflexivity|]. split; [by intros c0 cfg H|].
    split; [reflexivity|]. split; [reflexivity|].
    intros -> updater.
    exact (proj1 (configure_shared_aux updater reg c)).
  - assert (Hc : Index.config_of reg1 c
                 = Some (Config.new_Configuration env options)).
    { unfold Index.config_of, c, reg1, Index.createClient, Index.new_Client,
        Index.new_Configuration. cbn. by rewrite lookup_insert_eq. }
    assert (Hne : Index.client_config c <> Index.defaultConfig reg).
    { unfold c, Index.createClient, Index.new_Client, Index.new_Configuration.
      cbn. intros E. rewrite <- E in Hlive.
      by rewrite fresh_config_None in Hlive. }
    split; [reflexivity|]. split; [|split; [exact Hc|split]].
    + intros c0 cfg H. unfold Index.config_of, reg1, Index.createClient,
        Index.new_Client. cbn.
      by apply (lookup_new_Configuration env options reg).
    + intros updater.
      destruct (configure_shared_aux updater reg1 c) as [_ H].
      rewrite H; [exact Hc|]. exact Hne.
    + intros env'.
      unfold Index.config_of, Index.resetConfig. cbn.
      by apply (lookup_new_Configuration env' Index.no_options reg1).
Qed.

Lemma createClient_configuration_witness :
  let reg := Index.load (fun _ => Some "k") in
  let options := Config.mkOptions (Some "sk_test_0123456789") None None None None
                   None None in
  let own := Index.createClient (fun _ => None) (Index.ArgOptions options) reg in
  let shared := Index.createClient (fun _ => None)
                  (Index.ArgConfiguration (Index.getConfig reg)) reg in
  Index.config_of (snd own) (fst own)
  = Some (Config.new_Configuration (fun _ => None) options)
  /\ Index.client_config (fst shared) = Index.getConfig reg.
Proof.
  intros reg options own shared. split.
  - pose proof (createClient_configuration (fun _ => None)
                  (Index.ArgOptions options) reg
                  (load_live (fun _ => Some "k"))) as X.
    cbv zeta in X. exact (proj1 (proj2 (proj2 X))).
  - pose proof (createClient_configuration (fun _ => None)
                  (Index.ArgConfiguration (Index.getConfig reg)) reg
                  (load_live (fun _ => Some "k"))) as X.
    cbv zeta in X. exact (proj1 (proj2 (proj2 (proj2 X)))).
Defined.

(* ================================================================== *)
(** ** The template helpers *)
(* ================================================================== *)

Lemma with_template_run (template : string) (params : option loc) (st : State) :
  let p := match params with Some l => lookup_obj st l | None => [] end in
  Index.with_template template params st
  = (Ok (fresh_loc st),
     st_with st (fresh_loc st) (Obj.set p "template" (VStr template))).
Proof.
  unfold Index.with_template. rewrite bind_run.
  destruct params as [l|]; reflexivity.
Qed.

(** X17. The template helpers ([createBlogPostImage], [createPodcastImage]
    and the others, through [createTemplateImage]) work on a copy of params
    in which [template] is the helper's own name: no object of the caller is
    written to, whether the call returns or throws, and when the call
    returns, the token that went to the transport is signed with the
    configured key over claims whose [template] is the helper's name, also
    where params had another [template], and whose other properties, apart
    from [iat], [iss] and [sub], are those of params. *)
Theorem createTemplateImage_claims (host : Host) (config : Config.Configuration)
    (template : string) (params : option loc) (options : CreateImageOptions)
    (st : State) :
  let p := match params with Some l => lookup_obj st l | None => [] end in
  let r := Index.createTemplateImage host config template params options st in
  (forall l o, store st !! l = Some o -> store (snd r) !! l = Some o)
  /\ (forall ret, fst r = Ok ret ->
      exists claims secret token base,
        Config.apiKey config = Some secret
        /\ signJwt host claims secret = Ok token
        /\ parse_base host (Config.baseUrl config) = Some base
        /\ Obj.get claims "template" = VStr template
        /\ (forall k, k <> "template" -> k <> "iat" -> k <> "iss" -> k <> "sub" ->
                      Obj.get claims k = Obj.get p k)
        /\ fetched (log (snd r))
           = fetched (log st)
             ++ [base_scheme base +:+ "://" +:+ base_authority base
                 +:+ "/api/v1/images?token=" +:+ token]).
Proof.
  intros p r.
  set (st' := st_with st (fresh_loc st) (Obj.set p "template" (VStr template))).
  assert (Hr : r = Client.createImage host config (Some (fresh_loc st)) options st').
  { unfold r, Index.createTemplateImage, Index.createImage.
    rewrite bind_run. by rewrite with_template_run. }
  destruct (createImage_run host config (Some (fresh_loc st)) options st')
    as (o' & Ho & Hrun).
  cbn [entry fst snd] in Ho, Hrun.
  assert (Hp : lookup_obj st' (fresh_loc st) = Obj.set p "template" (VStr template))
    by apply lookup_st_with.
  rewrite Hp in Ho, Hrun. rewrite <- Hr in Hrun. clear Hr.
  set (st1 := st_with st' (fresh_loc st') o') in Hrun.
  assert (Hframe : forall l o, store st !! l = Some o -> store st1 !! l = Some o).
  { intros l o H. apply st_with_frame. by apply st_with_frame. }
  destruct (Claims.payload_of host config (Obj.set p "template" (VStr template))
              (o_iat options)) as [o|t] eqn:Ep;
    [|rewrite Hrun; split; [exact Hframe | discriminate]].
  cbn in Hrun.
  destruct (Claims.url_of host config o) as [url|t] eqn:Eu;
    [|rewrite Hrun; split; [exact Hframe | discriminate]].
  destruct (Client.fetchImpl host config) as [f|];
    [|rewrite Hrun; split; [exact Hframe | discriminate]].
  destruct (Client.requestHeaders (default false (o_json options))
              (default [] (o_headers options))) as [hs|t];
    [|rewrite Hrun; split; [exact Hframe | discriminate]].
  rewrite Hrun. cbn [fst snd]. split; [exact Hframe|].
  intros ret _.
  destruct (url_of_ok host config o url Eu) as (secret & token & base & Hk & Hs & Hb & ->).
  exists o, secret, token, base.
  split; [exact Hk|]. split; [exact Hs|]. split; [exact Hb|]. split; [|split].
  - rewrite (payload_of_get host config _ _ o "template" Ep) by discriminate.
    rewrite get_with_iat by discriminate. apply get_set_eq.
  - intros k Ht Hi Hiss Hsub.
    rewrite (payload_of_get host config _ _ o k Ep Hiss Hsub).
    rewrite get_with_iat by exact Hi.
    apply get_set_ne. congruence.
  - unfold st_log. cbn [log]. rewrite fetched_app, fetched_events_of.
    f_equal. f_equal. apply toString_token.
    rewrite (signJwt_inv host o secret token Hs).
    apply (token_form_safe host o secret).
Qed.

Lemma createTemplateImage_claims_witness :
  let config := Example.config_with (Example.answers Example.redirect_302) in
  let p := [("title", VStr "x"); ("template", VStr "page")] in
  let r := Index.createBlogPostImage Example.node config (Some 1%positive)
             Example.no_options (Example.with_params p) in
  store (snd r) !! 1%positive = Some p
  /\ exists claims token,
       signJwt Example.node claims "sk_test_0123456789" = Ok token
       /\ Obj.get claims "template" = VStr "blog_post"
       /\ Obj.get claims "title" = VStr "x"
       /\ fetched (log (snd r)) = ["https://ogpilot.com/api/v1/images?token=" +:+ token].
Proof.
  intros config p r.
  pose proof (createTemplateImage_claims Example.node config "blog_post"
                (Some 1%positive) Example.no_options (Example.with_params p)) as X.
  cbv zeta in X. destruct X as [X1 X2]. split.
  - apply X1. reflexivity.
  - assert (Hret : fst r = Ok (RetString "https://example.com/img.png"))
      by (vm_compute; reflexivity).
    destruct (X2 _ Hret) as (claims & secret & token & base & Hk & Hs & Hb & Ht & Ho & Hf).
    vm_compute in Hk. injection Hk as <-.
    vm_compute in Hb. injection Hb as <-.
    exists claims, token.
    split; [exact Hs|]. split; [exact Ht|]. split.
    + rewrite (Ho "title") by discriminate. reflexivity.
    + exact Hf.
Defined.

(* ================================================================== *)
(** ** Constructed configurations *)
(* ================================================================== *)

(** X18. A configuration made by the constructor always has a combined
    deadline: the open timeout (5000 where the options give none) plus the
    read timeout (10000 where the options give none).  So the case without
    a deadline, both timeouts [undefined], never comes from the constructor
    alone; and with neither timeout in the options, a [request] on that
    configuration that gets as far as the transport arms a timer of 15000
    ms before the call, passes the signal that aborts after 15000 ms, and
    clears the timer after the call. *)
Theorem constructed_deadline (env : string -> option string)
    (options : Config.OgPilotConfigOptions) (host : Host) (url : URL)
    (json : bool) (headers : list (string * string)) (st : State)
    (f : Transport) (hs : Headers) :
  let config := Config.new_Configuration env options in
  Client.totalTimeoutMs config
  = Some (Num.add (default (Num.of_Z 5000) (Config.opt_openTimeoutMs options))
                  (default (Num.of_Z 10000) (Config.opt_readTimeoutMs options)))
  /\ (Config.opt_openTimeoutMs options = None ->
      Config.opt_readTimeoutMs options = None ->
      Client.fetchImpl host config = Some f ->
      Client.requestHeaders json headers = Ok hs ->
      log (snd (Client.request host config url json headers st))
      = log st
        ++ [EvSetTimeout (Num.of_Z 15000);
            EvFetch (URLM.toString url)
              (mkInit "GET" hs "manual" (mkSignal (Some (Num.of_Z 15000))));
            EvClearTimeout]).
Proof.
  intros config. split; [reflexivity|].
  intros Ho Hr Hf Hhs.
  rewrite (request_run host config url json headers st), Hf, Hhs.
  cbn [snd st_log log]. f_equal.
  unfold Claims.events_of, Claims.init_of, Client.totalTimeoutMs, config. cbn.
  rewrite Ho, Hr. reflexivity.
Qed.

Lemma constructed_deadline_witness :
  let url := mkURL "https" "ogpilot.com" ENDPOINT_PATH [("token", "t")] in
  let config :=
    Config.new_Configuration (fun _ => None)
      (Config.mkOptions None None None None None
         (Some (Example.answers Example.redirect_302)) None) in
  log (snd (Client.request Example.node config url false [] Example.empty))
  = [EvSetTimeout (Num.of_Z 15000);
     EvFetch "https://ogpilot.com/api/v1/images?token=t"
       (mkInit "GET" [] "manual" (mkSignal (Some (Num.of_Z 15000))));
     EvClearTimeout].
Proof.
  exact (proj2 (constructed_deadline (fun _ => None)
                  (Config.mkOptions None None None None None
                     (Some (Example.answers Example.redirect_302)) None)
                  Example.node
                  (mkURL "https" "ogpilot.com" ENDPOINT_PATH [("token", "t")])
                  false [] Example.empty
                  (Example.answers Example.redirect_302) [])
               eq_refl eq_refl eq_refl eq_refl).
Defined.

(** X19. An empty string given as [apiKey] in the options is kept by the
    constructor, whatever the environment holds, since only [undefined] and
    [null] fall back to [OG_PILOT_API_KEY].  With such a configuration and
    no [sub] in params, [createImage] fails with a [ConfigurationError]
    before the transport is called; when the issuer is present and
    non-empty, the error is the one of the missing key prefix. *)
Theorem createImage_empty_key (env : string -> option string)
    (options : Config.OgPilotConfigOptions) (host : Host)
    (params : option loc) (opts : CreateImageOptions) (st : State) :
  let config := Config.new_Configuration env options in
  let p := lookup_obj (snd (entry params st)) (fst (entry params st)) in
  let r := Client.createImage host config params opts st in
  Config.opt_apiKey options = Some "" ->
  nullish (Obj.get p "sub") = true ->
  exists e,
    fst r = Throw (ThrowError e)
    /\ instanceof_ConfigurationError e = true
    /\ log (snd r) = log st
    /\ (blank host (iss_claim config p) = false ->
        e = ConfigurationError "OG Pilot API key prefix is missing").
Proof.
  intros config p r Hk Hsub.
  assert (Hkey : Config.apiKey config = Some "").
  { unfold config. cbn. by rewrite Hk. }
  assert (exists e,
            Claims.payload_of host config p (o_iat opts) = Throw (ThrowError e)
            /\ instanceof_ConfigurationError e = true
            /\ (blank host (iss_claim config p) = false ->
                e = ConfigurationError "OG Pilot API key prefix is missing"))
    as (e & He & Hc & Hm).
  { unfold Claims.payload_of.
    set (o1 := Claims.with_iat p (o_iat opts)).
    assert (H1 : forall k, k <> "iat" -> Obj.get o1 k = Obj.get p k)
      by (intros; by apply get_with_iat).
    pose proof (with_iss_cases host config o1) as Hi.
    rewrite (iss_claim_ext config p o1) in Hi by by apply H1.
    destruct (Claims.with_iss config o1) as [o2|t]; cbn.
    { destruct Hi as [Hi Hi'].
      unfold Claims.with_sub.
      rewrite (Hi' "sub"), (H1 "sub"), Hsub, Hkey by done. cbn.
      unfold Claims.validate.
      rewrite !get_set_eq, get_set_ne, Hi by done.
      destruct (blank host (iss_claim config p)); eexists; by split. }
    destruct Hi as (e & -> & He & Hb). exists e.
    split; [reflexivity|]. split; [exact He|]. by rewrite Hb. }
  exists e.
  destruct (createImage_early host config params opts st (ThrowError e))
    as [H1 H2]; [fold p; by rewrite He|].
  done.
Qed.

Lemma createImage_empty_key_witness :
  let options := Config.mkOptions (Some "") (Some "example.com") None None None
                   (Some (Example.answers Example.redirect_302)) None in
  let env := fun _ : string => Some "sk_test_0123456789" in
  let r := Client.createImage Example.node (Config.new_Configuration env options)
             (Some 1%positive) Example.no_options
             (Example.with_params [("title", VStr "x")]) in
  fst r = Throw (ThrowError (ConfigurationError "OG Pilot API key prefix is missing"))
  /\ log (snd r) = [].
Proof.
  intros options env r.
  pose proof (createImage_empty_key env options Example.node (Some 1%positive)
                Example.no_options (Example.with_params [("title", VStr "x")])) as X.
  cbv zeta in X. specialize (X eq_refl eq_refl).
  destruct X as (e & He & _ & Hl & Hm).
  rewrite (Hm eq_refl) in He. split; [exact He | exact Hl].
Defined.

(* ================================================================== *)
(** ** The request context *)
(* ================================================================== *)

Lemma truthy_Some (s : option string) :
  RequestContext.truthy s = true -> exists v, s = Some v /\ v <> "".
Proof.
  destruct s as [v|]; [|discriminate]. cbn. intros H.
  exists v. split; [reflexivity|]. intros ->. discriminate.
Qed.

Lemma sapp_not_empty (a b : string) : a <> "" -> a +:+ b <> "".
Proof. destruct a; [done|]. intros _. rewrite sapp_cons. discriminate. Qed.

(** X20. [getPathFromEnv] never gives an empty path: its result is
    [undefined] exactly when there is no [process.env] or when
    [REQUEST_URI], [ORIGINAL_FULLPATH], [PATH_INFO] and [REQUEST_PATH] are
    all unset or empty; a non-empty [REQUEST_URI] is the result whatever
    the other variables hold, and [QUERY_STRING] alone gives no path. *)
Theorem getPathFromEnv_spec (rt : RequestContext.Runtime) :
  (forall s, RequestContext.getPathFromEnv rt = Some s -> s <> "")
  /\ (RequestContext.getPathFromEnv rt = None <->
      match RequestContext.process_env rt with
      | None => True
      | Some env =>
          RequestContext.truthy (env "REQUEST_URI") = false
          /\ RequestContext.truthy (env "ORIGINAL_FULLPATH") = false
          /\ RequestContext.truthy (env "PATH_INFO") = false
          /\ RequestContext.truthy (env "REQUEST_PATH") = false
      end)
  /\ (forall env, RequestContext.process_env rt = Some env ->
                  RequestContext.truthy (env "REQUEST_URI") = true ->
                  RequestContext.getPathFromEnv rt = env "REQUEST_URI").
Proof.
  unfold RequestContext.getPathFromEnv.
  destruct (RequestContext.process_env rt) as [env|];
    [|split; [discriminate | split; [done | discriminate]]].
  destruct (RequestContext.truthy (env "REQUEST_URI")) eqn:E1.
  { destruct (truthy_Some _ E1) as (v & Hv & Hne).
    split; [|split; [split|]].
    - intros s Hs. congruence.
    - intros H. congruence.
    - by intros (? & _).
    - intros env' [= <-] _. reflexivity. }
  destruct (RequestContext.truthy (env "ORIGINAL_FULLPATH")) eqn:E2.
  { destruct (truthy_Some _ E2) as (v & Hv & Hne).
    split; [|split; [split|]].
    - intros s Hs. congruence.
    - intros H. congruence.
    - by intros (_ & ? & _).
    - intros env' [= <-]. congruence. }
  destruct (RequestContext.truthy (env "PATH_INFO")) eqn:E3.
  { destruct (truthy_Some _ E3) as (v & Hv & Hne). rewrite Hv. cbn [default].
    split; [|split; [split|]].
    - intros s [= <-].
      destruct (0 <? Str.length (default "" (env "QUERY_STRING"))); [|exact Hne].
      by apply sapp_not_empty.
    - discriminate.
    - by intros (_ & _ & ? & _).
    - intros env' [= <-]. congruence. }
  destruct (RequestContext.truthy (env "REQUEST_PATH")) eqn:E4.
  { destruct (truthy_Some _ E4) as (v & Hv & Hne).
    split; [|split; [split|]].
    - intros s Hs. congruence.
    - intros H. congruence.
    - by intros (_ & _ & _ & ?).
    - intros env' [= <-]. congruence. }
  split; [discriminate|]. split; [done|].
  intros env' [= <-]. congruence.
Qed.

Lemma getPathFromEnv_spec_witness :
  RequestContext.getPathFromEnv (Example3.node_with Example3.cgi) = Some "/a?b=1"
  /\ "/a?b=1" <> "".
Proof.
  assert (H : RequestContext.getPathFromEnv (Example3.node_with Example3.cgi)
              = Some "/a?b=1") by reflexivity.
  split; [exact H|].
  exact (proj1 (getPathFromEnv_spec (Example3.node_with Example3.cgi)) _ H).
Defined.

Lemma getAsyncLocalStorage_consistent (rt : RequestContext.Runtime)
    (c : RequestContext.Ctx) :
  consistent rt c ->
  RequestContext.getAsyncLocalStorage rt c
  = (if RequestContext.async_hooks rt
     then RequestContext.OfAsyncLocalStorage
     else RequestContext.FallbackStorage,
     RequestContext.mkCtx
       (Some (if RequestContext.async_hooks rt
              then RequestContext.OfAsyncLocalStorage
              else RequestContext.FallbackStorage))
       (RequestContext.fallbackRequest c) (RequestContext.als_store c)).
Proof.
  unfold RequestContext.getAsyncLocalStorage. intros [H|H]; rewrite H.
  - reflexivity.
  - destruct c as [a f s]. cbn in *. by rewrite H.
Qed.

(** X21. Under the Express middleware, outside any [withRequestContext],
    [next] runs in a context where [getCurrentPath] is the request's
    [originalUrl] when that is non-empty, else its [url] when that is
    non-empty, as they are: a full URL is not cut down to its path, since
    the middleware stores the same string as [path].  With both missing or
    empty the path comes from the environment, where
    [getPathFromExpressRequest] gives ["/"]. *)
Theorem express_middleware_path (rt : RequestContext.Runtime)
    (req : RequestContext.ExpressRequest) (c : RequestContext.Ctx) :
  consistent rt c ->
  RequestContext.als_store c = None ->
  exists c0,
    (forall T (next : RequestContext.Ctx -> outcome T * RequestContext.Ctx),
        RequestContext.createExpressMiddleware req next c = next c0)
    /\ fst (RequestContext.getCurrentPath rt c0)
       = if RequestContext.truthy
              (RequestContext.or_else (RequestContext.originalUrl req)
                                      (RequestContext.req_url req))
         then Some (RequestContext.getPathFromExpressRequest req)
         else RequestContext.getPathFromEnv rt.
Proof.
  intros Hc Hs. eexists. split; [intros T next; reflexivity|].
  unfold RequestContext.getCurrentPath, RequestContext.getCurrentRequest.
  rewrite getAsyncLocalStorage_consistent
    by (destruct Hc as [Hc|Hc]; [left|right]; exact Hc).
  cbn [RequestContext.setCurrentRequest RequestContext.fallbackRequest
       RequestContext.als_store].
  rewrite Hs.
  unfold RequestContext.getPathFromExpressRequest.
  set (u := RequestContext.or_else (RequestContext.originalUrl req)
                                   (RequestContext.req_url req)).
  assert (Hget : match RequestContext.getStore
                   (if RequestContext.async_hooks rt
                    then RequestContext.OfAsyncLocalStorage
                    else RequestContext.FallbackStorage)
                   (RequestContext.mkCtx
                      (Some (if RequestContext.async_hooks rt
                             then RequestContext.OfAsyncLocalStorage
                             else RequestContext.FallbackStorage))
                      (Some (RequestContext.mkRequestInfo u u)) None) with
                 | Some store => Some store
                 | None => Some (RequestContext.mkRequestInfo u u)
                 end = Some (RequestContext.mkRequestInfo u u)).
  { by destruct (RequestContext.async_hooks rt). }
  cbn [RequestContext.fallbackRequest]. rewrite Hget. cbn [fst mbind option_bind
    RequestContext.path RequestContext.url].
  destruct (RequestContext.truthy u) eqn:Eu; [|reflexivity].
  unfold RequestContext.or_else at 1. rewrite Eu.
  destruct (truthy_Some _ Eu) as (v & -> & _). reflexivity.
Qed.

Lemma express_middleware_path_witness :
  exists c0,
    fst (RequestContext.getCurrentPath Example3.browser c0)
    = Some "https://example.com/a?b=1".
Proof.
  destruct (express_middleware_path Example3.browser
              (RequestContext.mkExpressRequest
                 (Some "https://example.com/a?b=1") (Some "/a?b=1"))
              Example3.initial (or_introl eq_refl) eq_refl) as (c0 & _ & H).
  exists c0. exact H.
Defined.

(** X22. [withRequestContext] runs the callback in a context where
    [getCurrentRequest] is the given request, and returns or throws what
    the callback does.  Without [async_hooks] the request lives in
    [fallbackRequest], which is put back when the callback is over, also
    when it throws: a [setCurrentRequest] made inside is undone.  With
    [async_hooks] the request lives in the storage, [fallbackRequest] is
    not touched by the call, and what the callback sets stays. *)
Theorem withRequestContext_scope (rt : RequestContext.Runtime) (T : Type)
    (request : RequestContext.RequestInfo)
    (callback : RequestContext.Ctx -> outcome T * RequestContext.Ctx)
    (c : RequestContext.Ctx) :
  consistent rt c ->
  exists c0,
    fst (RequestContext.getCurrentRequest rt c0) = Some request
    /\ fst (RequestContext.withRequestContext rt request callback c)
       = fst (callback c0)
    /\ let c' := snd (callback c0) in
       let c2 := snd (RequestContext.withRequestContext rt request callback c) in
       if RequestContext.async_hooks rt
       then RequestContext.fallbackRequest c0 = RequestContext.fallbackRequest c
            /\ RequestContext.fallbackRequest c2 = RequestContext.fallbackRequest c'
            /\ RequestContext.als_store c2 = RequestContext.als_store c
       else RequestContext.fallbackRequest c2 = RequestContext.fallbackRequest c
            /\ RequestContext.als_store c2 = RequestContext.als_store c'.
Proof.
  intros Hc. unfold RequestContext.withRequestContext.
  rewrite (getAsyncLocalStorage_consistent rt c Hc).
  unfold RequestContext.run.
  cbn [RequestContext.asyncLocalStorage RequestContext.fallbackRequest
       RequestContext.als_store].
  destruct (RequestContext.async_hooks rt) eqn:Ea.
  - eexists. split; [|split].
    2: { destruct (callback _) as [r c'] eqn:E. cbn [fst]. by rewrite E. }
    + unfold RequestContext.getCurrentRequest.
      rewrite getAsyncLocalStorage_consistent by (right; cbn; by rewrite Ea).
      rewrite Ea. reflexivity.
    + destruct (callback _) as [r c']. cbn. done.
  - eexists. split; [|split].
    2: { destruct (callback _) as [r c'] eqn:E. cbn [fst]. by rewrite E. }
    + unfold RequestContext.getCurrentRequest.
      rewrite getAsyncLocalStorage_consistent by (right; cbn; by rewrite Ea).
      rewrite Ea. reflexivity.
    + destruct (callback _) as [r c']. cbn. done.
Qed.

Lemma withRequestContext_scope_witness :
  let request := RequestContext.mkRequestInfo None (Some "/a") in
  let other := RequestContext.mkRequestInfo None (Some "/b") in
  let callback := fun c : RequestContext.Ctx =>
    (Throw (A := unit) (ThrowValue VNull),
     RequestContext.setCurrentRequest other c) in
  RequestContext.fallbackRequest
    (snd (RequestContext.withRequestContext Example3.browser request callback
            Example3.initial)) = None.
Proof.
  intros request other callback.
  destruct (withRequestContext_scope Example3.browser unit request callback
              Example3.initial (or_introl eq_refl)) as (c0 & _ & _ & H).
  cbv zeta in H. cbn [RequestContext.async_hooks Example3.browser] in H.
  exact (proj1 H).
Defined.

(* ================================================================== *)
(** ** Paths of Next.js routes *)
(* ================================================================== *)

Lemma slength_app (a b : string) :
  String.length (a +:+ b) = (String.length a + String.length b)%nat.
Proof.
  induction a as [|c a IH]; [by rewrite sapp_nil_l|].
  rewrite sapp_cons. cbn. by rewrite IH.
Qed.

Lemma drop_chars_app (a b : string) :
  RequestContext.drop_chars (String.length a) (a +:+ b) = b.
Proof.
  induction a as [|c a IH]; [rewrite sapp_nil_l; by destruct b|].
  rewrite sapp_cons. cbn. exact IH.
Qed.

Lemma slice0_app (a b : string) : Str.slice0 (String.length a) (a +:+ b) = a.
Proof.
  induction a as [|c a IH]; [by destruct (_ +:+ _)|].
  rewrite sapp_cons. cbn. by rewrite IH.
Qed.

Lemma match_between_app (pre suf key : string) :
  RequestContext.dot_plus key = true ->
  RequestContext.match_between pre suf (pre +:+ key +:+ suf) = Some key.
Proof.
  intros Hk. unfold RequestContext.match_between.
  rewrite !slength_app, drop_chars_app.
  replace (String.length pre + (String.length key + String.length suf)
           - String.length pre - String.length suf)%nat
    with (String.length key) by lia.
  rewrite slice0_app, String.eqb_refl, Hk. reflexivity.
Qed.

Lemma get_Some_lt (s : string) (n : nat) (c : ascii) :
  String.get n s = Some c -> (n < String.length s)%nat.
Proof.
  revert s. induction n as [|n IH]; intros [|a s]; cbn; try discriminate.
  - lia.
  - intros H. apply IH in H. lia.
Qed.

Lemma match_between_other (pre suf segment : string) (c d : ascii) (n : nat) :
  String.get n pre = Some c -> String.get n segment = Some d -> c <> d ->
  RequestContext.match_between pre suf segment = None.
Proof.
  intros Hc Hd Hne. unfold RequestContext.match_between.
  destruct (String.eqb segment _) eqn:E; [|reflexivity].
  apply String.eqb_eq in E. exfalso. apply Hne.
  rewrite E in Hd.
  rewrite <- (String.append_correct1 pre _ n) in Hd by exact (get_Some_lt _ _ _ Hc).
  congruence.
Qed.

Lemma fold_push_static (params : RequestContext.NextParams)
    (segments built : list string) :
  forallb static segments = true ->
  fold_left (RequestContext.push_segment params) segments built
  = built ++ segments.
Proof.
  revert built. induction segments as [|s r IH]; intros built H; cbn.
  - by rewrite List.app_nil_r.
  - apply andb_prop in H as [Hs Hr]. rewrite (IH _ Hr).
    unfold RequestContext.push_segment. unfold static in Hs.
    destruct (RequestContext.match_between "[[..." "]]" s); [discriminate|].
    destruct (RequestContext.match_between "[..." "]" s); [discriminate|].
    destruct (RequestContext.match_between "[" "]" s); [discriminate|].
    by rewrite <- List.app_assoc.
Qed.

(** X23. The path that [buildPathFromNextParams] builds always starts with
    a slash.  For a pattern without bracket segments it is the pattern's
    non-empty segments joined by single slashes, so doubled and trailing
    slashes of the pattern vanish; and search params that hold only
    [undefined] values and empty arrays add nothing, not even the question
    mark. *)
Theorem buildPathFromNextParams_static (routePattern : string)
    (params : RequestContext.NextParams)
    (searchParams : option RequestContext.SearchParams) :
  (exists rest,
      RequestContext.buildPathFromNextParams routePattern params searchParams
      = String "/" rest)
  /\ (forallb static (RequestContext.segments_of routePattern) = true ->
      RequestContext.buildPathFromNextParams routePattern params None
      = "/" +:+ Str.join "/" (RequestContext.segments_of routePattern))
  /\ (forall entries,
        searchParams = Some (RequestContext.OfRecord entries) ->
        forallb (fun kv => match snd kv with
                           | RequestContext.PUndefined
                           | RequestContext.PArray [] => true
                           | _ => false
                           end) entries = true ->
        RequestContext.buildPathFromNextParams routePattern params searchParams
        = RequestContext.buildPathFromNextParams routePattern params None).
Proof.
  unfold RequestContext.buildPathFromNextParams. split; [|split].
  - destruct (0 <? _); rewrite !sapp_cons, !sapp_nil_l; by eexists.
  - intros H. cbn [RequestContext.serializeSearchParams].
    change (0 <? Str.length "") with false. cbv iota.
    by rewrite (fold_push_static params _ [] H).
  - intros entries -> H.
    assert (E : RequestContext.serializeSearchParams
                  (Some (RequestContext.OfRecord entries)) = "").
    { unfold RequestContext.serializeSearchParams.
      assert (F : flat_map
                (fun kv : string * RequestContext.NextParamValue =>
                   match snd kv with
                   | RequestContext.PUndefined => []
                   | RequestContext.PString v => [(fst kv, v)]
                   | RequestContext.PArray l => map (pair (fst kv)) l
                   end) entries = []).
      { induction entries as [|[k v] r IH]; [reflexivity|].
        cbn in H. apply andb_prop in H as [Hv Hr]. cbn.
        rewrite (IH Hr). destruct v as [| |[|]]; done. }
      rewrite F. reflexivity. }
    rewrite E. reflexivity.
Qed.

Lemma buildPathFromNextParams_static_witness :
  RequestContext.buildPathFromNextParams "//docs//intro/" Example3.params None
  = "/docs/intro".
Proof.
  exact (proj1 (proj2 (buildPathFromNextParams_static "//docs//intro/"
                         Example3.params None)) eq_refl).
Defined.

Lemma push_catch_all (params : RequestContext.NextParams)
    (built : list string) (key : string) :
  RequestContext.dot_plus key = true ->
  RequestContext.push_segment params built ("[..." +:+ key +:+ "]")
  = match RequestContext.get_property params key with
    | RequestContext.Declared RequestContext.PUndefined => built
    | RequestContext.Declared (RequestContext.PString v) => built ++ [v]
    | RequestContext.Declared (RequestContext.PArray l) => built ++ l
    | RequestContext.Member text => built ++ [text]
    end
  /\ RequestContext.push_segment params built ("[[..." +:+ key +:+ "]]")
     = RequestContext.push_segment params built ("[..." +:+ key +:+ "]").
Proof.
  intros Hk.
  assert (H1 : RequestContext.push_segment params built ("[..." +:+ key +:+ "]")
               = match RequestContext.get_property params key with
                 | RequestContext.Declared RequestContext.PUndefined => built
                 | RequestContext.Declared (RequestContext.PString v) => built ++ [v]
                 | RequestContext.Declared (RequestContext.PArray l) => built ++ l
                 | RequestContext.Member text => built ++ [text]
                 end).
  { unfold RequestContext.push_segment.
    rewrite (match_between_other "[[..." "]]" _ "[" "." 1) by done.
    rewrite (match_between_app "[..." "]" key Hk).
    by destruct (RequestContext.get_property params key) as [[| |]|]. }
  split; [exact H1|]. rewrite H1.
  unfold RequestContext.push_segment.
  rewrite (match_between_app "[[..." "]]" key Hk).
  by destruct (RequestContext.get_property params key) as [[| |]|].
Qed.

(** X6. A catch-all segment [[...key]] is treated as the optional one
    [[[...key]]]: the two patterns give the same path for all params and
    search params.  Where [params[key]] is [undefined], that is, where the
    object has no own property under the key, or an [undefined] one, and
    inherits none (a key such as [constructor] is inherited from
    [Object.prototype]), the segment is left out, so the path is that of
    the pattern without it; an inherited member is printed into the path
    instead. *)
Theorem catch_all_is_optional (pattern1 pattern2 pattern3 : string)
    (xs ys : list string) (key : string)
    (params : RequestContext.NextParams)
    (searchParams : option RequestContext.SearchParams) :
  RequestContext.dot_plus key = true ->
  RequestContext.segments_of pattern1 = xs ++ ["[..." +:+ key +:+ "]"] ++ ys ->
  RequestContext.segments_of pattern2 = xs ++ ["[[..." +:+ key +:+ "]]"] ++ ys ->
  RequestContext.buildPathFromNextParams pattern1 params searchParams
  = RequestContext.buildPathFromNextParams pattern2 params searchParams
  /\ (RequestContext.segments_of pattern3 = xs ++ ys ->
      RequestContext.get_property params key
      = RequestContext.Declared RequestContext.PUndefined ->
      RequestContext.buildPathFromNextParams pattern1 params searchParams
      = RequestContext.buildPathFromNextParams pattern3 params searchParams)
  /\ (forall text,
        RequestContext.get_property params key = RequestContext.Member text ->
        ys = [] -> searchParams = None ->
        RequestContext.buildPathFromNextParams pattern1 params searchParams
        = "/" +:+ Str.join "/"
            (fold_left (RequestContext.push_segment params) xs [] ++ [text])).
Proof.
  intros Hk H1 H2. unfold RequestContext.buildPathFromNextParams.
  rewrite H1, H2, !fold_left_app. cbn [fold_left].
  destruct (push_catch_all params (fold_left (RequestContext.push_segment params) xs [])
              key Hk) as [Ha Hb].
  rewrite Hb. split; [reflexivity|]. split.
  - intros H3 Hu. rewrite H3, fold_left_app, Ha, Hu. reflexivity.
  - intros text Hm -> ->. rewrite Ha, Hm. reflexivity.
Qed.

Lemma catch_all_is_optional_witness :
  RequestContext.buildPathFromNextParams "/blog/[...slug]" Example3.params None
  = RequestContext.buildPathFromNextParams "/blog/[[...slug]]" Example3.params None
  /\ RequestContext.buildPathFromNextParams "/blog/[...id]" Example3.params None
     = "/blog"
  /\ RequestContext.buildPathFromNextParams "/blog/[...constructor]"
       (Example3.plain []) None
     = "/blog/function Object() { [native code] }".
Proof.
  split; [|split].
  - exact (proj1 (catch_all_is_optional "/blog/[...slug]" "/blog/[[...slug]]" ""
                    ["blog"] [] "slug" Example3.params None
                    eq_refl eq_refl eq_refl)).
  - exact (proj1 (proj2 (catch_all_is_optional "/blog/[...id]" "/blog/[[...id]]"
                           "/blog" ["blog"] [] "id" Example3.params None
                           eq_refl eq_refl eq_refl)) eq_refl eq_refl).
  - exact (proj2 (proj2 (catch_all_is_optional "/blog/[...constructor]"
                           "/blog/[[...constructor]]" "/blog" ["blog"] []
                           "constructor" (Example3.plain []) None
                           eq_refl eq_refl eq_refl))
                 "function Object() { [native code] }" eq_refl eq_refl eq_refl).
Defined.
